(** * PolymarketBTC15mAssistant: the update cycle and the trading engines

    A shallow embedding of the parts of the server ([updateData],
    [countVwapCrosses], the price-to-beat latch, [GET /api/data], the data
    loop), of the [PaperTrader] class (gates, sizing, settlement, session
    reset, persistence) and of the [AutoTrader] class, followed by the
    theorems.

    Conventions of the embedding.
    - A JavaScript number that carries money, a price, a share count or a
      probability is an IEEE 754 binary64 value ([spec_float] of the
      Standard Library at precision 53): every [+], [-], [*] and [/] rounds
      to nearest even as the code's does, [NaN] and the infinities are
      values, and a comparison with [NaN] is false.  A decimal literal is
      the double nearest to it.  The crossing counter reads only the sign of
      a difference of two prices and is stated over rationals.  Counters and
      millisecond clock readings are integers [Z].  [null] is [None].
    - Mutable object state is threaded explicitly: every method takes the
      engine state and returns the new one.
    - Trade objects are shared between [this.trades] and [this.positions];
      they live in an object store and both containers hold references.
    - [Date.now()] is an argument: one reading per call of a method.
    - [console.log] has no effect on the engine state and is left out.
    - The collaborators of [updateData] (fetches, indicators, the decision
      engine) are not part of the embedding: a pass is given by the values
      they returned, or by the point at which one of them threw. *)

From Stdlib Require Import ZArith QArith Qround Qminmax Qabs Lia Lqa.
From Stdlib Require Import Floats.SpecFloat.
From stdpp Require Import base list strings.

(** ** Numbers *)

Definition number : Type := spec_float.

Module Num.

Definition prec : Z := 53.
Definition emax : Z := 1024.

(** The double of an integer (exact below 2^53 in absolute value). *)
Definition ofZ (z : Z) : number := binary_normalize prec emax z 0 false.

Definition add : number -> number -> number := SFadd prec emax.
Definition sub : number -> number -> number := SFsub prec emax.
Definition mul : number -> number -> number := SFmul prec emax.
Definition div : number -> number -> number := SFdiv prec emax.

(** Unary minus. *)
Definition opp : number -> number := SFopp.

(** [Math.abs]. *)
Definition abs : number -> number := SFabs.

(** The double nearest to the fraction [n / d] of two integers that are
    doubles themselves. *)
Definition dec (n d : Z) : number := div (ofZ n) (ofZ d).

(** What a decimal literal denotes: the double nearest to it. *)
Definition literal (x : Number.number) : option number :=
  match x with
  | Number.Decimal (Decimal.Decimal i f) =>
      Some (dec (Z.of_int (Decimal.app_int i f))
                (10 ^ Z.of_nat (Decimal.nb_digits f)))
  | _ => None
  end.

(** Doubles are shown as they are stored. *)
Definition shown (x : number) : option Number.number := None.

(** The signed mantissa of a finite double once its exponent is lowered to
    [e'], as [SFadd] and [SFsub] align their arguments. *)
Definition aligned (s : bool) (m : positive) (e e' : Z) : Z :=
  cond_Zopp s (Zpos (fst (shl_align m e e'))).

(** The order of two doubles: [None] when one of them is [NaN].  Finite
    doubles are compared by their values, the mantissas aligned to the
    smaller exponent; on normalised doubles this is [SFcompare]. *)
Definition compare (x y : number) : option comparison :=
  match x, y with
  | S754_nan, _ | _, S754_nan => None
  | S754_infinity s1, S754_infinity s2 =>
      Some (match s1, s2 with
            | true, true | false, false => Eq
            | true, false => Lt
            | false, true => Gt
            end)
  | S754_infinity s, _ => Some (if s then Lt else Gt)
  | _, S754_infinity s => Some (if s then Gt else Lt)
  | S754_finite s _ _, S754_zero _ => Some (if s then Lt else Gt)
  | S754_zero _, S754_finite s _ _ => Some (if s then Gt else Lt)
  | S754_zero _, S754_zero _ => Some Eq
  | S754_finite s1 m1 e1, S754_finite s2 m2 e2 =>
      let e' := Z.min e1 e2 in
      Some (Z.compare (aligned s1 m1 e1 e') (aligned s2 m2 e2 e'))
  end.

(** [x < y], [x <= y] and [x == y] on numbers. *)
Definition ltb (x y : number) : bool :=
  match compare x y with Some Lt => true | _ => false end.

Definition leb (x y : number) : bool :=
  match compare x y with Some (Lt | Eq) => true | _ => false end.

Definition eqb (x y : number) : bool :=
  match compare x y with Some Eq => true | _ => false end.

Definition lt (x y : number) : Prop := ltb x y = true.
Definition le (x y : number) : Prop := leb x y = true.

(** [!x] on a number: zero of either sign and [NaN] are falsy. *)
Definition falsy (x : number) : bool :=
  match x with
  | S754_zero _ | S754_nan => true
  | _ => false
  end.

(** [Math.min(x, y)]: [NaN] when one of them is, and -0 below +0. *)
Definition min (x y : number) : number :=
  match compare x y with
  | None => S754_nan
  | Some Lt => x
  | Some Gt => y
  | Some Eq => match y with S754_zero true => y | _ => x end
  end.

(** [Math.max(x, y)]. *)
Definition max (x y : number) : number :=
  match compare x y with
  | None => S754_nan
  | Some Lt => y
  | Some Gt => x
  | Some Eq => match y with S754_zero false => y | _ => x end
  end.

(** [Math.floor(x)]: a double with a non-negative exponent is an integer
    already; otherwise the mantissa is divided by the power of two, rounding
    down, and the quotient (below 2^53 in absolute value) is a double. *)
Definition floor (x : number) : number :=
  match x with
  | S754_finite s m (Zneg k) =>
      match (cond_Zopp s (Zpos m) / Z.pow_pos 2 k)%Z with
      | Z0 => S754_zero false
      | q => ofZ q
      end
  | _ => x
  end.

(** [x < 0]: the sign is set and the double is neither a zero nor [NaN]. *)
Definition negative (x : number) : bool :=
  match x with
  | S754_finite true _ _ | S754_infinity true => true
  | _ => false
  end.

(** A number that [JSON.stringify] writes and [JSON.parse] reads back as it
    was: [NaN] and the infinities are written as [null], -0 as 0. *)
Definition plain (x : number) : bool :=
  match x with
  | S754_finite _ _ _ | S754_zero false => true
  | _ => false
  end.

End Num.

Declare Scope num_scope.
Delimit Scope num_scope with num.
Bind Scope num_scope with spec_float number.
Number Notation spec_float Num.literal Num.shown : num_scope.
Infix "+" := Num.add : num_scope.
Infix "-" := Num.sub : num_scope.
Infix "*" := Num.mul : num_scope.
Infix "/" := Num.div : num_scope.
Notation "- x" := (Num.opp x) : num_scope.
Infix "<" := Num.lt : num_scope.
Infix "<=" := Num.le : num_scope.

(** [x < y] on the rationals of the crossing counter. *)
Definition Qltb (x y : Q) : bool := negb (Qle_bool y x).

(** JavaScript truthiness of a string that may be [null]: [null] and the
    empty string are falsy. *)
Definition truthy (s : option string) : bool :=
  match s with
  | Some x => negb (bool_decide (x = ""%string))
  | None => false
  end.
(** ** Enumerations shared by the snapshot and the engine *)

Inductive Side := UP | DOWN.
Inductive Strength := STRONG | GOOD | OtherStrength.
Inductive Phase := EARLY | MID | LATE.
(** [signal.action]: "HOLD" or the template [`BUY_${rec.side}`]. *)
Inductive Action := HOLD | BUY (side : option Side).

#[global] Instance Side_eq_dec : EqDecision Side.
Proof. solve_decision. Defined.
#[global] Instance Strength_eq_dec : EqDecision Strength.
Proof. solve_decision. Defined.
#[global] Instance Phase_eq_dec : EqDecision Phase.
Proof. solve_decision. Defined.
#[global] Instance Action_eq_dec : EqDecision Action.
Proof. solve_decision. Defined.

(** ** The snapshot published by a cycle ([latestData]) *)

Record Signal := {
  sig_action : Action;
  sig_side : option Side;
  sig_strength : option Strength;
  sig_edge : option number              (* in percent *)
}.

Record Snapshot := {
  market_slug : string;
  timing_timeLeftMin : number;
  timing_phase : Phase;
  prices_chainlink : option number;
  prices_priceToBeat : option number;
  prices_priceDelta : option number;
  polymarket_upPrice : option number;
  polymarket_downPrice : option number;
  edge_up : option number;
  edge_down : option number;
  signal : Signal
}.

(** ** The VWAP crossing counter *)

Module Crosses.
Local Open Scope Q_scope.

(** [closes[i] - vwapSeries[i]]; an index outside either array reads
    [undefined] and the difference is [NaN], here [None]. *)
Definition diffAt (closes vwapSeries : list Q) (i : nat) : option Q :=
  match closes !! i, vwapSeries !! i with
  | Some c, Some v => Some (c - v)
  | _, _ => None
  end.

(** Opposite strict signs: [(prev > 0 && cur < 0) || (prev < 0 && cur > 0)]. *)
Definition opposite (prev cur : Q) : bool :=
  (Qltb 0 prev && Qltb cur 0) || (Qltb prev 0 && Qltb 0 cur).

(** The loop body at index [i]: [true] when it increments [crosses].
    Every comparison with [NaN] is false. *)
Definition crossAt (closes vwapSeries : list Q) (i : nat) : bool :=
  match diffAt closes vwapSeries (i - 1), diffAt closes vwapSeries i with
  | Some prev, Some cur =>
      if Qeq_bool prev 0 then false else opposite prev cur
  | _, _ => false
  end.

(** [for (i = start; i < closes.length; i += 1)], with [n] iterations left. *)
Fixpoint loop (closes vwapSeries : list Q) (i n crosses : nat) : nat :=
  match n with
  | O => crosses
  | S n' =>
      loop closes vwapSeries (S i) n'
        (if crossAt closes vwapSeries i then S crosses else crosses)
  end.

Definition countVwapCrosses (closes vwapSeries : list Q) (lookback : nat)
  : option nat :=
  if (length closes <? lookback)%nat || (length vwapSeries <? lookback)%nat
  then None
  else
    let start := (length closes - lookback + 1)%nat in
    Some (loop closes vwapSeries start (length closes - start) 0).

(** The differences close - vwap at the last [lookback] indices of [closes],
    the two series being read index by index. *)
Definition lastDiffs (closes vwapSeries : list Q) (lookback : nat) : list Q :=
  drop (length closes - lookback) (zip_with Qminus closes vwapSeries).

(** Adjacent pairs of a difference series that the counter counts. *)
Fixpoint crossesOf (d : list Q) : nat :=
  match d with
  | prev :: (cur :: _) as rest =>
      ((if Qeq_bool prev 0 then 0 else if opposite prev cur then 1 else 0)
       + crossesOf rest)%nat
  | _ => 0%nat
  end.

(** The counter as the specification words it: a cross is a change of sign
    against the last non-zero difference seen; an exact zero is passed over
    and leaves that reference as it is. *)
Fixpoint signChangesFrom (reference : Q) (d : list Q) : nat :=
  match d with
  | [] => 0%nat
  | cur :: rest =>
      if Qeq_bool cur 0 then signChangesFrom reference rest
      else ((if opposite reference cur then 1 else 0)
            + signChangesFrom cur rest)%nat
  end.

Definition signChanges (d : list Q) : nat :=
  match d with
  | [] => 0%nat
  | first :: rest => signChangesFrom first rest
  end.

End Crosses.

(** ** The update cycle: price-to-beat latch and snapshot publication *)

Module Server.
Local Open Scope num_scope.

(** [priceToBeatState = { slug, value, setAtMs }]. *)
Record PriceToBeatState := {
  ptb_slug : option string;
  ptb_value : option number;
  ptb_setAtMs : option Z
}.

(** What the decision engine hands back ([rec]); the engine itself is an
    external collaborator. *)
Record Recommendation := {
  rec_enter : bool;               (* rec.action === "ENTER" *)
  rec_side : option Side;
  rec_strength : option Strength;
  rec_phase : Phase
}.

(** Everything one pass of [updateData] has computed when it reaches the
    latch: the values read from the collaborators and the clock. *)
Record CycleData := {
  cy_marketSlug : string;         (* "" when the market lookup is not ok *)
  cy_marketStartMs : option Z;    (* eventStartTime, null when unknown *)
  cy_currentPrice : option number;     (* chainlink?.price ?? null *)
  cy_nowMs : Z;                   (* Date.now() inside the latch *)
  cy_timeLeftMin : number;
  cy_marketUp : option number;
  cy_marketDown : option number;
  cy_edgeUp : option number;
  cy_edgeDown : option number;
  cy_rec : Recommendation
}.

(** How one pass of [updateData] ends.  An exception anywhere in the [try]
    block is caught and logged; what matters is whether it is raised before
    the latch, after the latch but before [latestData] is assigned, or not
    at all. *)
Inductive Cycle :=
| ThrowsBeforeLatch
| ThrowsAfterLatch (c : CycleData)
| Completes (c : CycleData).

Record State := {
  latestData : option Snapshot;
  priceToBeatState : PriceToBeatState
}.

(** Module-level initial values. *)
Definition initial : State :=
  {| latestData := None;
     priceToBeatState :=
       {| ptb_slug := None; ptb_value := None; ptb_setAtMs := None |} |}.

(** [if (marketSlug && priceToBeatState.slug !== marketSlug)]: start
    tracking the new slug with an empty latch. *)
Definition retrack (c : CycleData) (p : PriceToBeatState) : PriceToBeatState :=
  if truthy (Some (cy_marketSlug c))
     && negb (bool_decide (ptb_slug p = Some (cy_marketSlug c)))
  then {| ptb_slug := Some (cy_marketSlug c);
          ptb_value := None; ptb_setAtMs := None |}
  else p.

(** [okToLatch = marketStartMs === null ? true : nowMs >= marketStartMs]. *)
Definition okToLatch (c : CycleData) : bool :=
  match cy_marketStartMs c with
  | None => true
  | Some start => (start <=? cy_nowMs c)%Z
  end.

(** [if (slug && value === null && currentPrice !== null) { ... }]. *)
Definition latch (c : CycleData) (p : PriceToBeatState) : PriceToBeatState :=
  match ptb_value p, cy_currentPrice c with
  | None, Some price =>
      if truthy (ptb_slug p) && okToLatch c
      then {| ptb_slug := ptb_slug p;
              ptb_value := Some price;
              ptb_setAtMs := Some (cy_nowMs c) |}
      else p
  | _, _ => p
  end.

(** Lines 250-260: both updates of [priceToBeatState] in one pass. *)
Definition updateLatch (c : CycleData) (p : PriceToBeatState)
  : PriceToBeatState :=
  latch c (retrack c p).

(** [priceToBeat = priceToBeatState.slug === marketSlug ? value : null]. *)
Definition readPriceToBeat (c : CycleData) (p : PriceToBeatState) : option number :=
  if bool_decide (ptb_slug p = Some (cy_marketSlug c)) then ptb_value p
  else None.

Definition scale100 (x : option number) : option number :=
  match x with Some e => Some (e * 100) | None => None end.

(** The signal block: "HOLD" unless the recommendation is to enter. *)
Definition buildSignal (c : CycleData) : Signal :=
  let r := cy_rec c in
  if rec_enter r then
    {| sig_action := BUY (rec_side r);
       sig_side := rec_side r;
       sig_strength := rec_strength r;
       sig_edge := scale100 (match rec_side r with
                             | Some UP => cy_edgeUp c
                             | _ => cy_edgeDown c
                             end) |}
  else
    {| sig_action := HOLD; sig_side := None;
       sig_strength := None; sig_edge := None |}.

(** The object literal assigned to [latestData] (the fields the engine and
    the claims read). *)
Definition buildSnapshot (c : CycleData) (p : PriceToBeatState) : Snapshot :=
  let priceToBeat := readPriceToBeat c p in
  {| market_slug := cy_marketSlug c;
     timing_timeLeftMin := cy_timeLeftMin c;
     timing_phase := rec_phase (cy_rec c);
     prices_chainlink := cy_currentPrice c;
     prices_priceToBeat := priceToBeat;
     prices_priceDelta :=
       match cy_currentPrice c, priceToBeat with
       | Some cur, Some ptb => Some (cur - ptb)
       | _, _ => None
       end;
     polymarket_upPrice := cy_marketUp c;
     polymarket_downPrice := cy_marketDown c;
     edge_up := scale100 (cy_edgeUp c);
     edge_down := scale100 (cy_edgeDown c);
     signal := buildSignal c |}.

(** One pass of [updateData]. *)
Definition updateData (cy : Cycle) (s : State) : State :=
  match cy with
  | ThrowsBeforeLatch => s
  | ThrowsAfterLatch c =>
      {| latestData := latestData s;
         priceToBeatState := updateLatch c (priceToBeatState s) |}
  | Completes c =>
      let p := updateLatch c (priceToBeatState s) in
      {| latestData := Some (buildSnapshot c p);
         priceToBeatState := p |}
  end.

(** A run of the data loop: cycles in the order they execute. *)
Definition run (cycles : list Cycle) (s : State) : State :=
  fold_left (fun st cy => updateData cy st) cycles s.

(** [GET /api/data]. *)
Inductive Response :=
| NotReady503              (* { error: "Data not ready yet" } *)
| Ok200 (body : Snapshot).

Definition apiData (s : State) : Response :=
  match latestData s with
  | None => NotReady503
  | Some d => Ok200 d
  end.

Definition completes (cy : Cycle) : bool :=
  match cy with Completes _ => true | _ => false end.

(** The slug a cycle reports keeps the tracked slug when it is that slug
    itself or empty (no market data in that pass). *)
Definition keepsSlug (tracked : string) (cy : Cycle) : Prop :=
  match cy with
  | ThrowsBeforeLatch => True
  | ThrowsAfterLatch c | Completes c =>
      cy_marketSlug c = tracked \/ cy_marketSlug c = ""%string
  end.

End Server.

(** ** The paper-trading engine ([PaperTrader]) *)

Module Paper.
Local Open Scope num_scope.

Inductive Status := OPEN | SETTLED | FORCE_SETTLED.

#[global] Instance Status_eq_dec : EqDecision Status.
Proof. solve_decision. Defined.

(** A trade object.  [tr_id] is the clock reading [n] of the id ["PT-n"]. *)
Record Trade := {
  tr_id : Z;
  tr_timestamp : Z;
  tr_marketSlug : string;
  tr_side : Side;
  tr_shares : number;
  tr_entryPrice : number;
  tr_cost : number;
  tr_priceToBeat : option number;
  tr_currentPrice : option number;
  tr_edge : option number;
  tr_strength : option Strength;
  tr_phase : Phase;
  tr_timeLeftMin : number;
  tr_status : Status;
  tr_pnl : option number;
  tr_exitPrice : option number;
  tr_settledAt : option Z;
  tr_outcome : option Side;
  tr_finalPrice : option number
}.

Record Stats := {
  st_totalTrades : Z;
  st_wins : Z;
  st_losses : Z;
  st_totalWon : number;
  st_totalLost : number;
  st_largestWin : number;
  st_largestLoss : number;
  st_currentStreak : Z;
  st_bestStreak : Z;
  st_worstStreak : Z
}.

Record LifetimeStats := {
  lt_totalSessions : Z;
  lt_totalTrades : Z;
  lt_totalWins : Z;
  lt_totalLosses : Z;
  lt_totalWon : number;
  lt_totalLost : number;
  lt_sessionsWon : Z;
  lt_sessionsLost : Z
}.

(** An entry of [sessionHistory].  The formatted [winRate] string is not
    carried. *)
Record Session := {
  se_id : Z;
  se_startedAt : Z;
  se_endedAt : Z;
  se_startingBalance : number;
  se_endingBalance : number;
  se_pnl : number;
  se_pnlPct : number;
  se_trades : Z;
  se_wins : Z;
  se_losses : Z;
  se_wiped : bool
}.

(** Trading parameters, fixed by the constructor. *)
Record Config := {
  minEdge : number;
  maxPositionPct : number;
  cooldownMs : Z
}.

(** [this.autoResetThreshold = 10]. *)
Definition autoResetThreshold : number := 10.

(** The engine state.  [store] holds the trade objects by allocation index;
    [trades] is the array [this.trades] of references; [positions] is the
    [Map] [this.positions] from id to reference, in insertion order. *)
Record PaperTrader := {
  cfg : Config;
  startingBalance : number;
  balance : number;
  store : list Trade;
  trades : list nat;
  positions : list (Z * nat);
  enabled : bool;
  startedAt : Z;
  stats : Stats;
  sessionHistory : list Session;
  lifetimeStats : LifetimeStats;
  lastTradeTime : option Z;
  currentMarketSlug : option string;
  pendingSettlement : option Snapshot
}.

Definition initLifetimeStats : LifetimeStats :=
  {| lt_totalSessions := 0; lt_totalTrades := 0; lt_totalWins := 0;
     lt_totalLosses := 0; lt_totalWon := 0; lt_totalLost := 0;
     lt_sessionsWon := 0; lt_sessionsLost := 0 |}.

Definition initStats : Stats :=
  {| st_totalTrades := 0; st_wins := 0; st_losses := 0;
     st_totalWon := 0; st_totalLost := 0;
     st_largestWin := 0; st_largestLoss := 0;
     st_currentStreak := 0; st_bestStreak := 0; st_worstStreak := 0 |}.

(** [options.x || dflt] on an optional number: absent, zero and [NaN] give
    the default. *)
Definition orDefault (x : option number) (dflt : number) : number :=
  match x with
  | Some v => if Num.falsy v then dflt else v
  | None => dflt
  end.

Definition orDefaultZ (x : option Z) (dflt : Z) : Z :=
  match x with
  | Some v => if (v =? 0)%Z then dflt else v
  | None => dflt
  end.

Record Options := {
  opt_startingBalance : option number;
  opt_minEdge : option number;
  opt_maxPositionPct : option number;
  opt_cooldownMs : option Z
}.

(** The constructor on its fresh-start path (no saved file, or
    [options.reset]); [now] stamps [startedAt]. *)
Definition newPaperTrader (options : Options) (now : Z) : PaperTrader :=
  let start := orDefault (opt_startingBalance options) 1000 in
  {| cfg := {| minEdge := orDefault (opt_minEdge options) 0.10;
               maxPositionPct := orDefault (opt_maxPositionPct options) 0.05;
               cooldownMs := orDefaultZ (opt_cooldownMs options) 30000 |};
     startingBalance := start;
     balance := start;
     store := [];
     trades := [];
     positions := [];
     enabled := false;
     startedAt := now;
     stats := initStats;
     sessionHistory := [];
     lifetimeStats := initLifetimeStats;
     lastTradeTime := None;
     currentMarketSlug := None;
     pendingSettlement := None |}.

(** [export const paperTrader = new PaperTrader({ startingBalance: 1000 })]. *)
Definition paperTrader (now : Z) : PaperTrader :=
  newPaperTrader
    {| opt_startingBalance := Some 1000; opt_minEdge := None;
       opt_maxPositionPct := None; opt_cooldownMs := None |} now.

(** *** Field updates *)

Definition set_balance (b : number) (s : PaperTrader) : PaperTrader :=
  {| cfg := cfg s; startingBalance := startingBalance s; balance := b;
     store := store s; trades := trades s; positions := positions s;
     enabled := enabled s; startedAt := startedAt s; stats := stats s;
     sessionHistory := sessionHistory s; lifetimeStats := lifetimeStats s;
     lastTradeTime := lastTradeTime s;
     currentMarketSlug := currentMarketSlug s;
     pendingSettlement := pendingSettlement s |}.

Definition set_store (st : list Trade) (s : PaperTrader) : PaperTrader :=
  {| cfg := cfg s; startingBalance := startingBalance s; balance := balance s;
     store := st; trades := trades s; positions := positions s;
     enabled := enabled s; startedAt := startedAt s; stats := stats s;
     sessionHistory := sessionHistory s; lifetimeStats := lifetimeStats s;
     lastTradeTime := lastTradeTime s;
     currentMarketSlug := currentMarketSlug s;
     pendingSettlement := pendingSettlement s |}.

Definition set_trades (l : list nat) (s : PaperTrader) : PaperTrader :=
  {| cfg := cfg s; startingBalance := startingBalance s; balance := balance s;
     store := store s; trades := l; positions := positions s;
     enabled := enabled s; startedAt := startedAt s; stats := stats s;
     sessionHistory := sessionHistory s; lifetimeStats := lifetimeStats s;
     lastTradeTime := lastTradeTime s;
     currentMarketSlug := currentMarketSlug s;
     pendingSettlement := pendingSettlement s |}.

Definition set_positions (m : list (Z * nat)) (s : PaperTrader) : PaperTrader :=
  {| cfg := cfg s; startingBalance := startingBalance s; balance := balance s;
     store := store s; trades := trades s; positions := m;
     enabled := enabled s; startedAt := startedAt s; stats := stats s;
     sessionHistory := sessionHistory s; lifetimeStats := lifetimeStats s;
     lastTradeTime := lastTradeTime s;
     currentMarketSlug := currentMarketSlug s;
     pendingSettlement := pendingSettlement s |}.

Definition set_enabled (b : bool) (s : PaperTrader) : PaperTrader :=
  {| cfg := cfg s; startingBalance := startingBalance s; balance := balance s;
     store := store s; trades := trades s; positions := positions s;
     enabled := b; startedAt := startedAt s; stats := stats s;
     sessionHistory := sessionHistory s; lifetimeStats := lifetimeStats s;
     lastTradeTime := lastTradeTime s;
     currentMarketSlug := currentMarketSlug s;
     pendingSettlement := pendingSettlement s |}.

Definition set_stats (st : Stats) (s : PaperTrader) : PaperTrader :=
  {| cfg := cfg s; startingBalance := startingBalance s; balance := balance s;
     store := store s; trades := trades s; positions := positions s;
     enabled := enabled s; startedAt := startedAt s; stats := st;
     sessionHistory := sessionHistory s; lifetimeStats := lifetimeStats s;
     lastTradeTime := lastTradeTime s;
     currentMarketSlug := currentMarketSlug s;
     pendingSettlement := pendingSettlement s |}.

Definition set_lastTradeTime (t : option Z) (s : PaperTrader) : PaperTrader :=
  {| cfg := cfg s; startingBalance := startingBalance s; balance := balance s;
     store := store s; trades := trades s; positions := positions s;
     enabled := enabled s; startedAt := startedAt s; stats := stats s;
     sessionHistory := sessionHistory s; lifetimeStats := lifetimeStats s;
     lastTradeTime := t;
     currentMarketSlug := currentMarketSlug s;
     pendingSettlement := pendingSettlement s |}.

(** [this.currentMarketSlug = data.market.slug; this.pendingSettlement = data]. *)
Definition track (data : Snapshot) (s : PaperTrader) : PaperTrader :=
  {| cfg := cfg s; startingBalance := startingBalance s; balance := balance s;
     store := store s; trades := trades s; positions := positions s;
     enabled := enabled s; startedAt := startedAt s; stats := stats s;
     sessionHistory := sessionHistory s; lifetimeStats := lifetimeStats s;
     lastTradeTime := lastTradeTime s;
     currentMarketSlug := Some (market_slug data);
     pendingSettlement := Some data |}.

(** *** The positions map *)

(** [Map.prototype.set]: an existing key keeps its place and takes the new
    value, a new key goes last. *)
Fixpoint map_set (id : Z) (ref : nat) (m : list (Z * nat)) : list (Z * nat) :=
  match m with
  | [] => [(id, ref)]
  | (k, v) :: rest =>
      if (k =? id)%Z then (k, ref) :: rest else (k, v) :: map_set id ref rest
  end.

(** [Map.prototype.delete]. *)
Definition map_delete (id : Z) (m : list (Z * nat)) : list (Z * nat) :=
  filter (fun e => fst e <> id) m.

Definition enable (s : PaperTrader) : PaperTrader := set_enabled true s.
Definition disable (s : PaperTrader) : PaperTrader := set_enabled false s.
Definition isEnabled (s : PaperTrader) : bool := enabled s.

(** *** Session reset *)

(** The [session] object [reset] pushes on the history. *)
Definition closeSession (now : Z) (s : PaperTrader) : Session :=
  {| se_id := Z.of_nat (length (sessionHistory s)) + 1;
     se_startedAt := startedAt s;
     se_endedAt := now;
     se_startingBalance := startingBalance s;
     se_endingBalance := balance s;
     se_pnl := balance s - startingBalance s;
     se_pnlPct := (balance s / startingBalance s - 1) * 100;
     se_trades := st_totalTrades (stats s);
     se_wins := st_wins (stats s);
     se_losses := st_losses (stats s);
     se_wiped := Num.ltb (balance s) autoResetThreshold |}.

(** The "Update lifetime stats" block of [reset]. *)
Definition foldLifetime (s : PaperTrader) : LifetimeStats :=
  let l := lifetimeStats s in
  let sessionPnl := balance s - startingBalance s in
  {| lt_totalSessions := lt_totalSessions l + 1;
     lt_totalTrades := lt_totalTrades l + st_totalTrades (stats s);
     lt_totalWins := lt_totalWins l + st_wins (stats s);
     lt_totalLosses := lt_totalLosses l + st_losses (stats s);
     lt_totalWon := lt_totalWon l + st_totalWon (stats s);
     lt_totalLost := lt_totalLost l + st_totalLost (stats s);
     lt_sessionsWon :=
       if Num.ltb 0 sessionPnl then lt_sessionsWon l + 1 else lt_sessionsWon l;
     lt_sessionsLost :=
       if Num.ltb 0 sessionPnl then lt_sessionsLost l else lt_sessionsLost l + 1 |}.

(** [if (recordSession && this.stats.totalTrades > 0)]. *)
Definition recordsSession (recordSession : bool) (s : PaperTrader) : bool :=
  recordSession && (0 <? st_totalTrades (stats s))%Z.

Definition reset (newBalance : number) (recordSession : bool) (now : Z)
    (s : PaperTrader) : PaperTrader :=
  let record := recordsSession recordSession s in
  {| cfg := cfg s;
     startingBalance := newBalance;
     balance := newBalance;
     store := store s;
     trades := [];
     positions := [];
     enabled := enabled s;
     startedAt := now;
     stats := initStats;
     sessionHistory :=
       if record then sessionHistory s ++ [closeSession now s]
       else sessionHistory s;
     lifetimeStats := if record then foldLifetime s else lifetimeStats s;
     lastTradeTime := None;
     currentMarketSlug := currentMarketSlug s;
     pendingSettlement := pendingSettlement s |}.

(** [balance < autoResetThreshold && positions.size === 0]. *)
Definition autoResetDue (s : PaperTrader) : bool :=
  Num.ltb (balance s) autoResetThreshold && (length (positions s) =? 0)%nat.

Definition checkAutoReset (now : Z) (s : PaperTrader) : PaperTrader * bool :=
  if autoResetDue s then (reset (startingBalance s) true now s, true)
  else (s, false).

(** *** Gates *)

(** The [reason] strings of a rejected trade. *)
Inductive Reason :=
| PaperTradingDisabled      (* "Paper trading disabled" *)
| SessionReset              (* "Session reset - waiting for next signal" *)
| BalanceTooLow             (* "Balance too low - waiting for positions to settle" *)
| Cooldown (seconds : Z)    (* `Cooldown: ${seconds}s` *)
| NoActionableSignal        (* "No actionable signal" *)
| EdgeBelowMin (edge : option number) (minPct : number)
                            (* `Edge ${edge}% below min ${minPct}%` *)
| SignalNotStrongEnough     (* "Signal not strong enough" *)
| TooLateInWindow           (* "Too late in window" *)
| InvalidPrice              (* "Invalid price" *)
| PositionSizeTooSmall      (* "Position size too small" *)
| InsufficientBalance.      (* "Insufficient balance" *)

(** [{ allowed: true }] or [{ allowed: false, reason }]. *)
Inductive CanTrade :=
| Allowed
| NotAllowed (reason : Reason).

(** The cooldown test of [canTrade]: [Some seconds] while the cooldown
    runs.  A [lastTradeTime] of [null] or [0] is falsy and skips it. *)
Definition cooldownLeft (now : Z) (s : PaperTrader) : option Z :=
  match lastTradeTime s with
  | Some last =>
      if (last =? 0)%Z then None
      else
        let elapsed := (now - last)%Z in
        if (elapsed <? cooldownMs (cfg s))%Z
        then Some (Qceiling (inject_Z (cooldownMs (cfg s) - elapsed) / 1000)%Q)
        else None
  | None => None
  end.

Definition canTrade (now : Z) (s : PaperTrader) : PaperTrader * CanTrade :=
  if negb (enabled s) then (s, NotAllowed PaperTradingDisabled)
  else
    let '(s1, didReset) := checkAutoReset now s in
    if didReset then (s1, NotAllowed SessionReset)
    else if Num.ltb (balance s1) autoResetThreshold
    then (s1, NotAllowed BalanceTooLow)
    else match cooldownLeft now s1 with
         | Some seconds => (s1, NotAllowed (Cooldown seconds))
         | None => (s1, Allowed)
         end.

(** *** Settlement *)

(** [currentPrice > priceToBeat ? "UP" : "DOWN"]. *)
Definition outcomeOf (currentPrice priceToBeat : number) : Side :=
  if Num.ltb priceToBeat currentPrice then UP else DOWN.

Definition won (outcome : Side) (t : Trade) : bool :=
  bool_decide (tr_side t = outcome).

(** [won ? trade.shares * 1.0 : 0]. *)
Definition payoutOf (outcome : Side) (t : Trade) : number :=
  if won outcome t then tr_shares t * 1.0 else 0.

Definition pnlOf (outcome : Side) (t : Trade) : number :=
  payoutOf outcome t - tr_cost t.

(** The field writes on the trade object inside the settlement loop. *)
Definition settleTrade (outcome : Side) (currentPrice : number) (now : Z)
    (t : Trade) : Trade :=
  {| tr_id := tr_id t; tr_timestamp := tr_timestamp t;
     tr_marketSlug := tr_marketSlug t; tr_side := tr_side t;
     tr_shares := tr_shares t; tr_entryPrice := tr_entryPrice t;
     tr_cost := tr_cost t; tr_priceToBeat := tr_priceToBeat t;
     tr_currentPrice := tr_currentPrice t; tr_edge := tr_edge t;
     tr_strength := tr_strength t; tr_phase := tr_phase t;
     tr_timeLeftMin := tr_timeLeftMin t;
     tr_status := SETTLED;
     tr_pnl := Some (pnlOf outcome t);
     tr_exitPrice := Some (if won outcome t then 1 else 0);
     tr_settledAt := Some now;
     tr_outcome := Some outcome;
     tr_finalPrice := Some currentPrice |}.

(** The "Update stats" block of [settlePositions]. *)
Definition settleStats (pnl : number) (st : Stats) : Stats :=
  if Num.ltb 0 pnl then
    let streak := (Z.max 0 (st_currentStreak st) + 1)%Z in
    {| st_totalTrades := st_totalTrades st + 1;
       st_wins := st_wins st + 1;
       st_losses := st_losses st;
       st_totalWon := st_totalWon st + pnl;
       st_totalLost := st_totalLost st;
       st_largestWin := Num.max (st_largestWin st) pnl;
       st_largestLoss := st_largestLoss st;
       st_currentStreak := streak;
       st_bestStreak := Z.max (st_bestStreak st) streak;
       st_worstStreak := st_worstStreak st |}
  else
    let streak := (Z.min 0 (st_currentStreak st) - 1)%Z in
    {| st_totalTrades := st_totalTrades st + 1;
       st_wins := st_wins st;
       st_losses := st_losses st + 1;
       st_totalWon := st_totalWon st;
       st_totalLost := st_totalLost st + Num.abs pnl;
       st_largestWin := st_largestWin st;
       st_largestLoss := Num.max (st_largestLoss st) (Num.abs pnl);
       st_currentStreak := streak;
       st_bestStreak := st_bestStreak st;
       st_worstStreak := Z.min (st_worstStreak st) streak |}.

(** One iteration of the settlement loop on the entry [(id, trade)]. *)
Definition settleEntry (outcome : Side) (currentPrice : number) (now : Z)
    (s : PaperTrader) (e : Z * nat) : PaperTrader :=
  match store s !! snd e with
  | Some t =>
      if bool_decide (tr_status t = OPEN) then
        set_positions (map_delete (fst e) (positions s))
          (set_stats (settleStats (pnlOf outcome t) (stats s))
             (set_balance (balance s + payoutOf outcome t)
                (set_store
                   (<[snd e := settleTrade outcome currentPrice now t]> (store s))
                   s)))
      else s
  | None => s
  end.

(** [settlePositions(finalData)].  The loop visits the entries the map held
    when it started; it deletes only the entry it is visiting. *)
Definition settlePositions (finalData : option Snapshot) (now : Z)
    (s : PaperTrader) : PaperTrader :=
  match finalData with
  | None => s
  | Some d =>
      if (length (positions s) =? 0)%nat then s
      else
        match prices_chainlink d, prices_priceToBeat d with
        | Some currentPrice, Some priceToBeat =>
            fold_left
              (settleEntry (outcomeOf currentPrice priceToBeat) currentPrice now)
              (positions s) s
        | _, _ => s
        end
  end.

(** The field writes of [forceSettle] on the trade object. *)
Definition forceSettleTrade (outcome : Side) (now : Z) (t : Trade) : Trade :=
  {| tr_id := tr_id t; tr_timestamp := tr_timestamp t;
     tr_marketSlug := tr_marketSlug t; tr_side := tr_side t;
     tr_shares := tr_shares t; tr_entryPrice := tr_entryPrice t;
     tr_cost := tr_cost t; tr_priceToBeat := tr_priceToBeat t;
     tr_currentPrice := tr_currentPrice t; tr_edge := tr_edge t;
     tr_strength := tr_strength t; tr_phase := tr_phase t;
     tr_timeLeftMin := tr_timeLeftMin t;
     tr_status := FORCE_SETTLED;
     tr_pnl := Some (pnlOf outcome t);
     tr_exitPrice := Some (if won outcome t then 1 else 0);
     tr_settledAt := Some now;
     tr_outcome := Some outcome;
     tr_finalPrice := tr_finalPrice t |}.

Definition forceSettleStats (pnl : number) (st : Stats) : Stats :=
  {| st_totalTrades := st_totalTrades st + 1;
     st_wins := if Num.ltb 0 pnl then st_wins st + 1 else st_wins st;
     st_losses := if Num.ltb 0 pnl then st_losses st else st_losses st + 1;
     st_totalWon := if Num.ltb 0 pnl then st_totalWon st + pnl else st_totalWon st;
     st_totalLost :=
       if Num.ltb 0 pnl then st_totalLost st else st_totalLost st + Num.abs pnl;
     st_largestWin := st_largestWin st;
     st_largestLoss := st_largestLoss st;
     st_currentStreak := st_currentStreak st;
     st_bestStreak := st_bestStreak st;
     st_worstStreak := st_worstStreak st |}.

Definition forceSettleEntry (outcome : Side) (now : Z)
    (s : PaperTrader) (e : Z * nat) : PaperTrader :=
  match store s !! snd e with
  | Some t =>
      if bool_decide (tr_status t = OPEN) then
        set_positions (map_delete (fst e) (positions s))
          (set_stats (forceSettleStats (pnlOf outcome t) (stats s))
             (set_balance (balance s + payoutOf outcome t)
                (set_store (<[snd e := forceSettleTrade outcome now t]> (store s))
                   s)))
      else s
  | None => s
  end.

(** [forceSettle(outcome)]. *)
Definition forceSettle (outcome : Side) (now : Z) (s : PaperTrader)
  : PaperTrader :=
  fold_left (forceSettleEntry outcome now) (positions s) s.

(** *** Entry *)

(** [{ traded: false, reason }] or [{ traded: true, trade, balance }]. *)
Inductive TradeResult :=
| NotTraded (reason : Reason)
| Traded (trade : Trade) (balance : number).

(** [signal.edge / 100]; [null / 100] is [0]. *)
Definition edgeValue (sg : Signal) : number :=
  match sig_edge sg with
  | Some e => e / 100
  | None => 0
  end.

(** [signal.side === "UP" ? polymarket.upPrice : polymarket.downPrice]. *)
Definition priceFor (side : Side) (data : Snapshot) : option number :=
  match side with
  | UP => polymarket_upPrice data
  | DOWN => polymarket_downPrice data
  end.

(** [!price || price <= 0 || price >= 1]. *)
Definition invalidPrice (price : option number) : bool :=
  match price with
  | Some p => Num.falsy p || Num.leb p 0 || Num.leb 1 p
  | None => true
  end.

(** [Math.min(edgeValue * 0.5, this.maxPositionPct)]. *)
Definition kellyFraction (c : Config) (sg : Signal) : number :=
  Num.min (edgeValue sg * 0.5) (maxPositionPct c).

(** [Math.min(balance * kellyFraction, balance * maxPositionPct)]. *)
Definition positionSize (s : PaperTrader) (sg : Signal) : number :=
  Num.min (balance s * kellyFraction (cfg s) sg)
       (balance s * maxPositionPct (cfg s)).

(** [Math.floor(positionSize / price)]. *)
Definition sharesFor (s : PaperTrader) (sg : Signal) (price : number)
  : number :=
  Num.floor (positionSize s sg / price).

(** The trade object literal. *)
Definition mkTrade (data : Snapshot) (now : Z) (side : Side)
    (shares price cost : number) : Trade :=
  {| tr_id := now;
     tr_timestamp := now;
     tr_marketSlug := market_slug data;
     tr_side := side;
     tr_shares := shares;
     tr_entryPrice := price;
     tr_cost := cost;
     tr_priceToBeat := prices_priceToBeat data;
     tr_currentPrice := prices_chainlink data;
     tr_edge := sig_edge (signal data);
     tr_strength := sig_strength (signal data);
     tr_phase := timing_phase data;
     tr_timeLeftMin := timing_timeLeftMin data;
     tr_status := OPEN;
     tr_pnl := None;
     tr_exitPrice := None;
     tr_settledAt := None;
     tr_outcome := None;
     tr_finalPrice := None |}.

(** "Execute paper trade": debit, stamp the cooldown, allocate the trade
    object and file it in [trades] and [positions]. *)
Definition execute (t : Trade) (now : Z) (s : PaperTrader) : PaperTrader :=
  let ref := length (store s) in
  set_positions (map_set (tr_id t) ref (positions s))
    (set_trades (trades s ++ [ref])
       (set_store (store s ++ [t])
          (set_lastTradeTime (Some now)
             (set_balance (balance s - tr_cost t) s)))).

(** The body of [evaluateAndTrade] after [canTrade] has allowed the trade:
    the signal gates, the sizing and the entry. *)
Definition enter (data : Snapshot) (now : Z) (s : PaperTrader)
  : PaperTrader * TradeResult :=
  let sg := signal data in
  match sig_side sg with
  | None => (s, NotTraded NoActionableSignal)
  | Some side =>
      if bool_decide (sig_action sg = HOLD)
      then (s, NotTraded NoActionableSignal)
      else if Num.ltb (edgeValue sg) (minEdge (cfg s))
      then (s, NotTraded (EdgeBelowMin (sig_edge sg) (minEdge (cfg s) * 100)))
      else if negb (bool_decide (sig_strength sg = Some STRONG))
              && negb (bool_decide (sig_strength sg = Some GOOD))
      then (s, NotTraded SignalNotStrongEnough)
      else if bool_decide (timing_phase data = LATE)
      then (s, NotTraded TooLateInWindow)
      else
        match priceFor side data with
        | None => (s, NotTraded InvalidPrice)
        | Some price =>
            if invalidPrice (Some price) then (s, NotTraded InvalidPrice)
            else
              let shares := sharesFor s sg price in
              if Num.ltb shares 1 || Num.ltb (positionSize s sg) 1
              then (s, NotTraded PositionSizeTooSmall)
              else
                let cost := shares * price in
                if Num.ltb (balance s) cost
                then (s, NotTraded InsufficientBalance)
                else
                  let t := mkTrade data now side shares price cost in
                  let s' := execute t now s in
                  (s', Traded t (balance s'))
        end
  end.

(** [currentMarketSlug && currentMarketSlug !== data.market.slug]. *)
Definition marketChanged (data : Snapshot) (s : PaperTrader) : bool :=
  truthy (currentMarketSlug s)
  && negb (bool_decide (currentMarketSlug s = Some (market_slug data))).

(** The first lines of [evaluateAndTrade]: settle on a market change, then
    remember the slug and the snapshot. *)
Definition observe (data : Snapshot) (now : Z) (s : PaperTrader) : PaperTrader :=
  track data
    (if marketChanged data s then settlePositions (pendingSettlement s) now s
     else s).

Definition evaluateAndTrade (data : Snapshot) (now : Z) (s : PaperTrader)
  : PaperTrader * TradeResult :=
  let s1 := observe data now s in
  match canTrade now s1 with
  | (s2, NotAllowed reason) => (s2, NotTraded reason)
  | (s2, Allowed) => enter data now s2
  end.

(** *** The gate sequence of the specification *)

(** The price the sizing reads, for any signal: a side other than "UP"
    selects [downPrice]. *)
Definition signalPrice (data : Snapshot) : option number :=
  match sig_side (signal data) with
  | Some side => priceFor side data
  | None => polymarket_downPrice data
  end.

Definition strongOrGood (sg : Signal) : bool :=
  bool_decide (sig_strength sg = Some STRONG)
  || bool_decide (sig_strength sg = Some GOOD).

Definition numberOr0 (x : option number) : number :=
  match x with Some v => v | None => 0 end.

Definition secondsOr0 (x : option Z) : Z :=
  match x with Some v => v | None => 0%Z end.

(** The ten gates in the order the specification lists them.  Each entry is
    the test that makes the gate fail, read on its own, and the reason the
    gate gives; [s] is the engine state once the snapshot has been observed. *)
Definition gates (data : Snapshot) (now : Z) (s : PaperTrader)
  : list (bool * Reason) :=
  let sg := signal data in
  let price := numberOr0 (signalPrice data) in
  [ (negb (enabled s), PaperTradingDisabled);
    (Num.ltb (balance s) autoResetThreshold,
     if (length (positions s) =? 0)%nat then SessionReset else BalanceTooLow);
    (bool_decide (is_Some (cooldownLeft now s)),
     Cooldown (secondsOr0 (cooldownLeft now s)));
    (bool_decide (sig_action sg = HOLD) || bool_decide (sig_side sg = None),
     NoActionableSignal);
    (Num.ltb (edgeValue sg) (minEdge (cfg s)),
     EdgeBelowMin (sig_edge sg) (minEdge (cfg s) * 100));
    (negb (strongOrGood sg), SignalNotStrongEnough);
    (bool_decide (timing_phase data = LATE), TooLateInWindow);
    (invalidPrice (signalPrice data), InvalidPrice);
    (Num.ltb (sharesFor s sg price) 1 || Num.ltb (positionSize s sg) 1,
     PositionSizeTooSmall);
    (Num.ltb (balance s) (sharesFor s sg price * price),
     InsufficientBalance) ].

(** The reason of the first gate that fails, reading the list in order. *)
Fixpoint firstFailure (gs : list (bool * Reason)) : option Reason :=
  match gs with
  | [] => None
  | (fails, reason) :: rest => if fails then Some reason else firstFailure rest
  end.

(** *** Status *)

(** [Array.from(this.positions.values()).filter(t => t.status === "OPEN")]. *)
Definition openPositions (s : PaperTrader) : list Trade :=
  filter (fun t => tr_status t = OPEN)
    (omap (fun e : Z * nat => store s !! snd e) (positions s)).

(** [openPositions.reduce((sum, t) => sum + t.cost, 0)]. *)
Definition openValue (s : PaperTrader) : number :=
  fold_left (fun sum t => sum + tr_cost t) (openPositions s) 0.

(** [l.slice(-n).reverse()]. *)
Definition lastReversed {A} (n : nat) (l : list A) : list A :=
  rev (drop (length l - n) l).

(** The status object, without its formatted ratio strings. *)
Record StatusReport := {
  rp_enabled : bool;
  rp_startingBalance : number;
  rp_currentBalance : number;
  rp_openPositionsValue : number;
  rp_totalValue : number;
  rp_pnl : number;
  rp_startedAt : Z;
  rp_currentSession : Z;
  rp_stats : Stats;
  rp_lifetimeStats : LifetimeStats;
  rp_netPnl : number;
  rp_sessionHistory : list Session;
  rp_openPositions : list Trade;
  rp_recentTrades : list Trade
}.

Definition report (s : PaperTrader) : StatusReport :=
  {| rp_enabled := enabled s;
     rp_startingBalance := startingBalance s;
     rp_currentBalance := balance s;
     rp_openPositionsValue := openValue s;
     rp_totalValue := balance s + openValue s;
     rp_pnl := (balance s + openValue s) - startingBalance s;
     rp_startedAt := startedAt s;
     rp_currentSession := Z.of_nat (length (sessionHistory s)) + 1;
     rp_stats := stats s;
     rp_lifetimeStats := lifetimeStats s;
     rp_netPnl := lt_totalWon (lifetimeStats s) - lt_totalLost (lifetimeStats s);
     rp_sessionHistory := lastReversed 10 (sessionHistory s);
     rp_openPositions := openPositions s;
     rp_recentTrades :=
       lastReversed 20 (omap (fun r : nat => store s !! r) (trades s)) |}.

Definition getStatus (now : Z) (s : PaperTrader) : PaperTrader * StatusReport :=
  let s1 := fst (checkAutoReset now s) in
  (s1, report s1).

(** *** Runs of the engine *)

(** The calls that enter and settle positions, the status query and the
    on/off switch. *)
Inductive Op :=
| OpEvaluate (data : Snapshot) (now : Z)
| OpSettle (finalData : option Snapshot) (now : Z)
| OpForceSettle (outcome : Side) (now : Z)
| OpStatus (now : Z)
| OpEnable
| OpDisable.

Definition step (s : PaperTrader) (op : Op) : PaperTrader :=
  match op with
  | OpEvaluate data now => fst (evaluateAndTrade data now s)
  | OpSettle finalData now => settlePositions finalData now s
  | OpForceSettle outcome now => forceSettle outcome now s
  | OpStatus now => fst (getStatus now s)
  | OpEnable => enable s
  | OpDisable => disable s
  end.

Definition run (ops : list Op) (s : PaperTrader) : PaperTrader :=
  fold_left step ops s.

(** *** Notions used by the theorems *)

(** The two settlement loops have one shape: [mark] is the write on the trade
    object and [tally] the update of the stats. *)
Definition closeEntry (mark : Trade -> Trade) (tally : number -> Stats -> Stats)
    (outcome : Side) (s : PaperTrader) (e : Z * nat) : PaperTrader :=
  match store s !! snd e with
  | Some t =>
      if bool_decide (tr_status t = OPEN) then
        set_positions (map_delete (fst e) (positions s))
          (set_stats (tally (pnlOf outcome t) (stats s))
             (set_balance (balance s + payoutOf outcome t)
                (set_store (<[snd e := mark t]> (store s)) s)))
      else s
  | None => s
  end.

(** The OPEN trades that the entries [m] refer to in the store [st]. *)
Definition openOf (st : list Trade) (m : list (Z * nat)) : list Trade :=
  filter (fun t => tr_status t = OPEN)
    (omap (fun e : Z * nat => st !! snd e) m).

(** [f] of each trade added to [start], one addition per trade in the order
    of the list: the shape of [balance += payout] in the settlement loops
    and of the [reduce] of the status report. *)
Definition addEach (f : Trade -> number) (l : list Trade) (start : number)
  : number :=
  fold_left (fun acc t => acc + f t) l start.

(** The shape the engine keeps its position map in: ids and trade objects
    are pairwise distinct and every reference points into the store.  An
    engine resumed from its file has it as well as a new one. *)
Definition wellFormed (s : PaperTrader) : Prop :=
  NoDup (fmap fst (positions s))
  /\ NoDup (fmap snd (positions s))
  /\ Forall (fun e => (snd e < length (store s))%nat) (positions s).

(** What keeps the ids distinct whatever the clock reads: the cooldown is
    positive and no id is later than the last trade time. *)
Definition stamped (s : PaperTrader) : Prop :=
  (0 < cooldownMs (cfg s))%Z
  /\ Forall (fun e => exists last,
                 lastTradeTime s = Some last /\ last <> 0%Z /\ (fst e <= last)%Z)
       (positions s).

(** An entry at clock [now] takes the id [now]: it is a new id when no held
    position has it. *)
Definition freshId (now : Z) (s : PaperTrader) : Prop :=
  now ∉ fmap fst (positions s).

(** The bounds of the safety claim: no balance is negative and no trade
    object has a negative share count, in the sense of the code's own [<]
    (a [NaN] is not below 0). *)
Definition safe (s : PaperTrader) : Prop :=
  Num.ltb (startingBalance s) 0 = false
  /\ Num.ltb (balance s) 0 = false
  /\ Forall (fun t => Num.ltb (tr_shares t) 0 = false) (store s).

(** The clock of an evaluation never reads the id of a position held when
    the evaluation runs. *)
Fixpoint freshClocks (ops : list Op) (s : PaperTrader) : Prop :=
  match ops with
  | [] => True
  | op :: rest =>
      match op with
      | OpEvaluate _ now => freshId now s
      | _ => True
      end
      /\ freshClocks rest (step s op)
  end.

(** The clock reading of a call that may enter a trade is not zero. *)
Definition clockOk (op : Op) : Prop :=
  match op with
  | OpEvaluate _ now => now <> 0%Z
  | _ => True
  end.

End Paper.

(** * Sample inputs *)

Module Samples.
Import Server.
Local Open Scope num_scope.

(** A pass with a known price and clock, no start time and no recommendation
    to enter. *)
Definition quietCycle (slug : string) (price : number) (now : Z) : CycleData :=
  {| cy_marketSlug := slug; cy_marketStartMs := None;
     cy_currentPrice := Some price; cy_nowMs := now;
     cy_timeLeftMin := 10; cy_marketUp := Some 0.5;
     cy_marketDown := Some 0.5; cy_edgeUp := Some 0; cy_edgeDown := Some 0;
     cy_rec := {| rec_enter := false; rec_side := None;
                  rec_strength := None; rec_phase := EARLY |} |}.

(** The same pass for a market that reports its start time. *)
Definition scheduledCycle (slug : string) (start : Z) (price : number) (now : Z)
  : CycleData :=
  {| cy_marketSlug := slug; cy_marketStartMs := Some start;
     cy_currentPrice := Some price; cy_nowMs := now;
     cy_timeLeftMin := 10; cy_marketUp := Some 0.5;
     cy_marketDown := Some 0.5; cy_edgeUp := Some 0; cy_edgeDown := Some 0;
     cy_rec := {| rec_enter := false; rec_side := None;
                  rec_strength := None; rec_phase := EARLY |} |}.

(** An engine whose session has run the balance down to 9.50 over three
    settled trades, with no position left open. *)
Definition spentStats : Paper.Stats :=
  {| Paper.st_totalTrades := 3; Paper.st_wins := 1; Paper.st_losses := 2;
     Paper.st_totalWon := 75; Paper.st_totalLost := 1065.5;
     Paper.st_largestWin := 75; Paper.st_largestLoss := 1000;
     Paper.st_currentStreak := -2; Paper.st_bestStreak := 1;
     Paper.st_worstStreak := -2 |}.

Definition spentTrader : Paper.PaperTrader :=
  Paper.set_stats spentStats
    (Paper.set_balance 9.5 (Paper.enable (Paper.paperTrader 0))).

(** An engine reset through the API to a starting balance of 5: no trade has
    been made in its session. *)
Definition tinyTrader : Paper.PaperTrader :=
  Paper.reset 5 true 100 (Paper.paperTrader 0).

(** A fresh engine with the default parameters, switched on. *)
Definition freshTrader : Paper.PaperTrader :=
  Paper.enable (Paper.paperTrader 0).

(** A STRONG signal to buy UP with an edge of 25 percent, in the MID phase,
    the UP token quoted at 0.40. *)
Definition buyUpSignal : Signal :=
  {| sig_action := BUY (Some UP); sig_side := Some UP;
     sig_strength := Some STRONG; sig_edge := Some 25 |}.

Definition entrySnapshot : Snapshot :=
  {| market_slug := "btc-updown-15m-1"; timing_timeLeftMin := 8;
     timing_phase := MID;
     prices_chainlink := Some 60010; prices_priceToBeat := Some 60000;
     prices_priceDelta := Some 10;
     polymarket_upPrice := Some 0.40;
     polymarket_downPrice := Some 0.60;
     edge_up := Some 25; edge_down := Some (-25);
     signal := buyUpSignal |}.

(** The last snapshot of that market: the price ends at 60123 against a
    price to beat of 60000. *)
Definition closingSnapshot : Snapshot :=
  {| market_slug := "btc-updown-15m-1"; timing_timeLeftMin := 0;
     timing_phase := LATE;
     prices_chainlink := Some 60123; prices_priceToBeat := Some 60000;
     prices_priceDelta := Some 123;
     polymarket_upPrice := Some 0.95;
     polymarket_downPrice := Some 0.05;
     edge_up := None; edge_down := None;
     signal := {| sig_action := HOLD; sig_side := None;
                  sig_strength := None; sig_edge := None |} |}.

(** The trade the fresh engine enters on [entrySnapshot] at clock 1000, and
    the engine holding it. *)
Definition heldTrade : Paper.Trade :=
  Paper.mkTrade entrySnapshot 1000 UP 125 0.40 (125 * 0.40).

Definition heldTrader : Paper.PaperTrader :=
  fst (Paper.evaluateAndTrade entrySnapshot 1000 freshTrader).

(** The same signal with the UP token quoted at 0.03, and forty seconds
    later at 0.08. *)
Definition quotedAt (up down : number) : Snapshot :=
  {| market_slug := "btc-updown-15m-1"; timing_timeLeftMin := 8;
     timing_phase := MID;
     prices_chainlink := Some 60010; prices_priceToBeat := Some 60000;
     prices_priceDelta := Some 10;
     polymarket_upPrice := Some up;
     polymarket_downPrice := Some down;
     edge_up := Some 25; edge_down := Some (-25);
     signal := buyUpSignal |}.

Definition cheapSnapshot : Snapshot := quotedAt 0.03 0.97.
Definition dearerSnapshot : Snapshot := quotedAt 0.08 0.92.

(** The fresh engine after its entry on [cheapSnapshot] at clock 1000. *)
Definition cheapTrader : Paper.PaperTrader :=
  fst (Paper.evaluateAndTrade cheapSnapshot 1000 freshTrader).

(** The trade that [cheapTrader] enters on [dearerSnapshot] at clock
    40000. *)
Definition dearerTrade : Paper.Trade :=
  Paper.mkTrade dearerSnapshot 40000 UP 593 0.08 (593 * 0.08).

(** An engine that may put its whole balance of 51 into one trade, and a
    STRONG signal with an edge of 200 percent on a token quoted at 0.17. *)
Definition allInTrader : Paper.PaperTrader :=
  Paper.enable
    (Paper.newPaperTrader
       {| Paper.opt_startingBalance := Some 51; Paper.opt_minEdge := None;
          Paper.opt_maxPositionPct := Some 1; Paper.opt_cooldownMs := None |}
       0).

(** An engine with a balance of 10.5 that puts at most a tenth of it into
    one trade. *)
Definition thinTrader : Paper.PaperTrader :=
  Paper.enable
    (Paper.newPaperTrader
       {| Paper.opt_startingBalance := Some 10.5; Paper.opt_minEdge := None;
          Paper.opt_maxPositionPct := Some 0.10;
          Paper.opt_cooldownMs := None |}
       0).

Definition doubleEdgeSnapshot : Snapshot :=
  {| market_slug := "btc-updown-15m-1"; timing_timeLeftMin := 8;
     timing_phase := MID;
     prices_chainlink := Some 60010; prices_priceToBeat := Some 60000;
     prices_priceDelta := Some 10;
     polymarket_upPrice := Some 0.17;
     polymarket_downPrice := Some 0.83;
     edge_up := Some 200; edge_down := Some (-200);
     signal := {| sig_action := BUY (Some UP); sig_side := Some UP;
                  sig_strength := Some STRONG; sig_edge := Some 200 |} |}.

End Samples.

(** ** The engine under every call of its API *)

Module Books.
Import Paper.
Local Open Scope num_scope.

(** [POST /api/paper/reset]: [paperTrader.reset(startingBalance || 500)]
    followed by [getStatus()]; [now] is the clock read by the reset, [later]
    the clock read by the status query. *)
Definition apiReset (startingBalance : option number) (now later : Z)
    (s : PaperTrader) : PaperTrader * StatusReport :=
  getStatus later (reset (orDefault startingBalance 500) true now s).

(** [POST /api/paper/settle]: [if (outcome) forceSettle(outcome)], then
    [getStatus()]. *)
Definition apiSettle (outcome : option Side) (now later : Z)
    (s : PaperTrader) : PaperTrader * StatusReport :=
  getStatus later
    (match outcome with
     | Some o => forceSettle o now s
     | None => s
     end).

(** A call on the engine: one of the calls of [Op], or one of the two
    handlers above. *)
Inductive Call :=
| Engine (op : Op)
| ApiReset (startingBalance : option number) (now later : Z)
| ApiSettle (outcome : option Side) (now later : Z).

Definition call (s : PaperTrader) (c : Call) : PaperTrader :=
  match c with
  | Engine op => step s op
  | ApiReset startingBalance now later =>
      fst (apiReset startingBalance now later s)
  | ApiSettle outcome now later => fst (apiSettle outcome now later s)
  end.

Definition calls (cs : list Call) (s : PaperTrader) : PaperTrader :=
  fold_left call cs s.

Definition callClockOk (c : Call) : Prop :=
  match c with
  | Engine op => clockOk op
  | _ => True
  end.

(** The counters of a session tell one story: every settled trade is a win
    or a loss, and the streaks stay between the worst and the best seen,
    which no run of wins or losses can exceed. *)
Definition countersAgree (st : Stats) : Prop :=
  (st_wins st + st_losses st = st_totalTrades st)%Z
  /\ (0 <= st_wins st)%Z /\ (0 <= st_losses st)%Z.

Definition streaksBounded (st : Stats) : Prop :=
  (st_worstStreak st <= st_currentStreak st <= st_bestStreak st)%Z
  /\ (- st_losses st <= st_worstStreak st <= 0)%Z
  /\ (0 <= st_bestStreak st <= st_wins st)%Z.

(** The sum of a counter over the recorded sessions. *)
Definition sumOver (f : Session -> Z) (h : list Session) : Z :=
  fold_right (fun x acc => (f x + acc)%Z) 0%Z h.

(** The history and the lifetime stats tell one story. *)
Definition lifetimeAgrees (s : PaperTrader) : Prop :=
  let l := lifetimeStats s in
  let h := sessionHistory s in
  lt_totalSessions l = Z.of_nat (length h)
  /\ (lt_sessionsWon l + lt_sessionsLost l = lt_totalSessions l)%Z
  /\ lt_totalTrades l = sumOver se_trades h
  /\ lt_totalWins l = sumOver se_wins h
  /\ lt_totalLosses l = sumOver se_losses h
  /\ fmap se_id h = fmap (fun i => Z.of_nat i + 1)%Z (seq 0 (length h))
  /\ Forall (fun x => (0 < se_trades x)%Z) h.

(** What the "Update stats" block of [settlePositions] makes of [totalWon]
    and of [totalLost] for a trade settled with [pnl]. *)
Definition bookWon (won pnl : number) : number :=
  if Num.ltb 0 pnl then won + pnl else won.

Definition bookLost (lost pnl : number) : number :=
  if Num.ltb 0 pnl then lost else lost + Num.abs pnl.

(** A call that starts a new session through the auto-reset: [reset]
    clears [lastTradeTime]. *)
Definition resets (s : PaperTrader) (op : Op) : bool :=
  match op with
  | OpEvaluate data now =>
      enabled (observe data now s) && autoResetDue (observe data now s)
  | OpStatus _ => autoResetDue s
  | _ => false
  end.

(** No call of the run starts a new session. *)
Fixpoint noReset (ops : list Op) (s : PaperTrader) : Prop :=
  match ops with
  | [] => True
  | op :: rest => resets s op = false /\ noReset rest (step s op)
  end.

(** The evaluations of the run read the clock less than [window] after
    [since]. *)
Definition within (since window : Z) (op : Op) : Prop :=
  match op with
  | OpEvaluate _ now => (now - since < window)%Z
  | _ => True
  end.

(** The results of the evaluations of a run, in order. *)
Fixpoint answers (ops : list Op) (s : PaperTrader) : list TradeResult :=
  match ops with
  | [] => []
  | op :: rest =>
      match op with
      | OpEvaluate data now => [snd (evaluateAndTrade data now s)]
      | _ => []
      end ++ answers rest (step s op)
  end.

Definition rejected (r : TradeResult) : Prop :=
  match r with
  | NotTraded _ => True
  | Traded _ _ => False
  end.

End Books.

(** ** Persistence of the paper engine *)

Module Persist.
Import Paper.
Local Open Scope num_scope.

(** The record [save()] writes and [loadData()] parses.  JSON holds values,
    not references: the trades and the position entries are written out as
    trade objects.  A field the constructor guards with [||] or [??] may be
    missing from the file.  A number is held as the double it is; JSON
    writes [NaN] and the infinities as [null] and -0 as 0, so what is
    written is what was held only for the states [writable] describes. *)
Record Saved := {
  sv_startingBalance : option number;
  sv_balance : number;
  sv_trades : option (list Trade);
  sv_positions : option (list (Z * Trade));
  sv_enabled : option bool;
  sv_startedAt : Z;
  sv_stats : option Stats;
  sv_sessionHistory : option (list Session);
  sv_lifetimeStats : option LifetimeStats
}.

(** [JSON.stringify(this.trades)]. *)
Definition ledger (s : PaperTrader) : list Trade :=
  omap (fun r : nat => store s !! r) (trades s).

(** [Array.from(this.positions.entries())], serialised. *)
Definition entries (s : PaperTrader) : list (Z * Trade) :=
  omap (fun e : Z * nat =>
          match store s !! snd e with
          | Some t => Some (fst e, t)
          | None => None
          end) (positions s).

(** The argument of [saveData] in [save()]. *)
Definition save (s : PaperTrader) : Saved :=
  {| sv_startingBalance := Some (startingBalance s);
     sv_balance := balance s;
     sv_trades := Some (ledger s);
     sv_positions := Some (entries s);
     sv_enabled := Some (enabled s);
     sv_startedAt := startedAt s;
     sv_stats := Some (stats s);
     sv_sessionHistory := Some (sessionHistory s);
     sv_lifetimeStats := Some (lifetimeStats s) |}.

Definition orEmpty {A} (x : option (list A)) : list A :=
  match x with Some l => l | None => [] end.

(** [new Map(entries)]: the entries are set one after the other; the trade
    object of the entry at offset [i] is allocated at [ref + i]. *)
Fixpoint loadEntries (ref : nat) (es : list (Z * Trade)) (m : list (Z * nat))
  : list (Z * nat) :=
  match es with
  | [] => m
  | e :: rest => loadEntries (S ref) rest (map_set (fst e) ref m)
  end.

(** The constructor on its resume path ([saved && !options.reset]).  The
    parsed trades come first in the store, the parsed position objects
    after them. *)
Definition resume (saved : Saved) (options : Options) : PaperTrader :=
  let ts := orEmpty (sv_trades saved) in
  let es := orEmpty (sv_positions saved) in
  {| cfg := {| minEdge := orDefault (opt_minEdge options) 0.10;
               maxPositionPct := orDefault (opt_maxPositionPct options) 0.05;
               cooldownMs := orDefaultZ (opt_cooldownMs options) 30000 |};
     startingBalance := orDefault (sv_startingBalance saved) 1000;
     balance := sv_balance saved;
     store := ts ++ fmap snd es;
     trades := seq 0 (length ts);
     positions := loadEntries (length ts) es [];
     enabled := match sv_enabled saved with Some b => b | None => false end;
     startedAt := sv_startedAt saved;
     stats := match sv_stats saved with Some st => st | None => initStats end;
     sessionHistory := orEmpty (sv_sessionHistory saved);
     lifetimeStats := match sv_lifetimeStats saved with
                      | Some l => l
                      | None => initLifetimeStats
                      end;
     lastTradeTime := None;
     currentMarketSlug := None;
     pendingSettlement := None |}.

(** [new PaperTrader(options)]: [loaded] is what [loadData()] returned,
    [None] for a missing or unreadable file. *)
Definition construct (loaded : option Saved) (optionsReset : bool)
    (options : Options) (now : Z) : PaperTrader :=
  match loaded with
  | Some saved =>
      if optionsReset then newPaperTrader options now
      else resume saved options
  | None => newPaperTrader options now
  end.

(** The numbers the file holds are written as they are when each is a
    number JSON can write. *)
Definition plainOpt (x : option number) : bool :=
  match x with Some v => Num.plain v | None => true end.

Definition plainTrade (t : Trade) : bool :=
  Num.plain (tr_shares t) && Num.plain (tr_entryPrice t)
  && Num.plain (tr_cost t) && plainOpt (tr_priceToBeat t)
  && plainOpt (tr_currentPrice t) && plainOpt (tr_edge t)
  && Num.plain (tr_timeLeftMin t) && plainOpt (tr_pnl t)
  && plainOpt (tr_exitPrice t) && plainOpt (tr_finalPrice t).

Definition plainStats (st : Stats) : bool :=
  Num.plain (st_totalWon st) && Num.plain (st_totalLost st)
  && Num.plain (st_largestWin st) && Num.plain (st_largestLoss st).

Definition plainLifetime (l : LifetimeStats) : bool :=
  Num.plain (lt_totalWon l) && Num.plain (lt_totalLost l).

Definition plainSession (x : Session) : bool :=
  Num.plain (se_startingBalance x) && Num.plain (se_endingBalance x)
  && Num.plain (se_pnl x) && Num.plain (se_pnlPct x).

(** Every number [save()] writes is written as it is. *)
Definition writable (s : PaperTrader) : bool :=
  Num.plain (startingBalance s) && Num.plain (balance s)
  && forallb plainTrade (ledger s)
  && forallb (fun e => plainTrade (snd e)) (entries s)
  && plainStats (stats s)
  && forallb plainSession (sessionHistory s)
  && plainLifetime (lifetimeStats s).

(** The first [n] objects of the store are out of reach of the position
    map. *)
Definition frozen (n : nat) (s : PaperTrader) : Prop :=
  (n <= length (store s))%nat
  /\ Forall (fun e => (n <= snd e)%nat) (positions s).

End Persist.

(** ** The live risk controller ([AutoTrader]) *)

Module Auto.
Local Open Scope num_scope.

(** [market.tokens] of the snapshot, carried beside it: [null] when the
    market lookup was not ok. *)
Record Tokens := {
  upTokenId : string;
  downTokenId : string
}.

(** An entry of [this.positions]. *)
Record Holding := {
  ho_side : Side;
  ho_shares : number;
  ho_entryPrice : number;
  ho_timestamp : Z
}.

Record AutoTrader := {
  enabled : bool;
  maxPositionSize : number;
  minEdge : number;
  maxDailyLoss : number;
  dailyPnL : number;
  lastTradeTime : option Z;
  cooldownMs : Z;
  positions : list (string * Holding)   (* Map tokenId -> holding *)
}.

Record Options := {
  opt_maxPositionSize : option number;
  opt_minEdge : option number;
  opt_maxDailyLoss : option number;
  opt_cooldownMs : option Z
}.

Definition newAutoTrader (options : Options) : AutoTrader :=
  {| enabled := false;
     maxPositionSize := Paper.orDefault (opt_maxPositionSize options) 10;
     minEdge := Paper.orDefault (opt_minEdge options) 0.10;
     maxDailyLoss := Paper.orDefault (opt_maxDailyLoss options) 50;
     dailyPnL := 0;
     lastTradeTime := None;
     cooldownMs := Paper.orDefaultZ (opt_cooldownMs options) 60000;
     positions := [] |}.

(** [export const autoTrader = new AutoTrader()]. *)
Definition autoTrader : AutoTrader :=
  newAutoTrader {| opt_maxPositionSize := None; opt_minEdge := None;
                   opt_maxDailyLoss := None; opt_cooldownMs := None |}.

Definition enable (a : AutoTrader) : AutoTrader :=
  {| enabled := true; maxPositionSize := maxPositionSize a;
     minEdge := minEdge a; maxDailyLoss := maxDailyLoss a;
     dailyPnL := dailyPnL a; lastTradeTime := lastTradeTime a;
     cooldownMs := cooldownMs a; positions := positions a |}.

Definition disable (a : AutoTrader) : AutoTrader :=
  {| enabled := false; maxPositionSize := maxPositionSize a;
     minEdge := minEdge a; maxDailyLoss := maxDailyLoss a;
     dailyPnL := dailyPnL a; lastTradeTime := lastTradeTime a;
     cooldownMs := cooldownMs a; positions := positions a |}.

(** The body of [POST /api/trader/auto/config]: a field that is not
    [undefined] is assigned as it is. *)
Record ConfigPatch := {
  cp_maxPositionSize : option number;
  cp_minEdge : option number;
  cp_maxDailyLoss : option number;
  cp_cooldownMs : option Z
}.

Definition orKeep {A} (x : option A) (old : A) : A :=
  match x with Some v => v | None => old end.

Definition configure (c : ConfigPatch) (a : AutoTrader) : AutoTrader :=
  {| enabled := enabled a;
     maxPositionSize := orKeep (cp_maxPositionSize c) (maxPositionSize a);
     minEdge := orKeep (cp_minEdge c) (minEdge a);
     maxDailyLoss := orKeep (cp_maxDailyLoss c) (maxDailyLoss a);
     dailyPnL := dailyPnL a;
     lastTradeTime := lastTradeTime a;
     cooldownMs := orKeep (cp_cooldownMs c) (cooldownMs a);
     positions := positions a |}.

Inductive Reason :=
| AutoTradingDisabled     (* "Auto-trading disabled" *)
| TraderNotInitialized    (* "Trader not initialized" *)
| DailyLossLimit          (* "Daily loss limit reached" *)
| Cooldown (seconds : Z)  (* `Cooldown: ${seconds}s remaining` *)
| NoActionableSignal      (* "No actionable signal" *)
| EdgeBelowMin (edge minPct : number)
                          (* `Edge ${edge}% below minimum ${minPct}%` *)
| OnlyStrong              (* "Only STRONG signals are auto-traded" *)
| MissingTokenId          (* "Missing token ID" *)
| InvalidMarketPrice      (* "Invalid market price" *)
| PositionTooSmall        (* "Calculated position too small" *)
| OrderFailed (error : string).  (* [result.error] *)

Definition cooldownLeft (now : Z) (a : AutoTrader) : option Z :=
  match lastTradeTime a with
  | Some last =>
      if (last =? 0)%Z then None
      else
        let elapsed := (now - last)%Z in
        if (elapsed <? cooldownMs a)%Z
        then Some (Qceiling (inject_Z (cooldownMs a - elapsed) / 1000)%Q)
        else None
  | None => None
  end.

(** [canTrade()]; [ready] is [isTraderReady()], [None] is
    [{ allowed: true }]. *)
Definition canTrade (ready : bool) (now : Z) (a : AutoTrader) : option Reason :=
  if negb (enabled a) then Some AutoTradingDisabled
  else if negb ready then Some TraderNotInitialized
  else if Num.leb (dailyPnL a) (- maxDailyLoss a) then Some DailyLossLimit
  else match cooldownLeft now a with
       | Some seconds => Some (Cooldown seconds)
       | None => None
       end.

(** What [placeBuyOrder] resolved to. *)
Inductive OrderResult :=
| Placed (orderId : string)
| Failed (error : string).

(** How a call of [evaluateAndTrade] ends.  Building the edge reason calls
    [signal.edge.toFixed] without a guard and throws on a [null] edge. *)
Inductive Result :=
| NotTraded (reason : Reason)
| Traded (side : Side) (shares price : number) (orderId : string)
| Throws.

(** [signal.side === "UP" ? market.tokens?.upTokenId
                          : market.tokens?.downTokenId], [None] when it is
    missing or empty. *)
Definition tokenFor (side : Side) (tokens : option Tokens) : option string :=
  match tokens with
  | Some tk =>
      let id := match side with UP => upTokenId tk | DOWN => downTokenId tk end in
      if bool_decide (id = ""%string) then None else Some id
  | None => None
  end.

(** [signal.edge / 100]; [null / 100] is 0. *)
Definition edgeValue (sg : Signal) : number :=
  match sig_edge sg with
  | Some e => e / 100
  | None => 0
  end.

(** [Math.min(edgeValue / 2, 0.1)]. *)
Definition kellyFraction (sg : Signal) : number :=
  Num.min (edgeValue sg / 2) 0.10.

(** [Math.min(Math.floor(maxPositionSize * kellyFraction * 10),
              maxPositionSize)]. *)
Definition sharesFor (a : AutoTrader) (sg : Signal) : number :=
  Num.min (Num.floor (maxPositionSize a * kellyFraction sg * 10))
       (maxPositionSize a).

(** [Map.prototype.set] on the holdings. *)
Fixpoint hold (tokenId : string) (h : Holding) (m : list (string * Holding))
  : list (string * Holding) :=
  match m with
  | [] => [(tokenId, h)]
  | (k, v) :: rest =>
      if bool_decide (k = tokenId) then (k, h) :: rest
      else (k, v) :: hold tokenId h rest
  end.

(** [Map.prototype.get]. *)
Fixpoint holding (tokenId : string) (m : list (string * Holding))
  : option Holding :=
  match m with
  | [] => None
  | (k, v) :: rest =>
      if bool_decide (k = tokenId) then Some v else holding tokenId rest
  end.

(** The writes after a successful order; [later] is the clock once the
    order has resolved. *)
Definition record (tokenId : string) (h : Holding) (later : Z)
    (a : AutoTrader) : AutoTrader :=
  {| enabled := enabled a; maxPositionSize := maxPositionSize a;
     minEdge := minEdge a; maxDailyLoss := maxDailyLoss a;
     dailyPnL := dailyPnL a; lastTradeTime := Some later;
     cooldownMs := cooldownMs a;
     positions := hold tokenId h (positions a) |}.

(** [evaluateAndTrade(data)].  [now] is the clock in [canTrade], [order]
    what [placeBuyOrder] resolves to if the call gets that far, [later] the
    clock after it. *)
Definition evaluateAndTrade (data : Snapshot) (tokens : option Tokens)
    (ready : bool) (now : Z) (order : OrderResult) (later : Z)
    (a : AutoTrader) : AutoTrader * Result :=
  match canTrade ready now a with
  | Some reason => (a, NotTraded reason)
  | None =>
      let sg := signal data in
      match sig_side sg with
      | None => (a, NotTraded NoActionableSignal)
      | Some side =>
          if bool_decide (sig_action sg = HOLD)
          then (a, NotTraded NoActionableSignal)
          else if Num.ltb (edgeValue sg) (minEdge a)
          then match sig_edge sg with
               | Some e => (a, NotTraded (EdgeBelowMin e (minEdge a * 100)))
               | None => (a, Throws)
               end
          else if negb (bool_decide (sig_strength sg = Some STRONG))
          then (a, NotTraded OnlyStrong)
          else
            match tokenFor side tokens with
            | None => (a, NotTraded MissingTokenId)
            | Some tokenId =>
                match Paper.priceFor side data with
                | None => (a, NotTraded InvalidMarketPrice)
                | Some price =>
                    if Num.falsy price || Num.leb price 0
                    then (a, NotTraded InvalidMarketPrice)
                    else
                      let shares := sharesFor a sg in
                      if Num.ltb shares 1
                      then (a, NotTraded PositionTooSmall)
                      else
                        match order with
                        | Placed orderId =>
                            (record tokenId
                               {| ho_side := side; ho_shares := shares;
                                  ho_entryPrice := price;
                                  ho_timestamp := later |} later a,
                             Traded side shares price orderId)
                        | Failed error => (a, NotTraded (OrderFailed error))
                        end
                end
            end
      end
  end.

(** The calls on the controller. *)
Inductive Op :=
| OpEnable
| OpDisable
| OpConfigure (c : ConfigPatch)
| OpEvaluate (data : Snapshot) (tokens : option Tokens) (ready : bool)
    (now : Z) (order : OrderResult) (later : Z).

Definition step (a : AutoTrader) (op : Op) : AutoTrader :=
  match op with
  | OpEnable => enable a
  | OpDisable => disable a
  | OpConfigure c => configure c a
  | OpEvaluate data tokens ready now order later =>
      fst (evaluateAndTrade data tokens ready now order later a)
  end.

Definition run (ops : list Op) (a : AutoTrader) : AutoTrader :=
  fold_left step ops a.

(** The calls that only switch the controller on or off. *)
Definition toggles (op : Op) : Prop :=
  match op with
  | OpEnable | OpDisable => True
  | _ => False
  end.

(** A configuration call that leaves the daily loss limit positive. *)
Definition keepsLossLimit (op : Op) : Prop :=
  match op with
  | OpConfigure c =>
      match cp_maxDailyLoss c with
      | Some limit => 0 < limit
      | None => True
      end
  | _ => True
  end.

End Auto.

(** ** The data loop ([startDataLoop]) *)

Module Loop.
Local Open Scope num_scope.

(** The module state the loop works on.  [tokens] is [market.tokens] of
    [latestData], kept beside the snapshot. *)
Record State := {
  server : Server.State;
  tokens : option Auto.Tokens;
  auto : Auto.AutoTrader;
  paper : Paper.PaperTrader
}.

(** What one turn of the loop meets: how the pass of [updateData] ends, the
    token ids of that pass ([poly.ok ? poly.tokens : null]), and what the two
    traders read from the world if they are called. *)
Record Tick := {
  tk_cycle : Server.Cycle;
  tk_tokens : option Auto.Tokens;
  tk_ready : bool;                 (* isTraderReady() *)
  tk_autoNow : Z;                  (* Date.now() in autoTrader.canTrade *)
  tk_order : Auto.OrderResult;     (* what placeBuyOrder resolves to *)
  tk_autoLater : Z;                (* Date.now() after the order *)
  tk_paperNow : Z                  (* Date.now() in the paper trader *)
}.

(** The results of the two traders in one turn, [None] when the trader was
    not called. *)
Record Outcome := {
  out_auto : option Auto.Result;
  out_paper : option Paper.TradeResult
}.

(** One turn of [while (true)]: [updateData], then each trader on
    [latestData] if there is one and the trader is enabled.  An exception of
    a trader is caught and logged. *)
Definition iterate (tk : Tick) (st : State) : State * Outcome :=
  let sv := Server.updateData (tk_cycle tk) (server st) in
  let toks := if Server.completes (tk_cycle tk) then tk_tokens tk
              else tokens st in
  let ra :=
    match Server.latestData sv with
    | Some d =>
        if Auto.enabled (auto st)
        then Some (Auto.evaluateAndTrade d toks (tk_ready tk) (tk_autoNow tk)
                     (tk_order tk) (tk_autoLater tk) (auto st))
        else None
    | None => None
    end in
  let rp :=
    match Server.latestData sv with
    | Some d =>
        if Paper.isEnabled (paper st)
        then Some (Paper.evaluateAndTrade d (tk_paperNow tk) (paper st))
        else None
    | None => None
    end in
  ({| server := sv;
      tokens := toks;
      auto := match ra with Some r => fst r | None => auto st end;
      paper := match rp with Some r => fst r | None => paper st end |},
   {| out_auto := option_map snd ra; out_paper := option_map snd rp |}).

(** The turns of the loop in the order they run. *)
Definition run (ticks : list Tick) (st : State) : State :=
  fold_left (fun s tk => fst (iterate tk s)) ticks st.

(** The market price of a side in a pass. *)
Definition marketPrice (side : Side) (c : Server.CycleData) : option number :=
  match side with
  | UP => Server.cy_marketUp c
  | DOWN => Server.cy_marketDown c
  end.

End Loop.

(** * Sample sessions *)

Module Scenarios.
Import Samples.
Local Open Scope num_scope.

(** The first snapshot of the next market: a STRONG signal to buy DOWN with
    an edge of 30 percent, the DOWN token quoted at 0.45. *)
Definition nextSnapshot : Snapshot :=
  {| market_slug := "btc-updown-15m-2"; timing_timeLeftMin := 12;
     timing_phase := EARLY;
     prices_chainlink := Some 60130; prices_priceToBeat := Some 60123;
     prices_priceDelta := Some 7;
     polymarket_upPrice := Some 0.55;
     polymarket_downPrice := Some 0.45;
     edge_up := Some (-30); edge_down := Some 30;
     signal := {| sig_action := BUY (Some DOWN); sig_side := Some DOWN;
                  sig_strength := Some STRONG; sig_edge := Some 30 |} |}.

(** Two sessions: an entry, the last snapshot of its market, the first
    snapshot of the next market (which settles the entry as a win and enters
    again), a reset to 200 through the API, an entry of the new session, its
    forced settlement as a loss through the API and a status query. *)
Definition sessionCalls : list Books.Call :=
  [ Books.Engine (Paper.OpEvaluate entrySnapshot 1000);
    Books.Engine (Paper.OpEvaluate closingSnapshot 800000);
    Books.Engine (Paper.OpEvaluate nextSnapshot 950000);
    Books.ApiReset (Some 200) 960000 960001;
    Books.Engine (Paper.OpEvaluate entrySnapshot 1000000);
    Books.ApiSettle (Some DOWN) 1100000 1100002;
    Books.Engine (Paper.OpStatus 1200000) ].

(** After a restart: a forced settlement through the API and a status
    query. *)
Definition restartCalls : list Books.Call :=
  [ Books.ApiSettle (Some UP) 5000 5001; Books.Engine (Paper.OpStatus 6000) ].

(** What happens between two evaluations inside the cooldown. *)
Definition quietOps : list Paper.Op :=
  [ Paper.OpSettle (Some closingSnapshot) 5000; Paper.OpDisable;
    Paper.OpEnable ].

(** Calls inside the cooldown of [heldTrade], two evaluations among
    them. *)
Definition busyOps : list Paper.Op :=
  [ Paper.OpSettle (Some closingSnapshot) 5000;
    Paper.OpEvaluate nextSnapshot 20000; Paper.OpStatus 25000;
    Paper.OpDisable; Paper.OpEnable;
    Paper.OpEvaluate entrySnapshot 30999 ].

Definition noOptions : Paper.Options :=
  {| Paper.opt_startingBalance := None; Paper.opt_minEdge := None;
     Paper.opt_maxPositionPct := None; Paper.opt_cooldownMs := None |}.

(** The file written by the engine that holds [heldTrade]. *)
Definition savedBooks : Persist.Saved := Persist.save heldTrader.

(** The live controller with its defaults, switched on, and the token ids of
    a market. *)
Definition liveTrader : Auto.AutoTrader := Auto.enable Auto.autoTrader.

Definition liveTokens : Auto.Tokens :=
  {| Auto.upTokenId := "token-up"; Auto.downTokenId := "token-down" |}.

(** A day of the controller: switched on, a new loss limit, a filled order,
    a rejected evaluation, off and on again. *)
Definition liveOps : list Auto.Op :=
  [ Auto.OpEnable;
    Auto.OpConfigure {| Auto.cp_maxPositionSize := None;
                        Auto.cp_minEdge := None;
                        Auto.cp_maxDailyLoss := Some 20;
                        Auto.cp_cooldownMs := None |};
    Auto.OpEvaluate entrySnapshot (Some liveTokens) true 1000
      (Auto.Placed "order-1") 1200;
    Auto.OpEvaluate closingSnapshot (Some liveTokens) true 90000
      (Auto.Failed "rejected") 90100;
    Auto.OpDisable; Auto.OpEnable ].

(** A pass that recommends to enter UP with strength STRONG in the MID
    phase, the UP token at 0.40 with an edge of 25 percent. *)
Definition enterCycle : Server.CycleData :=
  {| Server.cy_marketSlug := "btc-updown-15m-1";
     Server.cy_marketStartMs := None;
     Server.cy_currentPrice := Some 60010; Server.cy_nowMs := 2000;
     Server.cy_timeLeftMin := 8;
     Server.cy_marketUp := Some 0.40;
     Server.cy_marketDown := Some 0.60;
     Server.cy_edgeUp := Some 0.25;
     Server.cy_edgeDown := Some (- 0.25);
     Server.cy_rec := {| Server.rec_enter := true;
                         Server.rec_side := Some UP;
                         Server.rec_strength := Some STRONG;
                         Server.rec_phase := MID |} |}.

(** The loop starts with no snapshot, the live controller switched on and
    the paper engine holding [heldTrade] since clock 1000. *)
Definition loopStart : Loop.State :=
  {| Loop.server := Server.initial; Loop.tokens := None;
     Loop.auto := liveTrader; Loop.paper := heldTrader |}.

(** The pass completes while the trader is not ready and the paper engine is
    in its cooldown. *)
Definition completedTurn : Loop.Tick :=
  {| Loop.tk_cycle := Server.Completes enterCycle;
     Loop.tk_tokens := Some liveTokens;
     Loop.tk_ready := false; Loop.tk_autoNow := 2000;
     Loop.tk_order := Auto.Failed "not sent"; Loop.tk_autoLater := 2100;
     Loop.tk_paperNow := 2200 |}.

(** Forty seconds later the pass fails at the fetch; both traders are free
    to act. *)
Definition failedTurn : Loop.Tick :=
  {| Loop.tk_cycle := Server.ThrowsBeforeLatch;
     Loop.tk_tokens := None;
     Loop.tk_ready := true; Loop.tk_autoNow := 40000;
     Loop.tk_order := Auto.Placed "order-7"; Loop.tk_autoLater := 40300;
     Loop.tk_paperNow := 40400 |}.

(** The trade the paper engine enters in [failedTurn]. *)
Definition staleTrade : Paper.Trade :=
  Paper.mkTrade
    (Server.buildSnapshot enterCycle
       (Server.updateLatch enterCycle (Server.priceToBeatState Server.initial)))
    40400 UP 118 0.40 (118 * 0.40).

End Scenarios.

(** * Theorems *)

Import Samples.

(** ** Facts about doubles *)

Section NumFacts.
Local Open Scope num_scope.

Lemma ltb_lt (x y : number) : Num.ltb x y = true <-> x < y.
Proof. reflexivity. Qed.

Lemma ltb_not_lt (x y : number) : Num.ltb x y = false <-> ~ x < y.
Proof. unfold Num.lt. destruct (Num.ltb x y); split; congruence. Qed.

Lemma ltb_zero (x : number) : Num.ltb x 0 = Num.negative x.
Proof. destruct x as [s|s| |s m e]; try destruct s; reflexivity. Qed.

(** Rounding keeps the sign it is given. *)
Lemma round_aux_sign (s : bool) (m e : Z) (l : location) :
  Num.negative (binary_round_aux Num.prec Num.emax s m e l) = true -> s = true.
Proof.
  unfold binary_round_aux.
  destruct (shr_fexp Num.prec Num.emax m e l) as [mrs' e'].
  destruct (shr_fexp Num.prec Num.emax _ e' loc_Exact) as [mrs'' e''].
  destruct (shr_m mrs'') as [|p|p]; cbn.
  - destruct s; [reflexivity | discriminate].
  - destruct (e'' <=? Num.emax - Num.prec)%Z; destruct s;
      (reflexivity || discriminate).
  - discriminate.
Qed.

Lemma round_sign (s : bool) (m : positive) (e : Z) :
  Num.negative (binary_round Num.prec Num.emax s m e) = true -> s = true.
Proof.
  unfold binary_round.
  destruct (shl_align m e _) as [mz ez]. apply round_aux_sign.
Qed.

(** The double of a non-negative integer quantity is not below 0. *)
Lemma normalize_not_negative (z e : Z) :
  (0 <= z)%Z ->
  Num.negative (binary_normalize Num.prec Num.emax z e false) = false.
Proof.
  intros Hz. destruct z as [|p|p]; cbn [binary_normalize].
  - reflexivity.
  - destruct (Num.negative _) eqn:Hneg; [|reflexivity].
    apply round_sign in Hneg. discriminate.
  - lia.
Qed.

(** What the cost gate leaves: when [x < y] is false, [x - y] is not below
    0. *)
Lemma sub_not_negative (x y : number) :
  Num.ltb x y = false -> Num.ltb (x - y) 0 = false.
Proof.
  rewrite ltb_zero.
  destruct x as [sx|sx| |sx mx ex], y as [sy|sy| |sy my ey];
    try (repeat match goal with s : bool |- _ => destruct s end;
         cbn; first [reflexivity | discriminate]).
  unfold Num.ltb, Num.compare, Num.sub, SFsub, Num.aligned.
  set (a := cond_Zopp sx _). set (b := cond_Zopp sy _).
  intros Hcmp. apply normalize_not_negative.
  destruct (Z.compare_spec a b); try discriminate; lia.
Qed.

(** Adding two numbers that are not below 0 gives a number that is not
    below 0. *)
Lemma add_not_negative (x y : number) :
  Num.ltb x 0 = false -> Num.ltb y 0 = false -> Num.ltb (x + y) 0 = false.
Proof.
  rewrite !ltb_zero.
  destruct x as [sx|sx| |sx mx ex], y as [sy|sy| |sy my ey];
    try (repeat match goal with s : bool |- _ => destruct s end;
         cbn; first [reflexivity | discriminate]).
  destruct sx, sy; try (cbn; discriminate).
  intros _ _. unfold Num.add, SFadd. cbn [cond_Zopp].
  apply normalize_not_negative. lia.
Qed.

(** So does multiplying them. *)
Lemma mul_not_negative (x y : number) :
  Num.ltb x 0 = false -> Num.ltb y 0 = false -> Num.ltb (x * y) 0 = false.
Proof.
  rewrite !ltb_zero.
  destruct x as [sx|sx| |sx mx ex], y as [sy|sy| |sy my ey];
    try (repeat match goal with s : bool |- _ => destruct s end;
         cbn; first [reflexivity | discriminate]).
  destruct sx, sy; try (cbn; discriminate).
  intros _ _. unfold Num.mul, SFmul. cbn [xorb].
  destruct (Num.negative _) eqn:Hneg; [|reflexivity].
  apply round_aux_sign in Hneg. discriminate.
Qed.

(** A number that is not below 1 is not below 0. *)
Lemma not_below_one (x : number) :
  Num.ltb x 1 = false -> Num.ltb x 0 = false.
Proof.
  rewrite ltb_zero.
  destruct x as [s|s| |s m e];
    repeat match goal with s : bool |- _ => destruct s end;
    cbn; first [reflexivity | discriminate].
Qed.

Lemma compare_refl (x : number) :
  x <> S754_nan -> Num.compare x x = Some Eq.
Proof.
  destruct x as [s|s| |s m e]; try destruct s; cbn [Num.compare];
    try reflexivity; try congruence;
    intros _; rewrite Z.compare_refl; reflexivity.
Qed.

Lemma compare_antisym (x y : number) :
  Num.compare y x = option_map CompOpp (Num.compare x y).
Proof.
  destruct x as [sx|sx| |sx mx ex], y as [sy|sy| |sy my ey];
    try (repeat match goal with s : bool |- _ => destruct s end;
         reflexivity).
  cbn [Num.compare option_map].
  rewrite (Z.min_comm ey ex), Z.compare_antisym. reflexivity.
Qed.

(** [Math.min(x, y)] is never above [y]. *)
Lemma min_not_above (x y : number) : Num.ltb y (Num.min x y) = false.
Proof.
  unfold Num.min, Num.ltb.
  destruct (Num.compare x y) as [[| |]|] eqn:Hxy.
  - assert (Hyx : Num.compare y x = Some Eq)
      by (rewrite compare_antisym, Hxy; reflexivity).
    destruct y as [[|]|sy| |sy my ey]; try (rewrite Hyx; reflexivity);
      reflexivity.
  - rewrite compare_antisym, Hxy. reflexivity.
  - rewrite compare_refl; [reflexivity|].
    intros ->. destruct x; discriminate.
  - destruct y; reflexivity.
Qed.

Lemma compare_none (x y : number) :
  Num.compare x y = None -> x = S754_nan \/ y = S754_nan.
Proof.
  destruct x as [sx|sx| |sx mx ex], y as [sy|sy| |sy my ey];
    try (repeat match goal with s : bool |- _ => destruct s end;
         cbn; first [discriminate | auto]).
Qed.

(** For numbers, [x <= y] false means [y < x]. *)
Lemma lt_when_not_leb (x y : number) :
  x <> S754_nan -> y <> S754_nan -> Num.leb x y = false -> y < x.
Proof.
  intros Hx Hy. unfold Num.leb, Num.lt, Num.ltb.
  rewrite (compare_antisym x y).
  destruct (Num.compare x y) as [[| |]|] eqn:Hc; try discriminate.
  - reflexivity.
  - intros _. apply compare_none in Hc as [-> | ->]; contradiction.
Qed.

Lemma falsy_nan (x : number) : Num.falsy x = false -> x <> S754_nan.
Proof. intros H ->. discriminate. Qed.

(** Under a positive limit [0 <= -limit] is false. *)
Lemma zero_above_opp (limit : number) :
  0 < limit -> Num.leb 0 (- limit) = false.
Proof.
  unfold Num.lt, Num.ltb, Num.leb, Num.opp.
  destruct limit as [s|s| |s m e]; try destruct s; cbn; try reflexivity;
    discriminate.
Qed.

End NumFacts.

(** Case analysis on a comparison of the code. *)
Ltac case_ltb x y :=
  let H := fresh "Hcmp" in
  destruct (Num.ltb x y) eqn:H.
(** ** Comparisons on rationals *)

Local Open Scope Q_scope.

Lemma Qltb_lt (x y : Q) : Qltb x y = true <-> x < y.
Proof.
  unfold Qltb. rewrite negb_true_iff, <- not_true_iff_false, Qle_bool_iff.
  split; [apply Qnot_le_lt | apply Qlt_not_le].
Qed.

Lemma Qltb_ge (x y : Q) : Qltb x y = false <-> y <= x.
Proof.
  unfold Qltb. rewrite negb_false_iff. apply Qle_bool_iff.
Qed.

Lemma Qeq_bool_false (x y : Q) : Qeq_bool x y = false <-> ~ x == y.
Proof.
  rewrite <- not_true_iff_false, Qeq_bool_iff. tauto.
Qed.

(** Case analysis on a boolean comparison, leaving the order fact behind. *)
Ltac case_Qltb x y :=
  let H := fresh "Hcmp" in
  destruct (Qltb x y) eqn:H;
  [apply Qltb_lt in H | apply Qltb_ge in H].

(** ** The crossing counter *)

Section CrossesFacts.
Import Crosses.

(** The difference the loop reads at an index is the entry of the zipped
    difference series. *)
Lemma diffAt_zip (closes vwapSeries : list Q) (i : nat) :
  diffAt closes vwapSeries i = zip_with Qminus closes vwapSeries !! i.
Proof.
  unfold diffAt. rewrite lookup_zip_with.
  destruct (closes !! i), (vwapSeries !! i); reflexivity.
Qed.

(** One unfolding of [crossesOf] along [drop]. *)
Lemma crossesOf_drop (closes vwapSeries : list Q) (i : nat) :
  (S i < length (zip_with Qminus closes vwapSeries))%nat ->
  crossesOf (drop i (zip_with Qminus closes vwapSeries))
  = ((if crossAt closes vwapSeries (S i) then 1 else 0)
     + crossesOf (drop (S i) (zip_with Qminus closes vwapSeries)))%nat.
Proof.
  set (d := zip_with Qminus closes vwapSeries). intros Hlen.
  destruct (lookup_lt_is_Some_2 d i ltac:(lia)) as [p Hp].
  destruct (lookup_lt_is_Some_2 d (S i) Hlen) as [c Hc].
  rewrite (drop_S d p i Hp), (drop_S d c (S i) Hc).
  unfold crossAt. rewrite !diffAt_zip. fold d.
  replace (S i - 1)%nat with i by lia.
  rewrite Hp, Hc. cbn [crossesOf].
  destruct (Qeq_bool p 0); [reflexivity|].
  destruct (opposite p c); reflexivity.
Qed.

(** The loop from index [S i] to the end counts [crossesOf] of the series
    from index [i] on. *)
Lemma loop_crossesOf (closes vwapSeries : list Q) (n i acc : nat) :
  (S i + n = length (zip_with Qminus closes vwapSeries))%nat ->
  loop closes vwapSeries (S i) n acc
  = (acc + crossesOf (drop i (zip_with Qminus closes vwapSeries)))%nat.
Proof.
  pose proof (crossesOf_drop closes vwapSeries) as Hdrop.
  set (d := zip_with Qminus closes vwapSeries) in *. revert i acc. induction n as [|n IH]; intros i acc Hlen.
  - cbn [loop].
    destruct (lookup_lt_is_Some_2 d i ltac:(lia)) as [p Hp].
    rewrite (drop_S d p i Hp), (drop_ge d (S i)) by lia.
    cbn. lia.
  - cbn [loop]. rewrite IH by lia.
    rewrite (Hdrop i) by lia.
    destruct (crossAt closes vwapSeries (S i)); lia.
Qed.

(** The counter refines [crossesOf] on the last [lookback] differences. *)
Lemma countVwapCrosses_crossesOf (closes vwapSeries : list Q) (lookback : nat) :
  (lookback <= length closes)%nat ->
  (length closes <= length vwapSeries)%nat ->
  countVwapCrosses closes vwapSeries lookback
  = Some (crossesOf (lastDiffs closes vwapSeries lookback)).
Proof.
  intros Hn Hlen. unfold countVwapCrosses, lastDiffs.
  destruct (Nat.ltb_spec (length closes) lookback); [lia|].
  destruct (Nat.ltb_spec (length vwapSeries) lookback); [lia|].
  cbn [orb]. f_equal.
  assert (Hd : length (zip_with Qminus closes vwapSeries) = length closes).
  { rewrite length_zip_with. lia. }
  destruct lookback as [|k].
  - replace (length closes - (length closes - 0 + 1))%nat with 0%nat by lia.
    cbn [loop]. rewrite drop_ge by lia. reflexivity.
  - replace (length closes - S k + 1)%nat with (S (length closes - S k)) by lia.
    rewrite loop_crossesOf by lia. reflexivity.
Qed.

(** The pair counted at the head of a series. *)
Lemma crossesOf_cons2 (p c : Q) (rest : list Q) :
  crossesOf (p :: c :: rest)
  = ((if Qeq_bool p 0 then 0 else if opposite p c then 1 else 0)
     + crossesOf (c :: rest))%nat.
Proof. reflexivity. Qed.

(** A series that stays on one side of zero has no counted pair. *)
Lemma crossesOf_nonneg (d : list Q) :
  Forall (fun x => 0 <= x) d -> crossesOf d = 0%nat.
Proof.
  induction d as [|p [|c rest] IH]; intros Hd; try reflexivity.
  inversion Hd as [|? ? Hp Hrest]; subst.
  inversion Hrest as [|? ? Hc _]; subst.
  rewrite crossesOf_cons2, (IH Hrest).
  destruct (Qeq_bool p 0); [reflexivity|].
  unfold opposite.
  case_Qltb 0 p; case_Qltb c 0; case_Qltb p 0; case_Qltb 0 c;
    cbn; try reflexivity; lra.
Qed.

Lemma crossesOf_nonpos (d : list Q) :
  Forall (fun x => x <= 0) d -> crossesOf d = 0%nat.
Proof.
  induction d as [|p [|c rest] IH]; intros Hd; try reflexivity.
  inversion Hd as [|? ? Hp Hrest]; subst.
  inversion Hrest as [|? ? Hc _]; subst.
  rewrite crossesOf_cons2, (IH Hrest).
  destruct (Qeq_bool p 0); [reflexivity|].
  unfold opposite.
  case_Qltb 0 p; case_Qltb c 0; case_Qltb p 0; case_Qltb 0 c;
    cbn; try reflexivity; lra.
Qed.

Lemma opposite_pos_neg (p c : Q) : 0 < p -> c < 0 ->
  (if Qeq_bool p 0 then 0 else if opposite p c then 1 else 0)%nat = 1%nat.
Proof.
  intros Hp Hc.
  destruct (Qeq_bool p 0) eqn:E; [apply Qeq_bool_iff in E; lra|].
  unfold opposite.
  apply Qltb_lt in Hp, Hc. rewrite Hp, Hc. reflexivity.
Qed.

Lemma opposite_neg_pos (p c : Q) : p < 0 -> 0 < c ->
  (if Qeq_bool p 0 then 0 else if opposite p c then 1 else 0)%nat = 1%nat.
Proof.
  intros Hp Hc.
  destruct (Qeq_bool p 0) eqn:E; [apply Qeq_bool_iff in E; lra|].
  unfold opposite.
  apply Qltb_lt in Hp, Hc. rewrite Hp, Hc, orb_true_r. reflexivity.
Qed.

Lemma opposite_same_pos (p c : Q) : 0 < p -> 0 < c ->
  (if Qeq_bool p 0 then 0 else if opposite p c then 1 else 0)%nat = 0%nat.
Proof.
  intros Hp Hc. destruct (Qeq_bool p 0); [reflexivity|].
  unfold opposite. case_Qltb 0 p; case_Qltb c 0; case_Qltb p 0; case_Qltb 0 c;
    cbn; try reflexivity; lra.
Qed.

Lemma opposite_same_neg (p c : Q) : p < 0 -> c < 0 ->
  (if Qeq_bool p 0 then 0 else if opposite p c then 1 else 0)%nat = 0%nat.
Proof.
  intros Hp Hc. destruct (Qeq_bool p 0); [reflexivity|].
  unfold opposite. case_Qltb 0 p; case_Qltb c 0; case_Qltb p 0; case_Qltb 0 c;
    cbn; try reflexivity; lra.
Qed.

(** A run of positive differences followed by a run of negative ones is
    counted once. *)
Lemma crossesOf_pos_neg (before after : list Q) :
  before <> [] -> after <> [] ->
  Forall (fun x => 0 < x) before -> Forall (fun x => x < 0) after ->
  crossesOf (before ++ after) = 1%nat.
Proof.
  intros Hb Ha Hpos Hneg.
  assert (Hafter : crossesOf after = 0%nat).
  { apply crossesOf_nonpos. eapply Forall_impl; [exact Hneg|].
    cbn. intros; lra. }
  destruct after as [|a after]; [congruence|].
  inversion Hneg as [|? ? Ha0 _]; subst.
  induction before as [|p [|c rest] IH]; [congruence| |].
  - inversion Hpos; subst. cbn [app].
    rewrite crossesOf_cons2, opposite_pos_neg, Hafter by assumption.
    reflexivity.
  - inversion Hpos as [|? ? Hp Hrest]; subst.
    inversion Hrest as [|? ? Hc _]; subst.
    cbn [app]. rewrite crossesOf_cons2, opposite_same_pos by assumption.
    apply IH; [congruence | assumption].
Qed.

Lemma crossesOf_neg_pos (before after : list Q) :
  before <> [] -> after <> [] ->
  Forall (fun x => x < 0) before -> Forall (fun x => 0 < x) after ->
  crossesOf (before ++ after) = 1%nat.
Proof.
  intros Hb Ha Hneg Hpos.
  assert (Hafter : crossesOf after = 0%nat).
  { apply crossesOf_nonneg. eapply Forall_impl; [exact Hpos|].
    cbn. intros; lra. }
  destruct after as [|a after]; [congruence|].
  inversion Hpos as [|? ? Ha0 _]; subst.
  induction before as [|p [|c rest] IH]; [congruence| |].
  - inversion Hneg; subst. cbn [app].
    rewrite crossesOf_cons2, opposite_neg_pos, Hafter by assumption.
    reflexivity.
  - inversion Hneg as [|? ? Hp Hrest]; subst.
    inversion Hrest as [|? ? Hc _]; subst.
    cbn [app]. rewrite crossesOf_cons2, opposite_same_neg by assumption.
    apply IH; [congruence | assumption].
Qed.

(** Where no difference is exactly zero the counted pairs are the sign
    changes of the specification. *)
Lemma crossesOf_signChanges (d : list Q) :
  Forall (fun x => ~ x == 0) d -> crossesOf d = signChanges d.
Proof.
  induction d as [|p [|c rest] IH]; intros Hd; try reflexivity.
  inversion Hd as [|? ? Hp Hrest]; subst.
  inversion Hrest as [|? ? Hc _]; subst.
  rewrite crossesOf_cons2, (IH Hrest).
  cbn [signChanges signChangesFrom].
  rewrite (proj2 (Qeq_bool_false p 0) Hp), (proj2 (Qeq_bool_false c 0) Hc).
  reflexivity.
Qed.

(** C7, as the specification states it, fails: a difference series going
    positive, zero, negative is counted as no cross, because the bar after a
    zero is skipped and the bar before it does not meet a negative value.
    The specification promises one cross for it.  Likewise, when the VWAP
    series is the shorter one the loop reads past its end: with closes
    99, 101, 99 and VWAP 100, 100 the last two bars of each differ by +1 and
    -1, yet no cross is counted. *)
Lemma countVwapCrosses_zero_hides_cross :
  (lastDiffs [101; 100; 99] [100; 100; 100] 3 = [101 - 100; 100 - 100; 99 - 100]
   /\ signChanges (lastDiffs [101; 100; 99] [100; 100; 100] 3) = 1%nat
   /\ countVwapCrosses [101; 100; 99] [100; 100; 100] 3 = Some 0%nat
   /\ countVwapCrosses [101; 100; 99] [100; 100; 100] 3 <> Some 1%nat)
  /\ (signChanges (zip_with Qminus (drop 1 [99; 101; 99]) (drop 0 [100; 100]))
      = 1%nat
      /\ countVwapCrosses [99; 101; 99] [100; 100] 2 = Some 0%nat).
Proof.
  split.
  - split; [reflexivity|]. split; [reflexivity|]. split; [reflexivity|].
    discriminate.
  - split; reflexivity.
Qed.

(** C7, amended: for a close series at least [lookback] bars long and a VWAP
    series at least as long as it (the two are read index by index), the
    counter returns the number of adjacent pairs among the last [lookback]
    differences close - vwap whose first member is non-zero and whose signs
    are strictly opposite; it returns null when either series is shorter than
    [lookback]; it counts nothing when the difference never changes sign, and
    exactly one cross when the difference is never zero and changes sign
    exactly once in the window; on a window without an exact zero the count
    is the number of sign changes as the specification words them. *)
Theorem countVwapCrosses_counts_adjacent_sign_changes :
  (forall closes vwapSeries lookback,
      (length closes < lookback)%nat \/ (length vwapSeries < lookback)%nat ->
      countVwapCrosses closes vwapSeries lookback = None)
  /\ (forall closes vwapSeries lookback,
      (lookback <= length closes)%nat ->
      (length closes <= length vwapSeries)%nat ->
      countVwapCrosses closes vwapSeries lookback
      = Some (crossesOf (lastDiffs closes vwapSeries lookback)))
  /\ (forall closes vwapSeries lookback,
      (lookback <= length closes)%nat ->
      (length closes <= length vwapSeries)%nat ->
      Forall (fun x => 0 <= x) (lastDiffs closes vwapSeries lookback)
      \/ Forall (fun x => x <= 0) (lastDiffs closes vwapSeries lookback) ->
      countVwapCrosses closes vwapSeries lookback = Some 0%nat)
  /\ (forall closes vwapSeries lookback before after,
      (lookback <= length closes)%nat ->
      (length closes <= length vwapSeries)%nat ->
      lastDiffs closes vwapSeries lookback = before ++ after ->
      before <> [] -> after <> [] ->
      (Forall (fun x => 0 < x) before /\ Forall (fun x => x < 0) after)
      \/ (Forall (fun x => x < 0) before /\ Forall (fun x => 0 < x) after) ->
      countVwapCrosses closes vwapSeries lookback = Some 1%nat)
  /\ (forall closes vwapSeries lookback,
      (lookback <= length closes)%nat ->
      (length closes <= length vwapSeries)%nat ->
      Forall (fun x => ~ x == 0) (lastDiffs closes vwapSeries lookback) ->
      countVwapCrosses closes vwapSeries lookback
      = Some (signChanges (lastDiffs closes vwapSeries lookback))).
Proof.
  repeat split.
  - intros closes vwapSeries lookback Hshort. unfold countVwapCrosses.
    destruct (Nat.ltb_spec (length closes) lookback); [reflexivity|].
    destruct (Nat.ltb_spec (length vwapSeries) lookback); [reflexivity|].
    lia.
  - apply countVwapCrosses_crossesOf.
  - intros closes vwapSeries lookback Hn Hlen Hsign.
    rewrite countVwapCrosses_crossesOf by assumption. f_equal.
    destruct Hsign; [apply crossesOf_nonneg | apply crossesOf_nonpos]; assumption.
  - intros closes vwapSeries lookback before after Hn Hlen Hd Hb Ha Hsign.
    rewrite countVwapCrosses_crossesOf, Hd by assumption. f_equal.
    destruct Hsign as [[Hp Hm]|[Hm Hp]];
      [apply crossesOf_pos_neg | apply crossesOf_neg_pos]; assumption.
  - intros closes vwapSeries lookback Hn Hlen Hnz.
    rewrite countVwapCrosses_crossesOf by assumption. f_equal.
    apply crossesOf_signChanges, Hnz.
Qed.

(** The amended C7 at a window that crosses once, from above to below. *)
Lemma countVwapCrosses_counts_adjacent_sign_changes_witness :
  countVwapCrosses [101; 102; 99; 98] [100; 100; 100; 100] 4 = Some 1%nat
  /\ countVwapCrosses [101; 102] [100; 100; 100] 3 = None.
Proof.
  destruct countVwapCrosses_counts_adjacent_sign_changes
    as (Hnull & _ & _ & Honce & _).
  split.
  - apply (Honce _ _ _ [101 - 100; 102 - 100] [99 - 100; 98 - 100]).
    + cbn; lia.
    + cbn; lia.
    + reflexivity.
    + discriminate.
    + discriminate.
    + left. split; repeat constructor.
  - apply Hnull. left. cbn. lia.
Defined.

End CrossesFacts.

Local Close Scope Q_scope.
(** ** The update cycle *)

Section ServerFacts.
Import Server.
Local Open Scope num_scope.

Lemma run_app (before after : list Cycle) (s : State) :
  run (before ++ after) s = run after (run before s).
Proof. unfold run. apply fold_left_app. Qed.

(** A pass that does not complete leaves the published snapshot alone. *)
Lemma updateData_failed_keeps_snapshot (cy : Cycle) (s : State) :
  completes cy = false -> latestData (updateData cy s) = latestData s.
Proof. destruct cy; cbn; [reflexivity | reflexivity | discriminate]. Qed.

Lemma run_failed_keeps_snapshot (cycles : list Cycle) (s : State) :
  Forall (fun cy => completes cy = false) cycles ->
  latestData (run cycles s) = latestData s.
Proof.
  intros Hfail. revert s.
  induction Hfail as [|cy cycles Hcy _ IH]; intros s; [reflexivity|].
  cbn. unfold run in IH. rewrite IH.
  apply updateData_failed_keeps_snapshot, Hcy.
Qed.

(** C9: [GET /api/data] answers 503 as long as no pass of [updateData] has
    completed, and once a pass has completed it answers with the snapshot of
    the latest completed pass, whatever number of failing passes follow. *)
Theorem apiData_serves_latest_completed_snapshot :
  (forall cycles,
      Forall (fun cy => completes cy = false) cycles ->
      apiData (run cycles initial) = NotReady503)
  /\ (forall before c after s,
      Forall (fun cy => completes cy = false) after ->
      apiData (run (before ++ Completes c :: after) s)
      = Ok200 (buildSnapshot c
                 (updateLatch c (priceToBeatState (run before s))))).
Proof.
  split.
  - intros cycles Hfail. unfold apiData.
    rewrite run_failed_keeps_snapshot by assumption. reflexivity.
  - intros before c after s Hfail. unfold apiData.
    rewrite run_app. change (run (Completes c :: after) (run before s))
      with (run after (updateData (Completes c) (run before s))).
    rewrite run_failed_keeps_snapshot by assumption. reflexivity.
Qed.

(** A first completed pass among passes that fail at the fetch or while the
    snapshot is built. *)
Lemma apiData_serves_latest_completed_snapshot_witness :
  apiData (run [ThrowsBeforeLatch; ThrowsAfterLatch (quietCycle "m1" 60000 5)]
             initial) = NotReady503
  /\ apiData (run ([ThrowsBeforeLatch]
                   ++ Completes (quietCycle "m1" 60000 10)
                   :: [ThrowsBeforeLatch; ThrowsAfterLatch (quietCycle "m2" 61000 20)])
                initial)
     = Ok200 (buildSnapshot (quietCycle "m1" 60000 10)
                (updateLatch (quietCycle "m1" 60000 10)
                   (priceToBeatState (run [ThrowsBeforeLatch] initial)))).
Proof.
  destruct apiData_serves_latest_completed_snapshot as [Hnot Hlast].
  split.
  - apply Hnot. repeat constructor.
  - apply Hlast. repeat constructor.
Defined.

(** *** The latch *)

(** A latch that holds a value is not touched by a pass that reports the
    tracked slug or no slug. *)
Lemma updateLatch_keeps_value (c : CycleData) (p : PriceToBeatState)
    (tracked : string) (v : number) :
  ptb_slug p = Some tracked -> ptb_value p = Some v ->
  cy_marketSlug c = tracked \/ cy_marketSlug c = ""%string ->
  updateLatch c p = p.
Proof.
  intros Hslug Hval Hkeep. unfold updateLatch.
  assert (Hre : retrack c p = p).
  { unfold retrack. destruct Hkeep as [-> | ->].
    - rewrite Hslug, bool_decide_eq_true_2 by reflexivity.
      rewrite andb_false_r. reflexivity.
    - reflexivity. }
  rewrite Hre. unfold latch. rewrite Hval. reflexivity.
Qed.

Lemma updateData_keeps_value (cy : Cycle) (s : State) (tracked : string) (v : number) :
  ptb_slug (priceToBeatState s) = Some tracked ->
  ptb_value (priceToBeatState s) = Some v ->
  keepsSlug tracked cy ->
  priceToBeatState (updateData cy s) = priceToBeatState s.
Proof.
  intros Hslug Hval Hkeep. destruct cy as [|c|c]; cbn in *;
    [reflexivity | | ]; eapply updateLatch_keeps_value; eassumption.
Qed.

Lemma run_keeps_value (cycles : list Cycle) (s : State) (tracked : string) (v : number) :
  ptb_slug (priceToBeatState s) = Some tracked ->
  ptb_value (priceToBeatState s) = Some v ->
  Forall (keepsSlug tracked) cycles ->
  priceToBeatState (run cycles s) = priceToBeatState s.
Proof.
  intros Hslug Hval Hkeep. revert s Hslug Hval.
  induction Hkeep as [|cy cycles Hcy _ IH]; intros s Hslug Hval; [reflexivity|].
  cbn. pose proof (updateData_keeps_value cy s tracked v Hslug Hval Hcy) as Hstep.
  unfold run in IH. rewrite IH, Hstep; rewrite ?Hstep; auto.
Qed.

(** The latch after a pass is the latch before it, or it was written in this
    pass from the current price, with the clock at or after the start time
    the pass reports, if it reports one. *)
Lemma updateLatch_gated (c : CycleData) (p : PriceToBeatState) (v : number) :
  ptb_value (updateLatch c p) = Some v ->
  ptb_value p = Some v
  \/ (cy_currentPrice c = Some v
      /\ ptb_setAtMs (updateLatch c p) = Some (cy_nowMs c)
      /\ forall start, cy_marketStartMs c = Some start -> (start <= cy_nowMs c)%Z).
Proof.
  unfold updateLatch, latch.
  set (q := retrack c p).
  assert (Hq : q = p \/ ptb_value q = None).
  { unfold q, retrack. destruct (_ && _); [right; reflexivity | left; reflexivity]. }
  destruct (ptb_value q) as [w|] eqn:Hw.
  - destruct Hq as [-> | Hq]; [|discriminate]. intros Hv. left. congruence.
  - destruct (cy_currentPrice c) as [price|] eqn:Hprice;
      [|rewrite Hw; discriminate].
    destruct (truthy (ptb_slug q)); cbn [andb]; [|rewrite Hw; discriminate].
    destruct (okToLatch c) eqn:Hok; [|rewrite Hw; discriminate].
    cbn. intros [= <-]. right. repeat split.
    intros start Hstart. unfold okToLatch in Hok. rewrite Hstart in Hok.
    lia.
Qed.

(** A pass that reports a new, non-empty slug starts tracking it; the value
    is the price of this very pass when the latch may be taken, and null
    otherwise. *)
Lemma updateLatch_new_slug (c : CycleData) (p : PriceToBeatState) :
  cy_marketSlug c <> ""%string ->
  ptb_slug p <> Some (cy_marketSlug c) ->
  ptb_slug (updateLatch c p) = Some (cy_marketSlug c)
  /\ ptb_value (updateLatch c p)
     = (if okToLatch c then cy_currentPrice c else None)
  /\ readPriceToBeat c (updateLatch c p) = ptb_value (updateLatch c p).
Proof.
  intros Hne Hnew. unfold updateLatch, retrack, readPriceToBeat.
  cbn [truthy]. rewrite (bool_decide_eq_false_2 _ Hne).
  rewrite (bool_decide_eq_false_2 _ Hnew). cbn [negb andb].
  unfold latch. cbn [ptb_value ptb_slug truthy].
  rewrite (bool_decide_eq_false_2 _ Hne). cbn [negb andb].
  destruct (cy_currentPrice c), (okToLatch c); cbn;
    rewrite bool_decide_eq_true_2 by reflexivity; auto.
Qed.

(** C5: the code latches a price before the start time of the tracked
    market, against the rule that the price to beat is set only at or after
    that time.  The start-time test of [updateData] reads the start time of
    the current pass only.  Market "m1" opens at clock 1000 and is first seen
    at clock 500, so nothing is latched; the next pass, at clock 600, has no
    market data (empty slug, no start time) and latches the price 60050
    under "m1", 400 ms before the start time of "m1". *)
Lemma priceToBeat_latched_before_start :
  priceToBeatState
    (run [Completes (scheduledCycle "m1" 1000 60000 500)] initial)
  = {| ptb_slug := Some "m1"%string; ptb_value := None; ptb_setAtMs := None |}
  /\ priceToBeatState
       (run [Completes (scheduledCycle "m1" 1000 60000 500);
             Completes (quietCycle "" 60050 600)] initial)
     = {| ptb_slug := Some "m1"%string; ptb_value := Some 60050;
          ptb_setAtMs := Some 600%Z |}
  /\ (600 < 1000)%Z.
Proof. repeat split. Qed.

(** The latch belongs to the slug being tracked, not to the slug for good: a
    slug that is left and tracked again is latched again. *)
Lemma priceToBeat_relatched_on_return :
  ptb_value (priceToBeatState
               (run [Completes (quietCycle "m1" 60000 10)] initial))
  = Some 60000
  /\ ptb_value (priceToBeatState
                  (run [Completes (quietCycle "m1" 60000 10);
                        Completes (quietCycle "m2" 60100 20);
                        Completes (quietCycle "m1" 60200 30)] initial))
     = Some 60200.
Proof. split; reflexivity. Qed.

(** What the latch of the code does keep: over every run of passes, a value
    held for the tracked slug is not changed by passes that report that slug
    or no slug; a value present after a pass is the value held before it or
    the current price, written with the clock at or after the start time this
    very pass reports, if it reports one; a pass that reports another
    non-empty slug S2 tracks S2, and the value then reads null unless this
    same pass latches its own price under S2. *)
Theorem priceToBeat_latch_per_tracked_slug :
  (forall cycles s tracked v,
      ptb_slug (priceToBeatState s) = Some tracked ->
      ptb_value (priceToBeatState s) = Some v ->
      Forall (keepsSlug tracked) cycles ->
      priceToBeatState (run cycles s) = priceToBeatState s)
  /\ (forall c p v,
      ptb_value (updateLatch c p) = Some v ->
      ptb_value p = Some v
      \/ (cy_currentPrice c = Some v
          /\ ptb_setAtMs (updateLatch c p) = Some (cy_nowMs c)
          /\ forall start,
               cy_marketStartMs c = Some start -> (start <= cy_nowMs c)%Z))
  /\ (forall c p,
      cy_marketSlug c <> ""%string ->
      ptb_slug p <> Some (cy_marketSlug c) ->
      ptb_slug (updateLatch c p) = Some (cy_marketSlug c)
      /\ ptb_value (updateLatch c p)
         = (if okToLatch c then cy_currentPrice c else None)
      /\ readPriceToBeat c (updateLatch c p) = ptb_value (updateLatch c p)).
Proof.
  split; [exact run_keeps_value|].
  split; [exact updateLatch_gated | exact updateLatch_new_slug].
Qed.

(** A run that latches 60000 for "m1", sees two more
    prices under "m1" and one pass without market data, then moves to "m2"
    before "m2" has opened. *)
Lemma priceToBeat_latch_per_tracked_slug_witness :
  let s1 := run [Completes (scheduledCycle "m1" 1000 60000 1000)] initial in
  priceToBeatState
    (run [Completes (scheduledCycle "m1" 1000 60100 2000);
          ThrowsAfterLatch (quietCycle "" 60200 3000);
          Completes (scheduledCycle "m1" 1000 60300 4000)] s1)
  = priceToBeatState s1
  /\ ptb_value (updateLatch (scheduledCycle "m2" 9000 60400 5000)
                  (priceToBeatState s1)) = None.
Proof.
  destruct priceToBeat_latch_per_tracked_slug as (Hkeep & _ & Hnew).
  split.
  - apply (Hkeep _ _ "m1"%string 60000); [reflexivity | reflexivity |].
    repeat (constructor; [cbn; auto|]). constructor.
  - destruct (Hnew (scheduledCycle "m2" 9000 60400 5000)
                (priceToBeatState
                   (run [Completes (scheduledCycle "m1" 1000 60000 1000)] initial)))
      as (_ & Hval & _); [discriminate | discriminate |].
    exact Hval.
Defined.

End ServerFacts.
(** ** The paper-trading engine *)

Section PaperFacts.
Import Paper.
Local Open Scope num_scope.

(** *** Session reset *)

Lemma autoResetDue_iff (s : PaperTrader) :
  autoResetDue s = true <-> balance s < autoResetThreshold /\ positions s = [].
Proof.
  unfold autoResetDue. rewrite andb_true_iff, ltb_lt, Nat.eqb_eq.
  split; intros [Hb Hp]; split; try assumption.
  - destruct (positions s); [reflexivity | discriminate].
  - rewrite Hp. reflexivity.
Qed.

Lemma checkAutoReset_due (now : Z) (s : PaperTrader) :
  balance s < autoResetThreshold -> positions s = [] ->
  checkAutoReset now s = (reset (startingBalance s) true now s, true).
Proof.
  intros Hb Hp. unfold checkAutoReset.
  rewrite (proj2 (autoResetDue_iff s)) by auto. reflexivity.
Qed.

Lemma checkAutoReset_not_due (now : Z) (s : PaperTrader) :
  ~ (balance s < autoResetThreshold /\ positions s = []) ->
  checkAutoReset now s = (s, false).
Proof.
  intros Hno. unfold checkAutoReset.
  destruct (autoResetDue s) eqn:Hdue; [|reflexivity].
  apply autoResetDue_iff in Hdue. contradiction.
Qed.

(** What [reset] records when the session has at least one settled trade,
    and what it leaves alone when it has none. *)
Lemma reset_records (newBalance : number) (now : Z) (s : PaperTrader) :
  (0 < st_totalTrades (stats s))%Z ->
  sessionHistory (reset newBalance true now s)
  = sessionHistory s ++ [closeSession now s]
  /\ lifetimeStats (reset newBalance true now s) = foldLifetime s.
Proof.
  intros Htrades. unfold reset, recordsSession. cbn.
  rewrite (proj2 (Z.ltb_lt _ _) Htrades). auto.
Qed.

Lemma reset_skips_empty_session (newBalance : number) (now : Z) (s : PaperTrader) :
  (st_totalTrades (stats s) <= 0)%Z ->
  sessionHistory (reset newBalance true now s) = sessionHistory s
  /\ lifetimeStats (reset newBalance true now s) = lifetimeStats s.
Proof.
  intros Htrades. unfold reset, recordsSession. cbn.
  rewrite (proj2 (Z.ltb_ge _ _) Htrades). auto.
Qed.

(** C4, as the specification states it, fails: [canTrade] tests [enabled]
    first, so a disabled engine with a balance of 9.50 and no open position
    is refused as disabled and is not reset. *)
Lemma canTrade_disabled_no_reset :
  balance (disable spentTrader) < autoResetThreshold
  /\ positions (disable spentTrader) = []
  /\ canTrade 1000 (disable spentTrader)
     = (disable spentTrader, NotAllowed PaperTradingDisabled).
Proof. repeat split. Qed.

(** C4, amended: for every enabled state whose balance is below the
    auto-reset threshold and whose position map is empty, [canTrade] resets
    the session and answers not-allowed with the session-reset reason.  When
    the session had at least one trade the reset appends it to the history,
    with [wiped] set exactly when its ending balance is below the threshold,
    and adds its trade, win and loss counts and its won and lost totals to
    the lifetime stats; the new session has empty stats, so a further reset
    adds nothing again. *)
Theorem canTrade_auto_reset :
  forall (now : Z) (s : PaperTrader),
    enabled s = true ->
    balance s < autoResetThreshold ->
    positions s = [] ->
    let s' := reset (startingBalance s) true now s in
    canTrade now s = (s', NotAllowed SessionReset)
    /\ balance s' = startingBalance s
    /\ stats s' = initStats /\ trades s' = [] /\ positions s' = []
    /\ ((0 < st_totalTrades (stats s))%Z ->
        sessionHistory s' = sessionHistory s ++ [closeSession now s]
        /\ (se_wiped (closeSession now s) = true
            <-> se_endingBalance (closeSession now s) < autoResetThreshold)
        /\ se_trades (closeSession now s) = st_totalTrades (stats s)
        /\ se_wins (closeSession now s) = st_wins (stats s)
        /\ se_losses (closeSession now s) = st_losses (stats s)
        /\ lt_totalSessions (lifetimeStats s')
           = (lt_totalSessions (lifetimeStats s) + 1)%Z
        /\ lt_totalTrades (lifetimeStats s')
           = (lt_totalTrades (lifetimeStats s) + st_totalTrades (stats s))%Z
        /\ lt_totalWins (lifetimeStats s')
           = (lt_totalWins (lifetimeStats s) + st_wins (stats s))%Z
        /\ lt_totalLosses (lifetimeStats s')
           = (lt_totalLosses (lifetimeStats s) + st_losses (stats s))%Z
        /\ lt_totalWon (lifetimeStats s')
           = lt_totalWon (lifetimeStats s) + st_totalWon (stats s)
        /\ lt_totalLost (lifetimeStats s')
           = lt_totalLost (lifetimeStats s) + st_totalLost (stats s))
    /\ ((st_totalTrades (stats s) <= 0)%Z ->
        sessionHistory s' = sessionHistory s
        /\ lifetimeStats s' = lifetimeStats s)
    /\ (forall newBalance later,
          lifetimeStats (reset newBalance true later s') = lifetimeStats s'
          /\ sessionHistory (reset newBalance true later s') = sessionHistory s').
Proof.
  intros now s Hen Hlow Hpos s'.
  split.
  { unfold canTrade. rewrite Hen. cbn [negb].
    rewrite checkAutoReset_due by assumption. reflexivity. }
  do 4 (split; [reflexivity|]).
  split; [|split].
  - intros Htrades.
    destruct (reset_records (startingBalance s) now s Htrades) as [Hhist Hlife].
    fold s' in Hhist, Hlife. rewrite Hhist, Hlife.
    split; [reflexivity|]. split; [apply ltb_lt|].
    repeat split.
  - apply reset_skips_empty_session.
  - intros newBalance later. split;
      apply (reset_skips_empty_session newBalance later s'); cbn; lia.
Qed.

(** The amended C4 on the engine worn down to 9.50 over three trades. *)
Lemma canTrade_auto_reset_witness :
  canTrade 1000 spentTrader
  = (reset (startingBalance spentTrader) true 1000 spentTrader,
     NotAllowed SessionReset).
Proof.
  refine (proj1 (canTrade_auto_reset 1000 spentTrader _ _ _));
    reflexivity.
Defined.

(** *** Status queries *)

(** C10, as stated, fails: a session without a trade is not closed into the
    history.  After [POST /api/paper/reset] with a starting balance of 5 the
    balance is under the threshold and no position is open; the status query
    resets the engine again but records nothing. *)
Lemma getStatus_empty_session_not_recorded :
  balance tinyTrader < autoResetThreshold
  /\ positions tinyTrader = []
  /\ sessionHistory (fst (getStatus 200 tinyTrader)) = sessionHistory tinyTrader
  /\ lifetimeStats (fst (getStatus 200 tinyTrader)) = lifetimeStats tinyTrader.
Proof. repeat split. Qed.

(** C10, amended: [getStatus] is not read-only.  In every state with the
    balance below the auto-reset threshold and an empty position map it
    performs the auto-reset before it builds the report: the balance returns
    to the starting balance and, when the session had at least one trade,
    the session is appended to the history and folded into the lifetime
    stats.  In every other state it returns the engine state unchanged. *)
Theorem getStatus_auto_resets :
  forall (now : Z) (s : PaperTrader),
    (balance s < autoResetThreshold -> positions s = [] ->
     let s' := fst (getStatus now s) in
     s' = reset (startingBalance s) true now s
     /\ snd (getStatus now s) = report s'
     /\ balance s' = startingBalance s
     /\ rp_currentBalance (snd (getStatus now s)) = startingBalance s
     /\ ((0 < st_totalTrades (stats s))%Z ->
         sessionHistory s' = sessionHistory s ++ [closeSession now s]
         /\ lifetimeStats s' = foldLifetime s))
    /\ (~ (balance s < autoResetThreshold /\ positions s = []) ->
        getStatus now s = (s, report s)).
Proof.
  intros now s. split.
  - intros Hlow Hpos s'. unfold s', getStatus.
    rewrite checkAutoReset_due by assumption. cbn [fst snd].
    repeat split; try reflexivity; apply reset_records; assumption.
  - intros Hno. unfold getStatus.
    rewrite checkAutoReset_not_due by assumption. reflexivity.
Qed.

(** The amended C10 on the worn-down engine and on a fresh one. *)
Lemma getStatus_auto_resets_witness :
  fst (getStatus 1000 spentTrader)
  = reset (startingBalance spentTrader) true 1000 spentTrader
  /\ getStatus 1000 (paperTrader 0) = (paperTrader 0, report (paperTrader 0)).
Proof.
  split.
  - refine (proj1 (proj1 (getStatus_auto_resets 1000 spentTrader) _ _));
      reflexivity.
  - apply (proj2 (getStatus_auto_resets 1000 (paperTrader 0))).
    intros [Hlow _]. revert Hlow. cbn. discriminate.
Defined.

(** *** Gates *)

(** [canTrade] as one decision list. *)
Lemma canTrade_cases (now : Z) (s : PaperTrader) :
  canTrade now s =
  if negb (enabled s) then (s, NotAllowed PaperTradingDisabled)
  else if Num.ltb (balance s) autoResetThreshold then
    if (length (positions s) =? 0)%nat
    then (reset (startingBalance s) true now s, NotAllowed SessionReset)
    else (s, NotAllowed BalanceTooLow)
  else match cooldownLeft now s with
       | Some seconds => (s, NotAllowed (Cooldown seconds))
       | None => (s, Allowed)
       end.
Proof.
  unfold canTrade, checkAutoReset, autoResetDue.
  destruct (negb (enabled s)); [reflexivity|].
  destruct (Num.ltb (balance s) autoResetThreshold) eqn:Hb; cbn [andb].
  - destruct (length (positions s) =? 0)%nat; [reflexivity|].
    rewrite Hb. reflexivity.
  - rewrite Hb. reflexivity.
Qed.

Lemma canTrade_allowed (now : Z) (s s' : PaperTrader) :
  canTrade now s = (s', Allowed) ->
  s' = s /\ enabled s = true /\ ~ balance s < autoResetThreshold
  /\ cooldownLeft now s = None.
Proof.
  rewrite canTrade_cases.
  destruct (enabled s); cbn [negb]; [|discriminate].
  case_ltb (balance s) autoResetThreshold.
  - destruct (length (positions s) =? 0)%nat; discriminate.
  - destruct (cooldownLeft now s); [discriminate|].
    apply ltb_not_lt in Hcmp. intros [= <-]. auto.
Qed.

(** C6: [evaluateAndTrade] answers with the reason of the first gate that
    fails, the gates being read in the order disabled, balance below the
    auto-reset threshold (session reset when no position is open, balance
    too low otherwise), cooldown, non-actionable signal, edge below minimum,
    strength not GOOD or STRONG, LATE phase, price outside (0,1), position
    under one share or one dollar, insufficient balance; the trade is made
    exactly when no gate fails.  Every outcome is a returned value: a
    rejection is [{ traded: false, reason }], and only the session reset
    changes the engine state it was decided on. *)
Theorem evaluateAndTrade_gates_in_order :
  forall (data : Snapshot) (now : Z) (s : PaperTrader),
    let s1 := observe data now s in
    match firstFailure (gates data now s1) with
    | Some reason =>
        snd (evaluateAndTrade data now s) = NotTraded reason
        /\ fst (evaluateAndTrade data now s)
           = match reason with
             | SessionReset => reset (startingBalance s1) true now s1
             | _ => s1
             end
    | None =>
        exists t,
          evaluateAndTrade data now s
          = (execute t now s1, Traded t (balance (execute t now s1)))
    end.
Proof.
  intros data now s s1. unfold evaluateAndTrade. fold s1.
  rewrite canTrade_cases. unfold gates, firstFailure.
  destruct (negb (enabled s1)); [split; reflexivity|].
  destruct (Num.ltb (balance s1) autoResetThreshold).
  { destruct (length (positions s1) =? 0)%nat; split; reflexivity. }
  destruct (cooldownLeft now s1) as [seconds|]; [split; reflexivity|].
  rewrite bool_decide_eq_false_2 by (intros [? ?]; discriminate).
  unfold enter, signalPrice, strongOrGood.
  destruct (sig_side (signal data)) as [side|].
  2:{ rewrite (bool_decide_eq_true_2 (@None Side = None)) by reflexivity.
      rewrite orb_true_r. split; reflexivity. }
  rewrite (bool_decide_eq_false_2 (Some side = None)) by discriminate.
  rewrite orb_false_r.
  destruct (bool_decide (sig_action (signal data) = HOLD));
    [split; reflexivity|].
  destruct (Num.ltb (edgeValue (signal data)) (minEdge (cfg s1)));
    [split; reflexivity|].
  rewrite negb_orb.
  destruct (negb (bool_decide (sig_strength (signal data) = Some STRONG))
            && negb (bool_decide (sig_strength (signal data) = Some GOOD)));
    [split; reflexivity|].
  destruct (bool_decide (timing_phase data = LATE)); [split; reflexivity|].
  destruct (priceFor side data) as [price|]; [|split; reflexivity].
  destruct (invalidPrice (Some price)); [split; reflexivity|].
  cbn [numberOr0].
  destruct (Num.ltb (sharesFor s1 (signal data) price) 1
            || Num.ltb (positionSize s1 (signal data)) 1); [split; reflexivity|].
  destruct (Num.ltb (balance s1) (sharesFor s1 (signal data) price * price));
    [split; reflexivity|].
  eexists. reflexivity.
Qed.

(** *** Settlement *)

Lemma settleEntry_closeEntry (outcome : Side) (currentPrice : number) (now : Z) :
  settleEntry outcome currentPrice now
  = closeEntry (settleTrade outcome currentPrice now) settleStats outcome.
Proof. reflexivity. Qed.

Lemma forceSettleEntry_closeEntry (outcome : Side) (now : Z) :
  forceSettleEntry outcome now
  = closeEntry (forceSettleTrade outcome now) forceSettleStats outcome.
Proof. reflexivity. Qed.

Lemma addEach_cons (f : Trade -> number) (t : Trade) (l : list Trade)
    (a : number) :
  addEach f (t :: l) a = addEach f l (a + f t).
Proof. reflexivity. Qed.

Lemma addEach_app (f : Trade -> number) (l k : list Trade) (a : number) :
  addEach f (l ++ k) a = addEach f k (addEach f l a).
Proof. unfold addEach. apply fold_left_app. Qed.

Lemma openValue_addEach (s : PaperTrader) :
  openValue s = addEach tr_cost (openPositions s) 0.
Proof. reflexivity. Qed.

Section CloseEntry.
Variable mark : Trade -> Trade.
Variable tally : number -> Stats -> Stats.
Variable outcome : Side.
Hypothesis mark_closes : forall t, tr_status (mark t) <> OPEN.

Local Abbreviation close := (closeEntry mark tally outcome).

(** The three ways an iteration can go. *)
Lemma closeEntry_cases (s : PaperTrader) (e : Z * nat) :
  (exists t, store s !! snd e = Some t /\ tr_status t = OPEN
      /\ close s e
         = set_positions (map_delete (fst e) (positions s))
             (set_stats (tally (pnlOf outcome t) (stats s))
                (set_balance (balance s + payoutOf outcome t)
                   (set_store (<[snd e := mark t]> (store s)) s))))
  \/ ((forall t, store s !! snd e = Some t -> tr_status t <> OPEN)
      /\ close s e = s).
Proof.
  unfold closeEntry. destruct (store s !! snd e) as [t|] eqn:Ht.
  - destruct (bool_decide (tr_status t = OPEN)) eqn:Hopen.
    + apply bool_decide_eq_true in Hopen. left. eauto.
    + apply bool_decide_eq_false in Hopen. right. split; [|reflexivity].
      intros t' [= <-]. assumption.
  - right. split; [discriminate | reflexivity].
Qed.

Lemma closeEntry_length (s : PaperTrader) (e : Z * nat) :
  length (store (close s e)) = length (store s).
Proof.
  destruct (closeEntry_cases s e) as [(t & _ & _ & ->)|[_ ->]]; [|reflexivity].
  cbn. apply length_insert.
Qed.

Lemma closeEntry_other (s : PaperTrader) (e : Z * nat) (r : nat) :
  r <> snd e -> store (close s e) !! r = store s !! r.
Proof.
  intros Hr.
  destruct (closeEntry_cases s e) as [(t & _ & _ & ->)|[_ ->]]; [|reflexivity].
  cbn. apply list_lookup_insert_ne. congruence.
Qed.

Lemma closeEntry_closed (s : PaperTrader) (e : Z * nat) (r : nat) (t : Trade) :
  store s !! r = Some t -> tr_status t <> OPEN ->
  store (close s e) !! r = Some t.
Proof.
  intros Ht Hclosed.
  destruct (closeEntry_cases s e) as [(t' & Ht' & Hopen & ->)|[_ ->]];
    [|assumption].
  cbn. rewrite list_lookup_insert_ne; [assumption|].
  intros <-. congruence.
Qed.

Lemma closeEntry_hit (s : PaperTrader) (e : Z * nat) (t : Trade) :
  store s !! snd e = Some t -> tr_status t = OPEN ->
  store (close s e) !! snd e = Some (mark t)
  /\ balance (close s e) = balance s + payoutOf outcome t.
Proof.
  intros Ht Hopen.
  destruct (closeEntry_cases s e) as [(t' & Ht' & _ & ->)|[Hno _]].
  - assert (t' = t) as -> by congruence. cbn. split; [|reflexivity].
    apply list_lookup_insert_eq. eapply lookup_lt_Some; eassumption.
  - exfalso. eapply Hno; eassumption.
Qed.

(** What an iteration leaves alone. *)
Lemma closeEntry_frame (s : PaperTrader) (e : Z * nat) :
  cfg (close s e) = cfg s
  /\ startingBalance (close s e) = startingBalance s
  /\ trades (close s e) = trades s
  /\ enabled (close s e) = enabled s
  /\ lastTradeTime (close s e) = lastTradeTime s
  /\ sessionHistory (close s e) = sessionHistory s
  /\ lifetimeStats (close s e) = lifetimeStats s
  /\ currentMarketSlug (close s e) = currentMarketSlug s
  /\ pendingSettlement (close s e) = pendingSettlement s.
Proof.
  destruct (closeEntry_cases s e) as [(t & _ & _ & ->)|[_ ->]];
    repeat split.
Qed.

Lemma closeEntry_positions (s : PaperTrader) (e : Z * nat) :
  positions (close s e) `sublist_of` positions s.
Proof.
  destruct (closeEntry_cases s e) as [(t & _ & _ & ->)|[_ ->]];
    [|reflexivity].
  cbn. unfold map_delete. apply sublist_filter.
Qed.

(** The whole loop. *)
Lemma closeAll_length (l : list (Z * nat)) (s : PaperTrader) :
  length (store (fold_left close l s)) = length (store s).
Proof.
  revert s. induction l as [|e l IH]; intros s; [reflexivity|].
  cbn. rewrite IH. apply closeEntry_length.
Qed.

Lemma closeAll_frame (l : list (Z * nat)) (s : PaperTrader) :
  cfg (fold_left close l s) = cfg s
  /\ startingBalance (fold_left close l s) = startingBalance s
  /\ trades (fold_left close l s) = trades s
  /\ enabled (fold_left close l s) = enabled s
  /\ lastTradeTime (fold_left close l s) = lastTradeTime s
  /\ sessionHistory (fold_left close l s) = sessionHistory s
  /\ lifetimeStats (fold_left close l s) = lifetimeStats s
  /\ currentMarketSlug (fold_left close l s) = currentMarketSlug s
  /\ pendingSettlement (fold_left close l s) = pendingSettlement s.
Proof.
  revert s. induction l as [|e l IH]; intros s; [repeat split|].
  cbn. destruct (IH (close s e)) as (-> & -> & -> & -> & -> & -> & -> & -> & ->).
  apply closeEntry_frame.
Qed.

Lemma closeAll_positions (l : list (Z * nat)) (s : PaperTrader) :
  positions (fold_left close l s) `sublist_of` positions s.
Proof.
  revert s. induction l as [|e l IH]; intros s; [reflexivity|].
  cbn. etransitivity; [apply IH | apply closeEntry_positions].
Qed.

Lemma closeAll_closed (l : list (Z * nat)) (s : PaperTrader) (r : nat) (t : Trade) :
  store s !! r = Some t -> tr_status t <> OPEN ->
  store (fold_left close l s) !! r = Some t.
Proof.
  revert s. induction l as [|e l IH]; intros s Ht Hclosed; [assumption|].
  cbn. apply IH; [|assumption]. apply closeEntry_closed; assumption.
Qed.

(** Every OPEN trade the loop visits ends up marked. *)
Lemma closeAll_marks (l : list (Z * nat)) (s : PaperTrader) (e : Z * nat) (t : Trade) :
  e ∈ l -> store s !! snd e = Some t -> tr_status t = OPEN ->
  store (fold_left close l s) !! snd e = Some (mark t).
Proof.
  revert s. induction l as [|e' l IH]; intros s Hin Ht Hopen.
  - inversion Hin.
  - cbn. destruct (decide (snd e' = snd e)) as [Heq|Hne].
    + apply closeAll_closed; [|apply mark_closes].
      rewrite <- Heq in *. apply closeEntry_hit; assumption.
    + apply IH.
      * apply elem_of_cons in Hin as [->|Hin]; [congruence | assumption].
      * rewrite closeEntry_other by congruence. assumption.
      * assumption.
Qed.

(** No visited entry refers to an OPEN trade once the loop is over. *)
Lemma closeAll_none_open (l : list (Z * nat)) (s : PaperTrader) (e : Z * nat) (t' : Trade) :
  e ∈ l -> store (fold_left close l s) !! snd e = Some t' ->
  tr_status t' <> OPEN.
Proof.
  intros Hin Hafter.
  destruct (store s !! snd e) as [t|] eqn:Ht.
  - destruct (decide (tr_status t = OPEN)) as [Hopen|Hclosed].
    + rewrite (closeAll_marks l s e t Hin Ht Hopen) in Hafter.
      injection Hafter as <-. apply mark_closes.
    + rewrite (closeAll_closed l s (snd e) t Ht Hclosed) in Hafter.
      congruence.
  - apply lookup_ge_None in Ht. rewrite <- (closeAll_length l s) in Ht.
    apply lookup_ge_None in Ht. congruence.
Qed.


Lemma openOf_cons_open (st : list Trade) (e : Z * nat) (m : list (Z * nat)) (t : Trade) :
  st !! snd e = Some t -> tr_status t = OPEN ->
  openOf st (e :: m) = t :: openOf st m.
Proof.
  intros Ht Hopen. unfold openOf. cbn [omap list_omap]. rewrite Ht.
  apply filter_cons_True. assumption.
Qed.

Lemma openOf_cons_skip (st : list Trade) (e : Z * nat) (m : list (Z * nat)) :
  (forall t, st !! snd e = Some t -> tr_status t <> OPEN) ->
  openOf st (e :: m) = openOf st m.
Proof.
  intros Hno. unfold openOf. cbn [omap list_omap].
  destruct (st !! snd e) as [t|]; [|reflexivity].
  apply filter_cons_False. apply Hno. reflexivity.
Qed.

(** The open trades of entries that do not refer to [r] are not affected by
    a write at [r]. *)
Lemma openOf_insert_other (st : list Trade) (m : list (Z * nat)) (r : nat) (t : Trade) :
  r ∉ fmap snd m -> openOf (<[r := t]> st) m = openOf st m.
Proof.
  intros Hr. unfold openOf. f_equal.
  induction m as [|e m IH]; [reflexivity|].
  cbn [omap list_omap]. rewrite fmap_cons in Hr. apply not_elem_of_cons in Hr as [Hne Hr].
  rewrite list_lookup_insert_ne by congruence. rewrite (IH Hr). reflexivity.
Qed.

(** The loop credits the payout of every OPEN trade it visits, once, in the
    order of the visit. *)
Lemma closeAll_balance (l : list (Z * nat)) (s : PaperTrader) :
  NoDup (fmap snd l) ->
  balance (fold_left close l s)
  = addEach (payoutOf outcome) (openOf (store s) l) (balance s).
Proof.
  revert s. induction l as [|e l IH]; intros s Hnd; [reflexivity|].
  rewrite fmap_cons in Hnd. apply NoDup_cons in Hnd as [Hfresh Hnd].
  cbn [fold_left]. rewrite (IH _ Hnd).
  destruct (closeEntry_cases s e) as [(t & Ht & Hopen & ->)|[Hno ->]].
  - cbn [store balance set_positions set_stats set_balance set_store].
    rewrite openOf_insert_other by assumption.
    rewrite (openOf_cons_open _ _ _ t Ht Hopen), addEach_cons. reflexivity.
  - rewrite (openOf_cons_skip _ _ _ Hno). reflexivity.
Qed.

(** After the loop over all its entries the map holds no OPEN trade. *)
Lemma closeAll_leaves_none_open (s : PaperTrader) :
  openPositions (fold_left close (positions s) s) = [].
Proof.
  unfold openPositions.
  pose proof (closeAll_positions (positions s) s) as Hsub.
  pose proof (fun e t' => closeAll_none_open (positions s) s e t') as Hclosed.
  set (s' := fold_left close (positions s) s) in *.
  assert (Hall : forall e, e ∈ positions s' -> e ∈ positions s).
  { intros e He. eapply elem_of_sublist; eassumption. }
  clear Hsub. induction (positions s') as [|e m IH]; [reflexivity|].
  cbn [omap list_omap]. destruct (store s' !! snd e) as [t'|] eqn:Ht'.
  - rewrite filter_cons_False.
    + apply IH. intros e' He'. apply Hall. right. exact He'.
    + eapply Hclosed; [|exact Ht']. apply Hall. left.
  - apply IH. intros e' He'. apply Hall. right. exact He'.
Qed.

End CloseEntry.


(** *** [settlePositions] as a whole *)

Lemma settleTrade_closes (outcome : Side) (currentPrice : number) (now : Z) (t : Trade) :
  tr_status (settleTrade outcome currentPrice now t) <> OPEN.
Proof. discriminate. Qed.

Lemma forceSettleTrade_closes (outcome : Side) (now : Z) (t : Trade) :
  tr_status (forceSettleTrade outcome now t) <> OPEN.
Proof. discriminate. Qed.

(** The loop of [settlePositions] when both prices are known. *)
Lemma settlePositions_runs (d : Snapshot) (now : Z) (s : PaperTrader)
    (currentPrice priceToBeat : number) :
  prices_chainlink d = Some currentPrice ->
  prices_priceToBeat d = Some priceToBeat ->
  settlePositions (Some d) now s
  = fold_left
      (closeEntry (settleTrade (outcomeOf currentPrice priceToBeat) currentPrice now)
         settleStats (outcomeOf currentPrice priceToBeat))
      (positions s) s.
Proof.
  intros Hc Hp. unfold settlePositions. rewrite Hc, Hp.
  destruct (positions s) as [|e m] eqn:Hm; reflexivity.
Qed.

(** Whatever [finalData] holds, [settlePositions] is the identity or the
    loop for some outcome and price. *)
Lemma settlePositions_cases (finalData : option Snapshot) (now : Z) (s : PaperTrader) :
  settlePositions finalData now s = s
  \/ exists outcome currentPrice,
      settlePositions finalData now s
      = fold_left (closeEntry (settleTrade outcome currentPrice now)
                     settleStats outcome) (positions s) s.
Proof.
  destruct finalData as [d|]; [|left; reflexivity].
  destruct (prices_chainlink d) as [c|] eqn:Hc.
  - destruct (prices_priceToBeat d) as [p|] eqn:Hp.
    + right. exists (outcomeOf c p), c. apply settlePositions_runs; assumption.
    + left. unfold settlePositions. rewrite Hc, Hp.
      destruct (length (positions s) =? 0)%nat; reflexivity.
  - left. unfold settlePositions. rewrite Hc.
    destruct (length (positions s) =? 0)%nat; reflexivity.
Qed.

Lemma outcomeOf_UP (currentPrice priceToBeat : number) :
  outcomeOf currentPrice priceToBeat = UP <-> priceToBeat < currentPrice.
Proof.
  unfold outcomeOf, Num.lt. destruct (Num.ltb priceToBeat currentPrice).
  - tauto.
  - split; discriminate.
Qed.

Lemma outcomeOf_DOWN (currentPrice priceToBeat : number) :
  outcomeOf currentPrice priceToBeat = DOWN <-> ~ priceToBeat < currentPrice.
Proof.
  unfold outcomeOf, Num.lt. destruct (Num.ltb priceToBeat currentPrice).
  - split; [discriminate | intros H; exfalso; apply H; reflexivity].
  - split; [discriminate | reflexivity].
Qed.

(** C2: with both prices known the outcome is UP exactly when the current
    price is strictly above the price to beat and DOWN otherwise; every OPEN
    position in the map is settled with payout shares x 1 when its side is
    the outcome and 0 otherwise, and pnl = payout - cost, the payout being
    added to the balance; when either price is null [settlePositions] changes nothing.  For price to beat 60000 and
    current price 60123 the outcome is UP; 125 shares bought for 50 pay 125
    (pnl +75) on the UP side and 0 (pnl -50) on the DOWN side. *)
Theorem settlePositions_pays_winning_side :
  (forall currentPrice priceToBeat,
      (outcomeOf currentPrice priceToBeat = UP <-> priceToBeat < currentPrice)
      /\ (outcomeOf currentPrice priceToBeat = DOWN
          <-> ~ priceToBeat < currentPrice))
  /\ (forall d now s currentPrice priceToBeat id ref t,
      prices_chainlink d = Some currentPrice ->
      prices_priceToBeat d = Some priceToBeat ->
      (id, ref) ∈ positions s ->
      store s !! ref = Some t ->
      tr_status t = OPEN ->
      let outcome := outcomeOf currentPrice priceToBeat in
      let payout := if bool_decide (tr_side t = outcome)
                    then tr_shares t * 1.0 else 0 in
      store (settlePositions (Some d) now s) !! ref
      = Some (settleTrade outcome currentPrice now t)
      /\ tr_status (settleTrade outcome currentPrice now t) = SETTLED
      /\ tr_outcome (settleTrade outcome currentPrice now t) = Some outcome
      /\ payoutOf outcome t = payout
      /\ tr_pnl (settleTrade outcome currentPrice now t)
         = Some (payout - tr_cost t))
  /\ (forall outcome currentPrice now s e t,
      store s !! snd e = Some t ->
      tr_status t = OPEN ->
      balance (settleEntry outcome currentPrice now s e)
      = balance s + (if bool_decide (tr_side t = outcome)
                     then tr_shares t * 1.0 else 0))
  /\ (forall d now s,
      prices_chainlink d = None \/ prices_priceToBeat d = None ->
      settlePositions (Some d) now s = s)
  /\ outcomeOf 60123 60000 = UP
  /\ (forall t,
      tr_shares t = 125 -> tr_cost t = 50 ->
      (tr_side t = UP -> payoutOf UP t = 125 /\ pnlOf UP t = 75)
      /\ (tr_side t = DOWN -> payoutOf UP t = 0 /\ pnlOf UP t = -50)).
Proof.
  split; [|split; [|split; [|split; [|split]]]].
  - intros c p. split; [apply outcomeOf_UP | apply outcomeOf_DOWN].
  - intros d now s c p id ref t Hc Hp Hin Ht Hopen outcome payout.
    rewrite (settlePositions_runs d now s c p Hc Hp). fold outcome.
    split; [|repeat split].
    apply (closeAll_marks _ _ _ (settleTrade_closes outcome c now)
             (positions s) s (id, ref) t Hin Ht Hopen).
  - intros outcome c now s e t Ht Hopen.
    rewrite settleEntry_closeEntry.
    apply (closeEntry_hit _ _ _ s e t Ht Hopen).
  - intros d now s Hnull. unfold settlePositions.
    destruct (length (positions s) =? 0)%nat; [reflexivity|].
    destruct Hnull as [-> | ->]; [reflexivity|].
    destruct (prices_chainlink d); reflexivity.
  - reflexivity.
  - intros t Hshares Hcost. unfold pnlOf, payoutOf, won.
    split; intros Hside; rewrite Hside, Hshares, Hcost;
      split; vm_compute; reflexivity.
Qed.

(** The position held on [entrySnapshot] is settled as a win when the market
    closes at 60123. *)
Lemma settlePositions_pays_winning_side_witness :
  store (settlePositions (Some closingSnapshot) 2000 heldTrader) !! 0%nat
  = Some (settleTrade UP 60123 2000 heldTrade)
  /\ tr_pnl (settleTrade UP 60123 2000 heldTrade)
     = Some (125 * 1.0 - tr_cost heldTrade).
Proof.
  destruct settlePositions_pays_winning_side as (_ & Hposition & _).
  destruct (Hposition closingSnapshot 2000%Z heldTrader 60123 60000
              1000%Z 0%nat heldTrade) as (Hstore & _ & _ & _ & Hpnl);
    try reflexivity.
  - apply list_elem_of_here.
  - split; [exact Hstore | exact Hpnl].
Defined.

(** *** The shape of the position map is kept *)

Lemma Forall_sublist {A} (P : A -> Prop) (l k : list A) :
  l `sublist_of` k -> Forall P k -> Forall P l.
Proof.
  intros Hsub Hk. apply Forall_forall. intros x Hx.
  eapply (proj1 (Forall_forall P k)); [exact Hk|].
  eapply elem_of_sublist; eassumption.
Qed.

(** A state whose map is a sub-list of another's, over a store of the same
    length, is well formed if the other is. *)
Lemma wellFormed_shrink (s s' : PaperTrader) :
  positions s' `sublist_of` positions s ->
  length (store s') = length (store s) ->
  wellFormed s -> wellFormed s'.
Proof.
  intros Hsub Hlen (Hids & Hrefs & Hvalid).
  unfold wellFormed. rewrite Hlen.
  repeat split.
  - exact (sublist_NoDup _ _ Hids (fmap_sublist fst _ _ Hsub)).
  - exact (sublist_NoDup _ _ Hrefs (fmap_sublist snd _ _ Hsub)).
  - eapply Forall_sublist; eassumption.
Qed.

Lemma stamped_shrink (s s' : PaperTrader) :
  positions s' `sublist_of` positions s ->
  cfg s' = cfg s ->
  lastTradeTime s' = lastTradeTime s ->
  stamped s -> stamped s'.
Proof.
  intros Hsub Hcfg Hlast (Hcool & Hclock).
  unfold stamped. rewrite Hcfg, Hlast.
  split; [assumption | eapply Forall_sublist; eassumption].
Qed.

Lemma freshId_shrink (now : Z) (s s' : PaperTrader) :
  positions s' `sublist_of` positions s -> freshId now s -> freshId now s'.
Proof.
  unfold freshId. intros Hsub Hfresh Hin. apply Hfresh.
  eapply elem_of_sublist; [exact Hin|]. apply fmap_sublist, Hsub.
Qed.

Lemma wellFormed_closeAll mark tally outcome (l : list (Z * nat)) (s : PaperTrader) :
  wellFormed s -> wellFormed (fold_left (closeEntry mark tally outcome) l s).
Proof.
  apply wellFormed_shrink; [apply closeAll_positions | apply closeAll_length].
Qed.

Lemma stamped_closeAll mark tally outcome (l : list (Z * nat)) (s : PaperTrader) :
  stamped s -> stamped (fold_left (closeEntry mark tally outcome) l s).
Proof.
  apply stamped_shrink;
    [apply closeAll_positions | apply closeAll_frame | apply closeAll_frame].
Qed.

Lemma wellFormed_settlePositions (finalData : option Snapshot) (now : Z) (s : PaperTrader) :
  wellFormed s -> wellFormed (settlePositions finalData now s).
Proof.
  intros Hwf.
  destruct (settlePositions_cases finalData now s) as [-> | (o & c & ->)];
    [assumption | apply wellFormed_closeAll; assumption].
Qed.

Lemma stamped_settlePositions (finalData : option Snapshot) (now : Z) (s : PaperTrader) :
  stamped s -> stamped (settlePositions finalData now s).
Proof.
  intros Hst.
  destruct (settlePositions_cases finalData now s) as [-> | (o & c & ->)];
    [assumption | apply stamped_closeAll; assumption].
Qed.

Lemma settlePositions_positions (finalData : option Snapshot) (now : Z)
    (s : PaperTrader) :
  positions (settlePositions finalData now s) `sublist_of` positions s.
Proof.
  destruct (settlePositions_cases finalData now s) as [-> | (o & c & ->)];
    [reflexivity | apply closeAll_positions].
Qed.

Lemma wellFormed_forceSettle (outcome : Side) (now : Z) (s : PaperTrader) :
  wellFormed s -> wellFormed (forceSettle outcome now s).
Proof. apply wellFormed_closeAll. Qed.

Lemma stamped_forceSettle (outcome : Side) (now : Z) (s : PaperTrader) :
  stamped s -> stamped (forceSettle outcome now s).
Proof. apply stamped_closeAll. Qed.

Lemma observe_positions (data : Snapshot) (now : Z) (s : PaperTrader) :
  positions (observe data now s) `sublist_of` positions s.
Proof.
  unfold observe. cbn [positions track].
  destruct (marketChanged data s);
    [apply settlePositions_positions | reflexivity].
Qed.

Lemma wellFormed_observe (data : Snapshot) (now : Z) (s : PaperTrader) :
  wellFormed s -> wellFormed (observe data now s).
Proof.
  intros Hwf. unfold observe.
  destruct (marketChanged data s);
    [apply wellFormed_settlePositions|]; exact Hwf.
Qed.

Lemma stamped_observe (data : Snapshot) (now : Z) (s : PaperTrader) :
  stamped s -> stamped (observe data now s).
Proof.
  intros Hst. unfold observe.
  destruct (marketChanged data s);
    [apply stamped_settlePositions|]; exact Hst.
Qed.

Lemma wellFormed_reset (newBalance : number) (record : bool) (now : Z) (s : PaperTrader) :
  wellFormed (reset newBalance record now s).
Proof. unfold wellFormed. cbn. repeat split; constructor. Qed.

Lemma stamped_reset (newBalance : number) (record : bool) (now : Z) (s : PaperTrader) :
  stamped s -> stamped (reset newBalance record now s).
Proof. intros [Hcool _]. split; [exact Hcool | constructor]. Qed.

(** *** Entry *)

Lemma map_set_fresh (id : Z) (ref : nat) (m : list (Z * nat)) :
  id ∉ fmap fst m -> map_set id ref m = m ++ [(id, ref)].
Proof.
  induction m as [|[k v] m IH]; intros Hfresh; [reflexivity|].
  rewrite fmap_cons in Hfresh. cbn [fst] in Hfresh. apply not_elem_of_cons in Hfresh as [Hne Hfresh].
  cbn [map_set]. destruct (Z.eqb_spec k id); [congruence|].
  rewrite (IH Hfresh). reflexivity.
Qed.

(** The cooldown gate keeps the id of a new trade apart from the ids in the
    map. *)
Lemma cooldown_makes_id_fresh (now : Z) (s : PaperTrader) :
  stamped s -> cooldownLeft now s = None -> freshId now s.
Proof.
  intros (Hcool & Hclock) Hleft Hin.
  apply list_elem_of_fmap in Hin as (e & -> & He).
  destruct (proj1 (Forall_forall _ _) Hclock e He) as (last & Hlast & Hnz & Hle).
  unfold cooldownLeft in Hleft. rewrite Hlast in Hleft.
  destruct (Z.eqb_spec last 0); [congruence|].
  destruct (Z.ltb_spec (fst e - last) (cooldownMs (cfg s))); [discriminate|].
  lia.
Qed.

Lemma openPositions_execute (t : Trade) (now : Z) (s : PaperTrader) :
  Forall (fun e => (snd e < length (store s))%nat) (positions s) ->
  tr_id t ∉ fmap fst (positions s) ->
  tr_status t = OPEN ->
  openPositions (execute t now s) = openPositions s ++ [t].
Proof.
  intros Hvalid Hfresh Hopen. unfold openPositions, execute. cbn.
  rewrite (map_set_fresh _ _ _ Hfresh), omap_app, filter_app.
  f_equal.
  - f_equal. clear Hfresh. induction Hvalid as [|e m He _ IH]; [reflexivity|].
    cbn [omap list_omap]. rewrite lookup_app_l by exact He. rewrite IH.
    reflexivity.
  - cbn. rewrite list_lookup_middle by reflexivity.
    rewrite filter_cons_True by exact Hopen. reflexivity.
Qed.

(** What the gates of [enter] leave behind when a trade is entered.  The
    comparisons are the code's own: [shares < 1] and [cost > balance] are
    both false. *)
Lemma enter_traded (data : Snapshot) (now : Z) (s s' : PaperTrader)
    (t : Trade) (b : number) :
  enter data now s = (s', Traded t b) ->
  s' = execute t now s /\ b = balance s'
  /\ tr_id t = now /\ tr_status t = OPEN
  /\ ~ tr_shares t < 1
  /\ ~ balance s < tr_cost t
  /\ 0 < tr_entryPrice t /\ tr_entryPrice t < 1
  /\ tr_cost t = tr_shares t * tr_entryPrice t.
Proof.
  unfold enter.
  destruct (sig_side (signal data)) as [side|]; [|discriminate].
  destruct (bool_decide (sig_action (signal data) = HOLD)); [discriminate|].
  destruct (Num.ltb (edgeValue (signal data)) (minEdge (cfg s))); [discriminate|].
  destruct (negb _ && negb _); [discriminate|].
  destruct (bool_decide (timing_phase data = LATE)); [discriminate|].
  destruct (priceFor side data) as [price|]; [|discriminate].
  destruct (invalidPrice (Some price)) eqn:Hprice; [discriminate|].
  case_ltb (sharesFor s (signal data) price) 1; [discriminate|].
  cbn [orb].
  destruct (Num.ltb (positionSize s (signal data)) 1); [discriminate|].
  case_ltb (balance s) (sharesFor s (signal data) price * price);
    [discriminate|].
  intros [= <- <- <-].
  cbn [tr_id tr_status tr_shares tr_cost tr_entryPrice mkTrade].
  cbn [invalidPrice] in Hprice.
  apply orb_false_iff in Hprice as [Hprice H1].
  apply orb_false_iff in Hprice as [Hnan H0].
  apply falsy_nan in Hnan.
  repeat split; try reflexivity.
  - apply ltb_not_lt. assumption.
  - apply ltb_not_lt. assumption.
  - apply lt_when_not_leb; [assumption | discriminate | assumption].
  - unfold Num.lt, Num.ltb. unfold Num.leb in H1.
    destruct (Num.compare 1 price) as [[| |]|] eqn:Hc; try discriminate.
    + rewrite (compare_antisym 1 price), Hc. reflexivity.
    + apply compare_none in Hc as [Hc | Hc]; [discriminate | contradiction].
Qed.

Lemma enter_rejected_state (data : Snapshot) (now : Z) (s s' : PaperTrader)
    (reason : Reason) :
  enter data now s = (s', NotTraded reason) -> s' = s.
Proof.
  unfold enter.
  repeat match goal with
         | |- context [match ?x with _ => _ end] => destruct x
         end; congruence.
Qed.

Lemma evaluateAndTrade_traded (data : Snapshot) (now : Z) (s s' : PaperTrader)
    (t : Trade) (b : number) :
  evaluateAndTrade data now s = (s', Traded t b) ->
  let s1 := observe data now s in
  enter data now s1 = (s', Traded t b)
  /\ enabled s1 = true /\ ~ balance s1 < autoResetThreshold
  /\ cooldownLeft now s1 = None.
Proof.
  intros Hev s1. unfold evaluateAndTrade in Hev. fold s1 in Hev.
  destruct (canTrade now s1) as [s2 [|reason]] eqn:Hcan; [|discriminate].
  apply canTrade_allowed in Hcan as (-> & Hen & Hbal & Hcool). auto.
Qed.

Lemma wellFormed_execute (t : Trade) (now : Z) (s : PaperTrader) :
  wellFormed s -> freshId (tr_id t) s -> wellFormed (execute t now s).
Proof.
  intros (Hids & Hrefs & Hvalid) Hfresh.
  unfold wellFormed, execute. cbn.
  rewrite (map_set_fresh _ _ _ Hfresh), !fmap_app. cbn.
  rewrite length_app. cbn.
  repeat split.
  - apply NoDup_app. repeat split; [assumption | | apply NoDup_singleton].
    intros x Hx Hx'. apply list_elem_of_singleton in Hx' as ->. contradiction.
  - apply NoDup_app. repeat split; [assumption | | apply NoDup_singleton].
    intros x Hx Hx'. apply list_elem_of_singleton in Hx' as ->.
    apply list_elem_of_fmap in Hx as (e & Heq & He).
    pose proof (proj1 (Forall_forall _ _) Hvalid e He) as Hlt. cbn in Hlt. lia.
  - apply Forall_app. split.
    + eapply Forall_impl; [exact Hvalid|]. cbn. intros; lia.
    + repeat constructor. cbn. lia.
Qed.

Lemma stamped_execute (t : Trade) (now : Z) (s : PaperTrader) :
  stamped s -> tr_id t = now -> now <> 0%Z ->
  cooldownLeft now s = None ->
  stamped (execute t now s).
Proof.
  intros Hst Hid Hnz Hleft.
  pose proof (cooldown_makes_id_fresh now s Hst Hleft) as Hfresh.
  destruct Hst as (Hcool & Hclock).
  assert (Hlater : Forall (fun e => (fst e <= now)%Z) (positions s)).
  { apply Forall_forall. intros e He.
    destruct (proj1 (Forall_forall _ _) Hclock e He) as (last & Hlast & Hlnz & Hle).
    unfold cooldownLeft in Hleft. rewrite Hlast in Hleft.
    destruct (Z.eqb_spec last 0); [congruence|].
    destruct (Z.ltb_spec (now - last) (cooldownMs (cfg s))); [discriminate|].
    lia. }
  unfold stamped, execute. cbn. rewrite Hid.
  rewrite (map_set_fresh _ _ _ Hfresh).
  split; [assumption|].
  apply Forall_app. split.
  - eapply Forall_impl; [exact Hlater|]. cbn. intros e He.
    exists now. auto.
  - repeat constructor. exists now. cbn. repeat split; [assumption | lia].
Qed.

(** A call of [evaluateAndTrade] leaves the state [observe] gives, that
    state after a reset, or that state with one trade executed. *)
Lemma evaluateAndTrade_cases (data : Snapshot) (now : Z) (s : PaperTrader) :
  let s1 := observe data now s in
  fst (evaluateAndTrade data now s) = s1
  \/ fst (evaluateAndTrade data now s)
     = reset (startingBalance s1) true now s1
  \/ exists t b,
       evaluateAndTrade data now s = (execute t now s1, Traded t b).
Proof.
  intros s1.
  destruct (evaluateAndTrade data now s) as [s' [reason|t b]] eqn:Hev.
  - unfold evaluateAndTrade in Hev. rewrite canTrade_cases in Hev.
    fold s1 in Hev. cbn [fst].
    destruct (negb (enabled s1)); [injection Hev as <- _; auto|].
    destruct (Num.ltb (balance s1) autoResetThreshold).
    { destruct (length (positions s1) =? 0)%nat; injection Hev as <- _; auto. }
    destruct (cooldownLeft now s1); [injection Hev as <- _; auto|].
    left. eapply enter_rejected_state. exact Hev.
  - right. right. exists t, b.
    apply evaluateAndTrade_traded in Hev as (Hent & _).
    fold s1 in Hent.
    apply enter_traded in Hent as (-> & _). reflexivity.
Qed.

Lemma wellFormed_evaluateAndTrade (data : Snapshot) (now : Z) (s : PaperTrader) :
  wellFormed s -> stamped s \/ freshId now s ->
  wellFormed (fst (evaluateAndTrade data now s)).
Proof.
  intros Hwf Hclock.
  pose proof (wellFormed_observe data now s Hwf) as Hwf1.
  destruct (evaluateAndTrade_cases data now s) as [-> | [-> | (t & b & Hev)]];
    [assumption | apply wellFormed_reset |].
  rewrite Hev. cbn [fst].
  apply evaluateAndTrade_traded in Hev as (Hent & _ & _ & Hleft).
  apply enter_traded in Hent as (_ & _ & Hid & _).
  apply wellFormed_execute; [assumption|]. rewrite Hid.
  destruct Hclock as [Hst | Hfresh].
  - apply cooldown_makes_id_fresh; [apply stamped_observe|]; assumption.
  - eapply freshId_shrink; [apply observe_positions | exact Hfresh].
Qed.

Lemma stamped_evaluateAndTrade (data : Snapshot) (now : Z) (s : PaperTrader) :
  stamped s -> now <> 0%Z -> stamped (fst (evaluateAndTrade data now s)).
Proof.
  intros Hst Hnz.
  pose proof (stamped_observe data now s Hst) as Hst1.
  destruct (evaluateAndTrade_cases data now s) as [-> | [-> | (t & b & Hev)]];
    [assumption | apply stamped_reset; assumption |].
  rewrite Hev. cbn [fst].
  apply evaluateAndTrade_traded in Hev as (Hent & _ & _ & Hleft).
  apply enter_traded in Hent as (_ & _ & Hid & _).
  apply stamped_execute; assumption.
Qed.

Lemma getStatus_state (now : Z) (s : PaperTrader) :
  fst (getStatus now s) = s
  \/ fst (getStatus now s) = reset (startingBalance s) true now s.
Proof.
  unfold getStatus, checkAutoReset. destruct (autoResetDue s); auto.
Qed.

Lemma wellFormed_step (op : Op) (s : PaperTrader) :
  wellFormed s ->
  match op with
  | OpEvaluate _ now => stamped s \/ freshId now s
  | _ => True
  end ->
  wellFormed (step s op).
Proof.
  intros Hwf Hclock. destruct op as [data now|fd now|o now|now| |]; cbn [step].
  - apply wellFormed_evaluateAndTrade; assumption.
  - apply wellFormed_settlePositions; assumption.
  - apply wellFormed_forceSettle; assumption.
  - destruct (getStatus_state now s) as [-> | ->];
      [assumption | apply wellFormed_reset].
  - exact Hwf.
  - exact Hwf.
Qed.

Lemma stamped_step (op : Op) (s : PaperTrader) :
  stamped s -> clockOk op -> stamped (step s op).
Proof.
  intros Hst Hclock. destruct op as [data now|fd now|o now|now| |]; cbn [step].
  - apply stamped_evaluateAndTrade; assumption.
  - apply stamped_settlePositions; assumption.
  - apply stamped_forceSettle; assumption.
  - destruct (getStatus_state now s) as [-> | ->];
      [assumption | apply stamped_reset; assumption].
  - exact Hst.
  - exact Hst.
Qed.

Lemma wellFormed_run (ops : list Op) (s : PaperTrader) :
  wellFormed s -> stamped s -> Forall clockOk ops ->
  wellFormed (run ops s) /\ stamped (run ops s).
Proof.
  intros Hwf Hst Hclock. revert s Hwf Hst.
  induction Hclock as [|op ops Hop _ IH]; intros s Hwf Hst; [auto|].
  cbn. apply IH.
  - apply wellFormed_step; [assumption|]. destruct op; auto.
  - apply stamped_step; assumption.
Qed.

Lemma wellFormed_run_fresh (ops : list Op) (s : PaperTrader) :
  wellFormed s -> freshClocks ops s -> wellFormed (run ops s).
Proof.
  revert s. induction ops as [|op ops IH]; intros s Hwf Hclock; [assumption|].
  destruct Hclock as [Hop Hrest]. cbn [run fold_left]. apply IH; [|exact Hrest].
  apply wellFormed_step; [assumption|]. destruct op; auto.
Qed.

Lemma wellFormed_new (options : Options) (now : Z) :
  wellFormed (newPaperTrader options now).
Proof. unfold wellFormed. cbn. repeat split; constructor. Qed.

Lemma stamped_new (options : Options) (now : Z) :
  (0 < orDefaultZ (opt_cooldownMs options) 30000)%Z ->
  stamped (newPaperTrader options now).
Proof. intros Hcool. split; [exact Hcool | constructor]. Qed.

Lemma wellFormed_fresh : wellFormed freshTrader.
Proof. unfold wellFormed. cbn. repeat split; constructor. Qed.

Lemma stamped_fresh : stamped freshTrader.
Proof. split; [reflexivity | constructor]. Qed.

Lemma wellFormed_held : wellFormed heldTrader.
Proof.
  apply (wellFormed_evaluateAndTrade entrySnapshot 1000 freshTrader);
    [exact wellFormed_fresh | left; exact stamped_fresh].
Qed.

(** *** Balance and open cost *)

(** C1, as the specification states it, fails: the engine keeps its money in
    doubles, and balance + cost of the open positions is conserved across a
    buy only up to rounding.  The fresh engine holds 1666 shares bought at
    0.03 (balance 950.02, open cost 49.98, together 1000); forty seconds
    later it buys 593 shares at 0.08 for 47.44, and balance + open cost is
    999.9999999999999. *)
Lemma balance_plus_open_cost_not_conserved :
  wellFormed cheapTrader
  /\ freshId 40000 cheapTrader
  /\ balance cheapTrader + openValue cheapTrader = 1000
  /\ evaluateAndTrade dearerSnapshot 40000 cheapTrader
     = (execute dearerTrade 40000 (observe dearerSnapshot 40000 cheapTrader),
        Traded dearerTrade (balance cheapTrader - 47.44))
  /\ tr_shares dearerTrade = 593
  /\ tr_cost dearerTrade = 47.44
  /\ balance (fst (evaluateAndTrade dearerSnapshot 40000 cheapTrader))
     + openValue (fst (evaluateAndTrade dearerSnapshot 40000 cheapTrader))
     <> balance (observe dearerSnapshot 40000 cheapTrader)
        + openValue (observe dearerSnapshot 40000 cheapTrader).
Proof.
  split; [|split; [|split; [|split; [|split; [|split]]]]].
  - apply (wellFormed_evaluateAndTrade cheapSnapshot 1000 freshTrader);
      [exact wellFormed_fresh | left; exact stamped_fresh].
  - unfold freshId. vm_compute. intros Hin.
    apply list_elem_of_singleton in Hin. discriminate.
  - vm_compute. reflexivity.
  - vm_compute. reflexivity.
  - vm_compute. reflexivity.
  - vm_compute. reflexivity.
  - vm_compute. discriminate.
Qed.

(** C1, amended: an accepted entry lowers the balance by the cost of the
    trade in one subtraction and files the trade as the last open position,
    so that the cost of the open positions grows by that cost in one
    addition; the settlement of an OPEN position raises the balance by the
    payout of that position in one addition, and [settlePositions] adds the
    payouts of the open positions one after the other and leaves no position
    open.  Each of these operations rounds as a double does.  The engine
    state the entry is decided on is the one [observe] leaves.  The facts
    about the open positions are stated for well-formed states and an id
    that no held position has; a new or resumed engine is well formed, the
    cooldown keeps the id new, and every run keeps the state well formed. *)
Theorem balance_moves_by_cost_and_payout :
  (forall data now s s' t b,
      evaluateAndTrade data now s = (s', Traded t b) ->
      let s1 := observe data now s in
      balance s' = balance s1 - tr_cost t
      /\ b = balance s'
      /\ (wellFormed s -> stamped s \/ freshId now s ->
          openPositions s' = openPositions s1 ++ [t]
          /\ openValue s' = openValue s1 + tr_cost t))
  /\ (forall outcome currentPrice now s e t,
      store s !! snd e = Some t -> tr_status t = OPEN ->
      balance (settleEntry outcome currentPrice now s e)
      = balance s + payoutOf outcome t)
  /\ (forall d now s currentPrice priceToBeat,
      wellFormed s ->
      prices_chainlink d = Some currentPrice ->
      prices_priceToBeat d = Some priceToBeat ->
      let outcome := outcomeOf currentPrice priceToBeat in
      let s' := settlePositions (Some d) now s in
      balance s' = addEach (payoutOf outcome) (openPositions s) (balance s)
      /\ openPositions s' = []
      /\ openValue s' = 0)
  /\ (forall options now,
      wellFormed (newPaperTrader options now)
      /\ ((0 < orDefaultZ (opt_cooldownMs options) 30000)%Z ->
          stamped (newPaperTrader options now)))
  /\ (forall ops s,
      wellFormed s -> stamped s -> Forall clockOk ops ->
      wellFormed (run ops s) /\ stamped (run ops s))
  /\ (forall ops s,
      wellFormed s -> freshClocks ops s -> wellFormed (run ops s)).
Proof.
  split; [|split; [|split; [|split; [|split]]]].
  - intros data now s s' t b Hev s1.
    apply evaluateAndTrade_traded in Hev as (Hent & _ & _ & Hleft).
    fold s1 in Hent, Hleft.
    apply enter_traded in Hent as (-> & -> & Hid & Hopen & _).
    split; [reflexivity|]. split; [reflexivity|].
    intros Hwf Hclock.
    assert (Hfresh : freshId now s1).
    { destruct Hclock as [Hst | Hfresh].
      - apply cooldown_makes_id_fresh; [apply stamped_observe|]; assumption.
      - eapply freshId_shrink; [apply observe_positions | exact Hfresh]. }
    apply (wellFormed_observe data now) in Hwf. fold s1 in Hwf.
    assert (Hopens : openPositions (execute t now s1) = openPositions s1 ++ [t]).
    { apply openPositions_execute;
        [apply Hwf | rewrite Hid; exact Hfresh | exact Hopen]. }
    split; [exact Hopens|].
    rewrite !openValue_addEach, Hopens, addEach_app. reflexivity.
  - intros outcome currentPrice now s e t Ht Hopen.
    rewrite settleEntry_closeEntry.
    apply (closeEntry_hit _ _ _ s e t Ht Hopen).
  - intros d now s c p Hwf Hc Hp outcome s'.
    assert (Hnone : openPositions s' = []).
    { unfold s'. rewrite (settlePositions_runs d now s c p Hc Hp).
      apply closeAll_leaves_none_open, settleTrade_closes. }
    split; [|split; [exact Hnone|]].
    + unfold s'. rewrite (settlePositions_runs d now s c p Hc Hp).
      apply closeAll_balance. apply Hwf.
    + rewrite openValue_addEach, Hnone. reflexivity.
  - intros options now. split; [apply wellFormed_new | apply stamped_new].
  - exact wellFormed_run.
  - exact wellFormed_run_fresh.
Qed.

(** The buy on [entrySnapshot] and the settlement on [closingSnapshot]. *)
Lemma balance_moves_by_cost_and_payout_witness :
  (balance heldTrader
   = balance (observe entrySnapshot 1000 freshTrader) - tr_cost heldTrade
   /\ openValue heldTrader
      = openValue (observe entrySnapshot 1000 freshTrader) + tr_cost heldTrade)
  /\ balance (settlePositions (Some closingSnapshot) 2000 heldTrader)
     = addEach (payoutOf (outcomeOf 60123 60000)) (openPositions heldTrader)
         (balance heldTrader).
Proof.
  destruct balance_moves_by_cost_and_payout as (Hentry & _ & Hsettle & _).
  split.
  - destruct (Hentry entrySnapshot 1000%Z freshTrader heldTrader heldTrade
                (balance heldTrader) eq_refl) as (Hcost & _ & Hkept).
    split; [exact Hcost|].
    apply Hkept; [exact wellFormed_fresh | left; exact stamped_fresh].
  - apply (Hsettle closingSnapshot 2000%Z heldTrader 60123 60000);
      [exact wellFormed_held | reflexivity | reflexivity].
Defined.

(** *** Safety bounds *)

Lemma payoutOf_not_negative (outcome : Side) (t : Trade) :
  Num.ltb (tr_shares t) 0 = false -> Num.ltb (payoutOf outcome t) 0 = false.
Proof.
  intros Hshares. unfold payoutOf. destruct (won outcome t); [|reflexivity].
  apply mul_not_negative; [exact Hshares | reflexivity].
Qed.

Lemma safe_closeEntry mark tally outcome (s : PaperTrader) (e : Z * nat) :
  (forall t, tr_shares (mark t) = tr_shares t) ->
  safe s -> safe (closeEntry mark tally outcome s e).
Proof.
  intros Hmark (Hstart & Hbal & Hshares).
  destruct (closeEntry_cases mark tally outcome s e)
    as [(t & Ht & _ & ->)|[_ ->]]; [|repeat split; assumption].
  assert (Ht0 : Num.ltb (tr_shares t) 0 = false).
  { apply (proj1 (Forall_lookup _ _) Hshares _ _ Ht). }
  unfold safe.
  cbn [startingBalance balance store set_positions set_stats set_balance
       set_store].
  repeat split; try assumption.
  - apply add_not_negative; [assumption | apply payoutOf_not_negative, Ht0].
  - apply Forall_insert; [assumption|]. rewrite Hmark. assumption.
Qed.

Lemma safe_closeAll mark tally outcome (l : list (Z * nat)) (s : PaperTrader) :
  (forall t, tr_shares (mark t) = tr_shares t) ->
  safe s -> safe (fold_left (closeEntry mark tally outcome) l s).
Proof.
  intros Hmark. revert s. induction l as [|e l IH]; intros s Hs; [assumption|].
  cbn. apply IH, safe_closeEntry; assumption.
Qed.

Lemma safe_settlePositions (finalData : option Snapshot) (now : Z) (s : PaperTrader) :
  safe s -> safe (settlePositions finalData now s).
Proof.
  intros Hs.
  destruct (settlePositions_cases finalData now s) as [-> | (o & c & ->)];
    [assumption | apply safe_closeAll; [reflexivity | assumption]].
Qed.

Lemma safe_forceSettle (outcome : Side) (now : Z) (s : PaperTrader) :
  safe s -> safe (forceSettle outcome now s).
Proof. apply safe_closeAll. reflexivity. Qed.

Lemma safe_observe (data : Snapshot) (now : Z) (s : PaperTrader) :
  safe s -> safe (observe data now s).
Proof.
  intros Hs. unfold observe.
  destruct (marketChanged data s); [apply safe_settlePositions|]; exact Hs.
Qed.

Lemma safe_autoReset (now : Z) (s : PaperTrader) :
  safe s -> safe (reset (startingBalance s) true now s).
Proof.
  intros (Hstart & Hbal & Hshares). unfold safe.
  cbn [startingBalance balance store reset].
  repeat split; assumption.
Qed.

(** The cost gate is what keeps an entry from overdrawing the balance, and
    the share gate what keeps the share count of a trade from being
    negative. *)
Lemma safe_execute (data : Snapshot) (now : Z) (s s' : PaperTrader)
    (t : Trade) (b : number) :
  safe s -> enter data now s = (s', Traded t b) -> safe s'.
Proof.
  intros (Hstart & Hbal & Hall) Hent.
  apply enter_traded in Hent as (-> & _ & _ & _ & Hshares & Hcost & _).
  unfold safe, execute.
  cbn [startingBalance balance store set_positions set_trades set_store
       set_lastTradeTime set_balance].
  repeat split; try assumption.
  - apply sub_not_negative, ltb_not_lt, Hcost.
  - apply Forall_app. split; [assumption|]. repeat constructor.
    apply not_below_one, ltb_not_lt, Hshares.
Qed.

Lemma safe_evaluateAndTrade (data : Snapshot) (now : Z) (s : PaperTrader) :
  safe s -> safe (fst (evaluateAndTrade data now s)).
Proof.
  intros Hs. apply (safe_observe data now) in Hs.
  destruct (evaluateAndTrade_cases data now s) as [-> | [-> | (t & b & Hev)]];
    [assumption | apply safe_autoReset; assumption |].
  pose proof Hev as Hent.
  apply evaluateAndTrade_traded in Hent as (Hent & _).
  rewrite Hev. cbn [fst]. eapply safe_execute; eassumption.
Qed.

Lemma safe_step (op : Op) (s : PaperTrader) : safe s -> safe (step s op).
Proof.
  intros Hs. destruct op as [data now|fd now|o now|now| |]; cbn [step].
  - apply safe_evaluateAndTrade; assumption.
  - apply safe_settlePositions; assumption.
  - apply safe_forceSettle; assumption.
  - destruct (getStatus_state now s) as [-> | ->];
      [assumption | apply safe_autoReset; assumption].
  - exact Hs.
  - exact Hs.
Qed.

Lemma safe_run (ops : list Op) (s : PaperTrader) : safe s -> safe (run ops s).
Proof.
  revert s. induction ops as [|op ops IH]; intros s Hs; [assumption|].
  cbn. apply IH, safe_step, Hs.
Qed.




(** *** The worked sizing example *)

(** C3: with balance 1000, edge 0.25 against a minimum of 0.10, a cap of
    0.05, a STRONG signal in the MID phase and a market price of 0.40, the
    position is floor(min(1000 x min(0.125, 0.05), 1000 x 0.05) / 0.40) = 125
    shares at a cost of 50, and the balance becomes 950. *)
Theorem sizing_example :
  forall data now s side e price,
    enabled s = true ->
    marketChanged data s = false ->
    cooldownLeft now s = None ->
    balance s = 1000 ->
    minEdge (cfg s) = 0.10 ->
    maxPositionPct (cfg s) = 0.05 ->
    sig_action (signal data) <> HOLD ->
    sig_side (signal data) = Some side ->
    sig_edge (signal data) = Some e -> e / 100 = 0.25 ->
    sig_strength (signal data) = Some STRONG ->
    timing_phase data = MID ->
    priceFor side data = Some price -> price = 0.40 ->
    kellyFraction (cfg s) (signal data) = Num.min 0.125 0.05
    /\ positionSize s (signal data)
       = Num.min (1000 * Num.min 0.125 0.05) (1000 * 0.05)
    /\ sharesFor s (signal data) price
       = Num.floor (Num.min (1000 * Num.min 0.125 0.05) (1000 * 0.05)
                    / 0.40)
    /\ exists t s',
        evaluateAndTrade data now s = (s', Traded t (balance s'))
        /\ tr_shares t = sharesFor s (signal data) price
        /\ tr_shares t = 125
        /\ tr_cost t = 50
        /\ balance s' = 950.
Proof.
  intros data now s side e price Hen Hsame Hcool Hbal Hmin Hmax Hact Hside
    Hedge He Hstrong Hphase Hprice Hp.
  assert (Hev : edgeValue (signal data) = 0.25).
  { unfold edgeValue. rewrite Hedge. exact He. }
  assert (Hkf : kellyFraction (cfg s) (signal data) = Num.min 0.125 0.05).
  { unfold kellyFraction. rewrite Hev, Hmax. vm_compute. reflexivity. }
  assert (Hps : positionSize s (signal data)
                = Num.min (1000 * Num.min 0.125 0.05) (1000 * 0.05)).
  { unfold positionSize. rewrite Hkf, Hmax, Hbal. reflexivity. }
  assert (Hsh : sharesFor s (signal data) price
                = Num.floor (Num.min (1000 * Num.min 0.125 0.05)
                               (1000 * 0.05) / 0.40)).
  { unfold sharesFor. rewrite Hps, Hp. reflexivity. }
  split; [exact Hkf|]. split; [exact Hps|]. split; [exact Hsh|].
  assert (Hobs : observe data now s = track data s).
  { unfold observe. rewrite Hsame. reflexivity. }
  set (s1 := track data s).
  assert (Hs1 : positionSize s1 (signal data) = positionSize s (signal data)
                /\ sharesFor s1 (signal data) price = sharesFor s (signal data) price)
    by (split; reflexivity).
  destruct Hs1 as [Hps1 Hsh1].
  assert (Hsize : positionSize s (signal data) = 50).
  { rewrite Hps. vm_compute. reflexivity. }
  assert (Hshares : sharesFor s (signal data) price = 125).
  { rewrite Hsh. vm_compute. reflexivity. }
  unfold evaluateAndTrade. rewrite Hobs. fold s1. rewrite canTrade_cases.
  change (enabled s1) with (enabled s). rewrite Hen. cbn [negb].
  change (balance s1) with (balance s). rewrite Hbal.
  change (Num.ltb 1000 autoResetThreshold) with false.
  change (cooldownLeft now s1) with (cooldownLeft now s). rewrite Hcool.
  unfold enter. rewrite Hside, (bool_decide_eq_false_2 _ Hact).
  change (cfg s1) with (cfg s). rewrite Hev, Hmin.
  change (Num.ltb 0.25 0.10) with false.
  rewrite Hstrong, Hphase, Hprice.
  rewrite (bool_decide_eq_true_2 (Some STRONG = Some STRONG)) by reflexivity.
  rewrite (bool_decide_eq_false_2 (MID = LATE)) by discriminate.
  cbn [negb andb].
  rewrite Hp. change (invalidPrice (Some 0.40)) with false.
  rewrite Hp in Hsh1, Hshares. rewrite Hsh1, Hps1, Hshares, Hsize.
  change (Num.ltb 125 1 || Num.ltb 50 1) with false.
  change (balance s1) with (balance s). rewrite Hbal.
  change (Num.ltb 1000 (125 * 0.40)) with false.
  eexists. eexists. split; [reflexivity|].
  cbn [tr_shares tr_cost mkTrade]. split; [reflexivity|].
  split; [reflexivity|]. split.
  - vm_compute. reflexivity.
  - unfold execute.
    cbn [balance set_positions set_trades set_store set_lastTradeTime
         set_balance tr_cost mkTrade].
    change (balance s1) with (balance s). rewrite Hbal.
    vm_compute. reflexivity.
Qed.

(** The example on the fresh engine. *)
Lemma sizing_example_witness :
  exists t s',
    evaluateAndTrade entrySnapshot 1000 freshTrader
    = (s', Traded t (balance s'))
    /\ tr_shares t = 125 /\ tr_cost t = 50 /\ balance s' = 950.
Proof.
  destruct (sizing_example entrySnapshot 1000 freshTrader UP 25 0.40)
    as (_ & _ & _ & t & s' & Hev & _ & Hshares & Hcost & Hbal);
    try reflexivity; [discriminate|].
  exists t, s'. auto.
Defined.

End PaperFacts.
(** * Further properties of the code *)

(** ** The books of the paper engine *)

Section BooksFacts.
Import Paper Books.
Local Open Scope num_scope.

(** *** What a call can do to the engine *)

(** The state [evaluateAndTrade] returns is the observed state, its reset,
    or the observed state with one trade executed past the cooldown. *)
Lemma evaluateAndTrade_state (data : Snapshot) (now : Z) (s : PaperTrader) :
  let s1 := observe data now s in
  fst (evaluateAndTrade data now s) = s1
  \/ fst (evaluateAndTrade data now s) = reset (startingBalance s1) true now s1
  \/ exists t,
      fst (evaluateAndTrade data now s) = execute t now s1
      /\ tr_id t = now /\ tr_status t = OPEN
      /\ cooldownLeft now s1 = None.
Proof.
  intros s1.
  destruct (evaluateAndTrade data now s) as [s' [reason|t b]] eqn:Hev.
  - unfold evaluateAndTrade in Hev. fold s1 in Hev.
    rewrite canTrade_cases in Hev. cbn [fst].
    destruct (negb (enabled s1)); [left; congruence|].
    destruct (Num.ltb (balance s1) autoResetThreshold).
    { destruct (length (positions s1) =? 0)%nat;
        [right; left | left]; congruence. }
    destruct (cooldownLeft now s1); [left; congruence|].
    left. eapply enter_rejected_state. exact Hev.
  - apply evaluateAndTrade_traded in Hev as (Hent & _ & _ & Hleft).
    apply enter_traded in Hent as (-> & _ & Hid & Hopen & _).
    right. right. exists t. auto.
Qed.

(** *** Counters and streaks *)

Section StatsInvariant.
Variable P : Stats -> Prop.
Hypothesis P_init : P initStats.
Hypothesis P_settle : forall pnl st, P st -> P (settleStats pnl st).
Hypothesis P_force : forall pnl st, P st -> P (forceSettleStats pnl st).

Lemma stats_closeAll mark tally outcome (l : list (Z * nat)) (s : PaperTrader) :
  (forall pnl st, P st -> P (tally pnl st)) ->
  P (stats s) -> P (stats (fold_left (closeEntry mark tally outcome) l s)).
Proof.
  intros Htally. revert s. induction l as [|e l IH]; intros s Hs; [exact Hs|].
  cbn [fold_left]. apply IH.
  destruct (closeEntry_cases mark tally outcome s e)
    as [(t & _ & _ & ->)|[_ ->]]; [|exact Hs].
  cbn. apply Htally, Hs.
Qed.

Lemma stats_settlePositions (finalData : option Snapshot) (now : Z)
    (s : PaperTrader) :
  P (stats s) -> P (stats (settlePositions finalData now s)).
Proof.
  intros Hs.
  destruct (settlePositions_cases finalData now s) as [-> | (o & c & ->)];
    [exact Hs | apply stats_closeAll; [exact P_settle | exact Hs]].
Qed.

Lemma stats_forceSettle (outcome : Side) (now : Z) (s : PaperTrader) :
  P (stats s) -> P (stats (forceSettle outcome now s)).
Proof. apply stats_closeAll. exact P_force. Qed.

Lemma stats_observe (data : Snapshot) (now : Z) (s : PaperTrader) :
  P (stats s) -> P (stats (observe data now s)).
Proof.
  intros Hs. unfold observe. cbn [stats track].
  destruct (marketChanged data s); [apply stats_settlePositions|]; exact Hs.
Qed.

Lemma stats_getStatus (now : Z) (s : PaperTrader) :
  P (stats s) -> P (stats (fst (getStatus now s))).
Proof.
  intros Hs. destruct (getStatus_state now s) as [-> | ->];
    [exact Hs | exact P_init].
Qed.

Lemma stats_step (op : Op) (s : PaperTrader) :
  P (stats s) -> P (stats (step s op)).
Proof.
  intros Hs. destruct op as [data now|fd now|o now|now| |]; cbn [step].
  - pose proof (stats_observe data now s Hs) as H1.
    destruct (evaluateAndTrade_state data now s) as [-> | [-> | (t & -> & _)]];
      [exact H1 | exact P_init | exact H1].
  - apply stats_settlePositions, Hs.
  - apply stats_forceSettle, Hs.
  - apply stats_getStatus, Hs.
  - exact Hs.
  - exact Hs.
Qed.

Lemma stats_call (c : Call) (s : PaperTrader) :
  P (stats s) -> P (stats (call s c)).
Proof.
  intros Hs. destruct c as [op|sb now|o now]; cbn [call].
  - apply stats_step, Hs.
  - unfold apiReset. apply stats_getStatus. exact P_init.
  - unfold apiSettle. apply stats_getStatus.
    destruct o; [apply stats_forceSettle|]; exact Hs.
Qed.

Lemma stats_calls (cs : list Call) (s : PaperTrader) :
  P (stats s) -> P (stats (calls cs s)).
Proof.
  revert s. induction cs as [|c cs IH]; intros s Hs; [exact Hs|].
  cbn. apply IH, stats_call, Hs.
Qed.

End StatsInvariant.

(** X1: over every sequence of calls on the engine, from a session whose
    counters agree (a new session does), every settled trade is counted as
    exactly one win or one loss: wins + losses = totalTrades, none of them
    negative. *)
Theorem wins_plus_losses_is_totalTrades :
  forall (cs : list Call) (s : PaperTrader),
    countersAgree (stats s) ->
    (st_wins (stats (calls cs s)) + st_losses (stats (calls cs s))
     = st_totalTrades (stats (calls cs s)))%Z
    /\ (0 <= st_wins (stats (calls cs s)))%Z
    /\ (0 <= st_losses (stats (calls cs s)))%Z.
Proof.
  intros cs s Hs. apply (stats_calls countersAgree); try exact Hs.
  - unfold countersAgree. cbn. lia.
  - intros pnl st (Hsum & Hw & Hl). unfold countersAgree, settleStats.
    destruct (Num.ltb 0 pnl); cbn; lia.
  - intros pnl st (Hsum & Hw & Hl). unfold countersAgree, forceSettleStats.
    destruct (Num.ltb 0 pnl); cbn; lia.
Qed.

(** The counters after [sessionCalls] on a fresh engine. *)
Lemma wins_plus_losses_is_totalTrades_witness :
  (st_wins (stats (calls Scenarios.sessionCalls freshTrader))
   + st_losses (stats (calls Scenarios.sessionCalls freshTrader))
   = st_totalTrades (stats (calls Scenarios.sessionCalls freshTrader)))%Z
  /\ (0 <= st_wins (stats (calls Scenarios.sessionCalls freshTrader)))%Z
  /\ (0 <= st_losses (stats (calls Scenarios.sessionCalls freshTrader)))%Z.
Proof.
  apply (wins_plus_losses_is_totalTrades Scenarios.sessionCalls freshTrader).
  unfold countersAgree. cbn. lia.
Defined.

(** X2: over every sequence of calls, the current streak lies between the
    worst and the best streak, the best streak is at least 0 and at most the
    number of wins, and the worst streak is at most 0 and at least minus the
    number of losses. *)
Theorem streaks_stay_bounded :
  forall (cs : list Call) (s : PaperTrader),
    streaksBounded (stats s) ->
    let st := stats (calls cs s) in
    (st_worstStreak st <= st_currentStreak st <= st_bestStreak st)%Z
    /\ (- st_losses st <= st_worstStreak st <= 0)%Z
    /\ (0 <= st_bestStreak st <= st_wins st)%Z.
Proof.
  intros cs s Hs. apply (stats_calls streaksBounded); try exact Hs.
  - unfold streaksBounded. cbn. lia.
  - intros pnl st (Hcur & Hworst & Hbest). unfold streaksBounded, settleStats.
    destruct (Num.ltb 0 pnl); cbn; lia.
  - intros pnl st (Hcur & Hworst & Hbest).
    unfold streaksBounded, forceSettleStats.
    destruct (Num.ltb 0 pnl); cbn; lia.
Qed.

(** The streaks after [sessionCalls] on a fresh engine. *)
Lemma streaks_stay_bounded_witness :
  let st := stats (calls Scenarios.sessionCalls freshTrader) in
  (st_worstStreak st <= st_currentStreak st <= st_bestStreak st)%Z
  /\ (- st_losses st <= st_worstStreak st <= 0)%Z
  /\ (0 <= st_bestStreak st <= st_wins st)%Z.
Proof.
  apply (streaks_stay_bounded Scenarios.sessionCalls freshTrader).
  unfold streaksBounded. cbn. lia.
Defined.

(** *** What the settlement loops book *)

Section Booking.
Variable mark : Trade -> Trade.
Variable tally : number -> Stats -> Stats.
Variable outcome : Side.

(** The loop counts every OPEN trade it visits, once. *)
Lemma closeAll_counts (l : list (Z * nat)) (s : PaperTrader) :
  (forall pnl st, st_totalTrades (tally pnl st) = (st_totalTrades st + 1)%Z) ->
  NoDup (fmap snd l) ->
  st_totalTrades (stats (fold_left (closeEntry mark tally outcome) l s))
  = (st_totalTrades (stats s) + Z.of_nat (length (openOf (store s) l)))%Z.
Proof.
  intros tally_counts. revert s. induction l as [|e l IH]; intros s Hnd.
  - cbn. lia.
  - rewrite fmap_cons in Hnd. apply NoDup_cons in Hnd as [Hfresh Hnd].
    cbn [fold_left]. rewrite (IH _ Hnd).
    destruct (closeEntry_cases mark tally outcome s e)
      as [(t & Ht & Hopen & ->)|[Hno ->]].
    + cbn [store stats set_positions set_stats set_balance set_store].
      rewrite openOf_insert_other by assumption.
      rewrite (openOf_cons_open _ _ _ t Ht Hopen), tally_counts.
      cbn [length]. lia.
    + rewrite (openOf_cons_skip _ _ _ Hno). reflexivity.
Qed.

(** A field of the stats that [tally] updates by [book] is, after the loop,
    [book] folded over the pnl of the OPEN trades visited, in their order. *)
Lemma closeAll_books (field : Stats -> number)
    (book : number -> number -> number)
    (l : list (Z * nat)) (s : PaperTrader) :
  (forall pnl st, field (tally pnl st) = book (field st) pnl) ->
  NoDup (fmap snd l) ->
  field (stats (fold_left (closeEntry mark tally outcome) l s))
  = fold_left book (fmap (pnlOf outcome) (openOf (store s) l))
      (field (stats s)).
Proof.
  intros tally_books. revert s. induction l as [|e l IH]; intros s Hnd.
  - reflexivity.
  - rewrite fmap_cons in Hnd. apply NoDup_cons in Hnd as [Hfresh Hnd].
    cbn [fold_left]. rewrite (IH _ Hnd).
    destruct (closeEntry_cases mark tally outcome s e)
      as [(t & Ht & Hopen & ->)|[Hno ->]].
    + cbn [store stats set_positions set_stats set_balance set_store].
      rewrite openOf_insert_other by assumption.
      rewrite (openOf_cons_open _ _ _ t Ht Hopen), tally_books.
      reflexivity.
    + rewrite (openOf_cons_skip _ _ _ Hno). reflexivity.
Qed.

End Booking.

(** *** Forced settlement *)

(** X4: [forceSettle] on a well-formed engine marks every OPEN position of
    the map FORCE_SETTLED with pnl = payout - cost, credits the balance with
    the payouts, one addition for each in the order of the map, leaves no open position, and counts each of them
    once in [totalTrades]; unlike [settlePositions] it leaves the streaks
    and the largest win and loss as they were. *)
Theorem forceSettle_settles_every_open_position :
  forall (outcome : Side) (now : Z) (s : PaperTrader),
    wellFormed s ->
    let s' := forceSettle outcome now s in
    (forall id ref t,
        (id, ref) ∈ positions s -> store s !! ref = Some t ->
        tr_status t = OPEN ->
        store s' !! ref = Some (forceSettleTrade outcome now t)
        /\ tr_status (forceSettleTrade outcome now t) = FORCE_SETTLED
        /\ tr_pnl (forceSettleTrade outcome now t)
           = Some (payoutOf outcome t - tr_cost t))
    /\ balance s' = addEach (payoutOf outcome) (openPositions s) (balance s)
    /\ openPositions s' = []
    /\ st_totalTrades (stats s')
       = (st_totalTrades (stats s) + Z.of_nat (length (openPositions s)))%Z
    /\ st_currentStreak (stats s') = st_currentStreak (stats s)
    /\ st_bestStreak (stats s') = st_bestStreak (stats s)
    /\ st_worstStreak (stats s') = st_worstStreak (stats s)
    /\ st_largestWin (stats s') = st_largestWin (stats s)
    /\ st_largestLoss (stats s') = st_largestLoss (stats s).
Proof.
  intros outcome now s Hwf s'.
  pose proof (proj1 (proj2 Hwf)) as Hrefs.
  split; [|split; [|split; [|split]]].
  - intros id ref t Hin Ht Hopen. split; [|split; reflexivity].
    apply (closeAll_marks _ _ _ (forceSettleTrade_closes outcome now)
             (positions s) s (id, ref) t Hin Ht Hopen).
  - apply closeAll_balance, Hrefs.
  - apply closeAll_leaves_none_open, forceSettleTrade_closes.
  - apply (closeAll_counts (forceSettleTrade outcome now) forceSettleStats
             outcome); [reflexivity | exact Hrefs].
  - apply (stats_closeAll
             (fun st => st_currentStreak st = st_currentStreak (stats s)
                        /\ st_bestStreak st = st_bestStreak (stats s)
                        /\ st_worstStreak st = st_worstStreak (stats s)
                        /\ st_largestWin st = st_largestWin (stats s)
                        /\ st_largestLoss st = st_largestLoss (stats s)));
      [|repeat split].
    intros pnl st Hst. exact Hst.
Qed.

(** A forced settlement DOWN of the engine that holds [heldTrade]. *)
Lemma forceSettle_settles_every_open_position_witness :
  let s' := forceSettle DOWN 5000 heldTrader in
  (forall id ref t,
      (id, ref) ∈ positions heldTrader -> store heldTrader !! ref = Some t ->
      tr_status t = OPEN ->
      store s' !! ref = Some (forceSettleTrade DOWN 5000 t)
      /\ tr_status (forceSettleTrade DOWN 5000 t) = FORCE_SETTLED
      /\ tr_pnl (forceSettleTrade DOWN 5000 t)
         = Some (payoutOf DOWN t - tr_cost t))
  /\ balance s' = addEach (payoutOf DOWN) (openPositions heldTrader)
                   (balance heldTrader)
  /\ openPositions s' = []
  /\ st_totalTrades (stats s')
     = (st_totalTrades (stats heldTrader)
        + Z.of_nat (length (openPositions heldTrader)))%Z
  /\ st_currentStreak (stats s') = st_currentStreak (stats heldTrader)
  /\ st_bestStreak (stats s') = st_bestStreak (stats heldTrader)
  /\ st_worstStreak (stats s') = st_worstStreak (stats heldTrader)
  /\ st_largestWin (stats s') = st_largestWin (stats heldTrader)
  /\ st_largestLoss (stats s') = st_largestLoss (stats heldTrader).
Proof.
  apply (forceSettle_settles_every_open_position DOWN 5000 heldTrader).
  exact wellFormed_held.
Defined.

(** X5: [settlePositions] with both prices known books every OPEN position
    of a well-formed engine exactly once: [totalTrades] grows by the number
    of open positions; [totalWon] receives the pnl of the positions settled
    with a pnl above 0 and [totalLost] the absolute pnl of the others, one
    addition for each position in the order of the map. *)
Theorem settlePositions_books_each_position_once :
  forall (d : Snapshot) (now : Z) (s : PaperTrader)
         (currentPrice priceToBeat : number),
    wellFormed s ->
    prices_chainlink d = Some currentPrice ->
    prices_priceToBeat d = Some priceToBeat ->
    let outcome := outcomeOf currentPrice priceToBeat in
    let s' := settlePositions (Some d) now s in
    st_totalTrades (stats s')
    = (st_totalTrades (stats s) + Z.of_nat (length (openPositions s)))%Z
    /\ st_totalWon (stats s')
       = fold_left bookWon (fmap (pnlOf outcome) (openPositions s))
           (st_totalWon (stats s))
    /\ st_totalLost (stats s')
       = fold_left bookLost (fmap (pnlOf outcome) (openPositions s))
           (st_totalLost (stats s)).
Proof.
  intros d now s c p Hwf Hc Hp outcome s'. unfold s'.
  rewrite (settlePositions_runs d now s c p Hc Hp).
  pose proof (proj1 (proj2 Hwf)) as Hrefs.
  split; [|split].
  - apply closeAll_counts; [|exact Hrefs].
    intros pnl st. unfold settleStats. destruct (Num.ltb 0 pnl); reflexivity.
  - apply (closeAll_books _ _ _ st_totalWon bookWon); [|exact Hrefs].
    intros pnl st. unfold settleStats, bookWon.
    destruct (Num.ltb 0 pnl); reflexivity.
  - apply (closeAll_books _ _ _ st_totalLost bookLost); [|exact Hrefs].
    intros pnl st. unfold settleStats, bookLost.
    destruct (Num.ltb 0 pnl); reflexivity.
Qed.

(** The settlement of [heldTrade] on [closingSnapshot]. *)
Lemma settlePositions_books_each_position_once_witness :
  let s' := settlePositions (Some closingSnapshot) 900000 heldTrader in
  st_totalTrades (stats s')
  = (st_totalTrades (stats heldTrader)
     + Z.of_nat (length (openPositions heldTrader)))%Z
  /\ st_totalWon (stats s')
     = fold_left bookWon
         (fmap (pnlOf (outcomeOf 60123 60000)) (openPositions heldTrader))
         (st_totalWon (stats heldTrader))
  /\ st_totalLost (stats s')
     = fold_left bookLost
         (fmap (pnlOf (outcomeOf 60123 60000)) (openPositions heldTrader))
         (st_totalLost (stats heldTrader)).
Proof.
  apply (settlePositions_books_each_position_once closingSnapshot 900000
           heldTrader 60123 60000); [|reflexivity|reflexivity].
  exact wellFormed_held.
Defined.

(** *** Sessions and lifetime stats *)

Lemma sumOver_app (f : Session -> Z) (h : list Session) (x : Session) :
  sumOver f (h ++ [x]) = (sumOver f h + f x)%Z.
Proof.
  unfold sumOver. induction h as [|y h IH]; cbn.
  - lia.
  - rewrite IH. lia.
Qed.

(** A reset keeps the history and the lifetime stats in step. *)
Lemma lifetimeAgrees_reset (newBalance : number) (now : Z) (s : PaperTrader) :
  lifetimeAgrees s -> lifetimeAgrees (reset newBalance true now s).
Proof.
  intros (Hn & Hwl & Htr & Hw & Hl & Hids & Hpos).
  unfold lifetimeAgrees, reset, recordsSession.
  cbn [sessionHistory lifetimeStats andb].
  destruct (Z.ltb_spec 0 (st_totalTrades (stats s))) as [Htrades|_];
    [|repeat split; assumption].
  unfold foldLifetime.
  cbn [lt_totalSessions lt_sessionsWon lt_sessionsLost lt_totalTrades
       lt_totalWins lt_totalLosses].
  rewrite !sumOver_app, length_app.
  cbn [se_trades se_wins se_losses closeSession length].
  repeat split; try lia.
  - destruct (Num.ltb 0 (balance s - startingBalance s)); lia.
  - rewrite fmap_app, Nat.add_comm. cbn [Nat.add].
    rewrite seq_S, fmap_app, <- Hids. cbn. reflexivity.
  - apply Forall_app. split; [exact Hpos|]. repeat constructor. exact Htrades.
Qed.

Lemma lifetimeAgrees_frame (s s' : PaperTrader) :
  sessionHistory s' = sessionHistory s ->
  lifetimeStats s' = lifetimeStats s ->
  lifetimeAgrees s -> lifetimeAgrees s'.
Proof. unfold lifetimeAgrees. intros -> ->. auto. Qed.

Lemma lifetimeAgrees_settlePositions (finalData : option Snapshot) (now : Z)
    (s : PaperTrader) :
  lifetimeAgrees s -> lifetimeAgrees (settlePositions finalData now s).
Proof.
  destruct (settlePositions_cases finalData now s) as [-> | (o & c & ->)];
    [auto|].
  apply lifetimeAgrees_frame; apply closeAll_frame.
Qed.

Lemma lifetimeAgrees_getStatus (now : Z) (s : PaperTrader) :
  lifetimeAgrees s -> lifetimeAgrees (fst (getStatus now s)).
Proof.
  intros Hs. destruct (getStatus_state now s) as [-> | ->];
    [exact Hs | apply lifetimeAgrees_reset, Hs].
Qed.

Lemma lifetimeAgrees_call (c : Call) (s : PaperTrader) :
  lifetimeAgrees s -> lifetimeAgrees (call s c).
Proof.
  intros Hs. destruct c as [[data now|fd now|o now|now| |]|sb now|o now];
    cbn [call step].
  - assert (H1 : lifetimeAgrees (observe data now s)).
    { unfold observe.
      destruct (marketChanged data s);
        [apply (lifetimeAgrees_settlePositions (pendingSettlement s) now) in Hs|];
        exact Hs. }
    destruct (evaluateAndTrade_state data now s) as [-> | [-> | (t & -> & _)]];
      [exact H1 | apply lifetimeAgrees_reset, H1 | exact H1].
  - apply lifetimeAgrees_settlePositions, Hs.
  - revert Hs. apply lifetimeAgrees_frame; apply closeAll_frame.
  - apply lifetimeAgrees_getStatus, Hs.
  - exact Hs.
  - exact Hs.
  - unfold apiReset. apply lifetimeAgrees_getStatus, lifetimeAgrees_reset, Hs.
  - unfold apiSettle. apply lifetimeAgrees_getStatus.
    destruct o; [|exact Hs].
    revert Hs. apply lifetimeAgrees_frame; apply closeAll_frame.
Qed.

(** X6: over every sequence of calls, from an engine whose history and
    lifetime stats agree (a new engine is one), the number of recorded
    sessions is [totalSessions], each is counted as won or as lost, the
    lifetime trade, win and loss counts are the sums over the recorded
    sessions, the session ids count up from 1 in the order of recording, and
    no session without a trade is ever recorded. *)
Theorem history_and_lifetime_stats_agree :
  forall (cs : list Call) (s : PaperTrader),
    lifetimeAgrees s ->
    let l := lifetimeStats (calls cs s) in
    let h := sessionHistory (calls cs s) in
    lt_totalSessions l = Z.of_nat (length h)
    /\ (lt_sessionsWon l + lt_sessionsLost l = lt_totalSessions l)%Z
    /\ lt_totalTrades l = sumOver se_trades h
    /\ lt_totalWins l = sumOver se_wins h
    /\ lt_totalLosses l = sumOver se_losses h
    /\ fmap se_id h = fmap (fun i => Z.of_nat i + 1)%Z (seq 0 (length h))
    /\ Forall (fun x => (0 < se_trades x)%Z) h.
Proof.
  intros cs s Hs. cbn zeta. change (lifetimeAgrees (calls cs s)).
  revert s Hs. induction cs as [|c cs IH]; intros s Hs; [exact Hs|].
  cbn. apply IH, lifetimeAgrees_call, Hs.
Qed.

(** The history after [sessionCalls] on a fresh engine. *)
Lemma history_and_lifetime_stats_agree_witness :
  let l := lifetimeStats (calls Scenarios.sessionCalls freshTrader) in
  let h := sessionHistory (calls Scenarios.sessionCalls freshTrader) in
  lt_totalSessions l = Z.of_nat (length h)
  /\ (lt_sessionsWon l + lt_sessionsLost l = lt_totalSessions l)%Z
  /\ lt_totalTrades l = sumOver se_trades h
  /\ lt_totalWins l = sumOver se_wins h
  /\ lt_totalLosses l = sumOver se_losses h
  /\ fmap se_id h = fmap (fun i => Z.of_nat i + 1)%Z (seq 0 (length h))
  /\ Forall (fun x => (0 < se_trades x)%Z) h.
Proof.
  apply (history_and_lifetime_stats_agree Scenarios.sessionCalls freshTrader).
  unfold lifetimeAgrees. cbn. repeat split; constructor.
Defined.

(** *** Cooldown *)

Lemma observe_keeps_clock (data : Snapshot) (now : Z) (s : PaperTrader) :
  lastTradeTime (observe data now s) = lastTradeTime s
  /\ cfg (observe data now s) = cfg s.
Proof.
  unfold observe. cbn [lastTradeTime cfg track].
  destruct (marketChanged data s); [|auto].
  destruct (settlePositions_cases (pendingSettlement s) now s)
    as [-> | (o & c & ->)]; [auto|]. split; apply closeAll_frame.
Qed.

(** Inside the cooldown every evaluation is rejected. *)
Lemma evaluateAndTrade_in_cooldown (data : Snapshot) (now last : Z)
    (s : PaperTrader) :
  lastTradeTime s = Some last -> last <> 0%Z ->
  (now - last < cooldownMs (cfg s))%Z ->
  rejected (snd (evaluateAndTrade data now s)).
Proof.
  intros Hlast Hnz Hsoon.
  destruct (observe_keeps_clock data now s) as [Hl Hc].
  rewrite Hlast in Hl.
  unfold evaluateAndTrade. rewrite canTrade_cases.
  set (s1 := observe data now s) in *.
  destruct (negb (enabled s1)); [exact I|].
  destruct (Num.ltb (balance s1) autoResetThreshold).
  { destruct (length (positions s1) =? 0)%nat; exact I. }
  unfold cooldownLeft. rewrite Hl, Hc.
  destruct (Z.eqb_spec last 0); [contradiction|].
  destruct (Z.ltb_spec (now - last) (cooldownMs (cfg s))); [exact I | lia].
Qed.

(** A call that does not start a new session keeps the time of the last
    trade as long as the cooldown runs. *)
Lemma step_keeps_clock (op : Op) (last : Z) (s : PaperTrader) :
  lastTradeTime s = Some last -> last <> 0%Z ->
  resets s op = false -> within last (cooldownMs (cfg s)) op ->
  lastTradeTime (step s op) = Some last /\ cfg (step s op) = cfg s.
Proof.
  intros Hlast Hnz Hno Hsoon.
  destruct op as [data now|fd now|o now|now| |];
    cbn [step resets within] in *.
  - destruct (observe_keeps_clock data now s) as [Hl Hc].
    rewrite Hlast in Hl.
    unfold evaluateAndTrade. rewrite canTrade_cases.
    set (s1 := observe data now s) in *.
    destruct (negb (enabled s1)) eqn:Hen; [auto|].
    apply negb_false_iff in Hen. rewrite Hen in Hno. cbn [andb] in Hno.
    unfold autoResetDue in Hno.
    destruct (Num.ltb (balance s1) autoResetThreshold).
    { cbn [andb] in Hno. rewrite Hno. auto. }
    unfold cooldownLeft. rewrite Hl, Hc.
    destruct (Z.eqb_spec last 0); [contradiction|].
    destruct (Z.ltb_spec (now - last) (cooldownMs (cfg s))); [auto | lia].
  - destruct (settlePositions_cases fd now s) as [-> | (o & c & ->)];
      [auto|].
    rewrite <- Hlast. split; apply closeAll_frame.
  - rewrite <- Hlast. split; apply closeAll_frame.
  - unfold getStatus, checkAutoReset. rewrite Hno. auto.
  - auto.
  - auto.
Qed.

(** X7: after an entry at a non-zero clock reading, every call of
    [evaluateAndTrade] whose clock reading is less than [cooldownMs] later
    is rejected, whatever the snapshot and whatever evaluations,
    settlements, forced settlements, status queries and enable or disable
    calls happen in between, as long as none of the calls in between starts
    a new session through the auto-reset; the time of the last trade is kept
    until then. *)
Theorem cooldown_blocks_entries_until_reset :
  forall d1 now1 s s1 t b ops,
    evaluateAndTrade d1 now1 s = (s1, Traded t b) ->
    now1 <> 0%Z ->
    noReset ops s1 ->
    Forall (within now1 (cooldownMs (cfg s))) ops ->
    Forall rejected (answers ops s1)
    /\ lastTradeTime (run ops s1) = Some now1
    /\ forall d2 now2,
         (now2 - now1 < cooldownMs (cfg s))%Z ->
         rejected (snd (evaluateAndTrade d2 now2 (run ops s1))).
Proof.
  intros d1 now1 s s1 t b ops Hev Hnz Hno Hsoon.
  apply evaluateAndTrade_traded in Hev as (Hent & _ & _ & _).
  apply enter_traded in Hent as (-> & _).
  set (s1 := execute t now1 (observe d1 now1 s)) in *.
  assert (H1 : lastTradeTime s1 = Some now1 /\ cfg s1 = cfg s).
  { split; [reflexivity|]. apply (observe_keeps_clock d1 now1 s). }
  clearbody s1. revert s1 H1 Hno.
  induction Hsoon as [|op ops Hop _ IH]; intros s1 [Hlast Hcfg] Hno.
  - split; [constructor|]. split; [exact Hlast|].
    intros d2 now2 Hsoon. cbn [run fold_left].
    apply (evaluateAndTrade_in_cooldown d2 now2 now1 s1);
      [exact Hlast | exact Hnz | rewrite Hcfg; exact Hsoon].
  - destruct Hno as [Hno Hrest].
    assert (Hop' : within now1 (cooldownMs (cfg s1)) op)
      by (rewrite Hcfg; exact Hop).
    destruct (step_keeps_clock op now1 s1 Hlast Hnz Hno Hop') as [Hl Hc].
    rewrite Hcfg in Hc.
    destruct (IH (step s1 op) (conj Hl Hc) Hrest) as (Hans & Hkeep & Hnext).
    split; [|split; [exact Hkeep | exact Hnext]].
    cbn [answers]. apply Forall_app. split; [|exact Hans].
    destruct op as [data now|fd now|o now|now| |]; try constructor;
      [|constructor].
    cbn [within] in Hop'.
    apply (evaluateAndTrade_in_cooldown data now now1 s1);
      [exact Hlast | exact Hnz | exact Hop'].
Qed.

(** The calls of [busyOps] after the entry of [heldTrade], and an evaluation
    on the next market thirty seconds after the entry. *)
Lemma cooldown_blocks_entries_until_reset_witness :
  Forall rejected (answers Scenarios.busyOps heldTrader)
  /\ lastTradeTime (run Scenarios.busyOps heldTrader) = Some 1000%Z
  /\ rejected (snd (evaluateAndTrade Scenarios.nextSnapshot 30999
                      (run Scenarios.busyOps heldTrader))).
Proof.
  destruct (cooldown_blocks_entries_until_reset entrySnapshot 1000 freshTrader
              heldTrader heldTrade (balance heldTrader) Scenarios.busyOps)
    as (Hans & Hlast & Hnext).
  - reflexivity.
  - discriminate.
  - vm_compute. repeat split.
  - unfold Scenarios.busyOps. repeat constructor; cbn; lia.
  - split; [exact Hans|]. split; [exact Hlast|].
    apply Hnext. cbn. lia.
Defined.

(** The auto-reset ends the cooldown: [reset] clears the time of the last
    trade.  An engine with a balance of 10.5 buys 2 DOWN shares at 0.45 at
    clock 1000; the evaluation at clock 2000 is on another market, settles
    the trade as a loss, finds the balance of 9.6 under the threshold with
    no position open and resets the session; the evaluation at clock 3000
    enters a trade, 2000 ms after the first. *)
Lemma auto_reset_ends_cooldown :
  let s1 := fst (evaluateAndTrade Scenarios.nextSnapshot 1000 thinTrader) in
  let s2 := fst (evaluateAndTrade entrySnapshot 2000 s1) in
  ~ rejected (snd (evaluateAndTrade Scenarios.nextSnapshot 1000 thinTrader))
  /\ lastTradeTime s1 = Some 1000%Z
  /\ snd (evaluateAndTrade entrySnapshot 2000 s1) = NotTraded SessionReset
  /\ lastTradeTime s2 = None
  /\ ~ rejected (snd (evaluateAndTrade entrySnapshot 3000 s2))
  /\ (3000 - 1000 < cooldownMs (cfg thinTrader))%Z.
Proof.
  cbn zeta. split; [vm_compute; tauto|]. split; [vm_compute; reflexivity|].
  split; [vm_compute; reflexivity|]. split; [vm_compute; reflexivity|].
  split; [vm_compute; tauto | vm_compute; reflexivity].
Qed.

(** *** The reset handler *)

(** X9: [POST /api/paper/reset] records the ended session once.  The
    handler resets to the requested starting balance (500 when it is absent
    or 0) and then asks for the status, which resets again when that balance
    is under the auto-reset threshold; the second reset finds a session
    without a trade and only moves [startedAt].  So the ended session is in
    the history once when it had a trade and not at all otherwise, the
    lifetime stats have counted it once, no position is open, the stats are
    those of a new session, and the balance, also the reported one, is the
    requested one. *)
Theorem apiReset_records_session_once :
  forall (startingBalance : option number) (now later : Z) (s : PaperTrader),
    let fresh := reset (orDefault startingBalance 500) true now s in
    let s' := fst (apiReset startingBalance now later s) in
    (s' = fresh
     \/ orDefault startingBalance 500 < autoResetThreshold
        /\ s' = reset (orDefault startingBalance 500) true later fresh)
    /\ balance s' = orDefault startingBalance 500
    /\ rp_currentBalance (snd (apiReset startingBalance now later s))
       = orDefault startingBalance 500
    /\ sessionHistory s'
       = (if (0 <? st_totalTrades (stats s))%Z
          then sessionHistory s ++ [closeSession now s]
          else sessionHistory s)
    /\ lifetimeStats s'
       = (if (0 <? st_totalTrades (stats s))%Z
          then foldLifetime s else lifetimeStats s)
    /\ openPositions s' = [] /\ stats s' = initStats.
Proof.
  intros sb now later s fresh s'.
  assert (Hcases : s' = fresh
                   \/ orDefault sb 500 < autoResetThreshold
                      /\ s' = reset (orDefault sb 500) true later fresh).
  { subst s'. unfold apiReset. fold fresh.
    unfold getStatus, checkAutoReset, autoResetDue. cbn [fst].
    case_ltb (balance fresh) autoResetThreshold; cbn [andb fst]; [|auto].
    change (length (positions fresh) =? 0)%nat with true. cbn [fst].
    right. split; [exact Hcmp | reflexivity]. }
  split; [exact Hcases|].
  assert (Hrp : rp_currentBalance (snd (apiReset sb now later s)) = balance s')
    by reflexivity.
  rewrite Hrp.
  destruct Hcases as [-> | [_ ->]]; repeat split.
Qed.

End BooksFacts.
(** ** Persistence *)

Section PersistFacts.
Import Paper Persist.
Local Open Scope num_scope.

(** Loading entries with pairwise distinct ids appends them in order, each
    with the reference of its own copy. *)
Lemma loadEntries_fresh (es : list (Z * Trade)) (ref : nat) (m : list (Z * nat)) :
  NoDup (fmap fst m ++ fmap fst es) ->
  loadEntries ref es m
  = m ++ zip (fmap fst es) (seq ref (length es)).
Proof.
  revert ref m. induction es as [|e es IH]; intros ref m Hnd.
  - cbn. rewrite app_nil_r. reflexivity.
  - cbn [loadEntries]. rewrite fmap_cons in Hnd.
    assert (Hfresh : fst e ∉ fmap fst m).
    { apply NoDup_app in Hnd as (_ & Hdisj & _). intros Hin.
      apply (Hdisj _ Hin). left. }
    rewrite (map_set_fresh _ _ _ Hfresh), IH.
    + rewrite <- app_assoc. reflexivity.
    + rewrite fmap_app, <- app_assoc. exact Hnd.
Qed.

(** Reading the loaded entries back gives the parsed trade objects. *)
Lemma omap_loaded (ts : list Trade) (es : list (Z * Trade)) (k : nat) :
  omap (fun e : Z * nat => (ts ++ fmap snd es) !! snd e)
    (zip (fmap fst (drop k es)) (seq (length ts + k) (length (drop k es))))
  = fmap snd (drop k es).
Proof.
  remember (length es - k)%nat as n eqn:Hn. revert k Hn.
  induction n as [|n IH]; intros k Hn.
  - rewrite drop_ge by lia. reflexivity.
  - destruct (lookup_lt_is_Some_2 es k ltac:(lia)) as [e He].
    rewrite (drop_S es e k He). cbn [fmap list_fmap length seq zip zip_with].
    cbn [omap list_omap snd].
    rewrite lookup_app_r by lia.
    replace (length ts + k - length ts)%nat with k by lia.
    rewrite list_lookup_fmap, He. cbn [fmap option_fmap option_map].
    f_equal. replace (S (length ts + k)) with (length ts + S k)%nat by lia.
    apply IH. lia.
Qed.

Lemma omap_ledger (ts rest : list Trade) :
  omap (fun r : nat => (ts ++ rest) !! r) (seq 0 (length ts)) = ts.
Proof.
  revert rest. induction ts as [|t ts IH] using rev_ind; intros rest;
    [reflexivity|].
  rewrite length_app, Nat.add_comm. cbn [length Nat.add].
  rewrite seq_S, omap_app. cbn [omap list_omap Nat.add].
  rewrite <- (app_assoc ts [t] rest).
  rewrite (IH ([t] ++ rest)). cbn [app].
  rewrite list_lookup_middle by reflexivity. reflexivity.
Qed.

Lemma entries_keys (s : PaperTrader) :
  fmap fst (entries s) `sublist_of` fmap fst (positions s).
Proof.
  unfold entries. induction (positions s) as [|e m IH]; [reflexivity|].
  cbn [omap list_omap]. destruct (store s !! snd e).
  - rewrite !fmap_cons. cbn [fst]. apply sublist_skip, IH.
  - rewrite fmap_cons. apply sublist_cons, IH.
Qed.

Lemma entries_values (s : PaperTrader) :
  fmap snd (entries s) = omap (fun e : Z * nat => store s !! snd e) (positions s).
Proof.
  unfold entries. induction (positions s) as [|e m IH]; [reflexivity|].
  cbn [omap list_omap]. destruct (store s !! snd e); [|exact IH].
  rewrite fmap_cons, IH. reflexivity.
Qed.

(** X10: a saved engine comes back with the same books.  When the ids of the
    position map are pairwise distinct, the starting balance is not falsy
    (the constructor replaces a falsy one by 1000) and every number of the
    state is one that JSON writes as it is, the engine constructed from what
    [save()] wrote has the same balance, starting balance, enabled flag,
    stats, session history and lifetime stats, the same trades in the ledger
    and the same open positions, and hence the same status report. *)
Theorem save_then_resume_keeps_the_books :
  forall (s : PaperTrader) (options : Options) (now : Z),
    NoDup (fmap fst (positions s)) ->
    Num.falsy (startingBalance s) = false ->
    writable s = true ->
    let s' := construct (Some (save s)) false options now in
    ledger s' = ledger s
    /\ openPositions s' = openPositions s
    /\ report s' = report s.
Proof.
  intros s options now Hids Hstart _ s'.
  assert (Hkeys : NoDup (fmap fst (entries s)))
    by (eapply sublist_NoDup; [exact Hids | apply entries_keys]).
  assert (Hledger : ledger s' = ledger s).
  { unfold ledger at 1, s', construct, resume. cbn. apply omap_ledger. }
  assert (Hopen : openPositions s' = openPositions s).
  { unfold openPositions, s', construct, resume. cbn.
    rewrite loadEntries_fresh by exact Hkeys. cbn [app].
    pose proof (omap_loaded (ledger s) (entries s) 0) as Hload.
    rewrite drop_0, Nat.add_0_r in Hload. rewrite Hload, entries_values.
    reflexivity. }
  split; [exact Hledger|]. split; [exact Hopen|].
  unfold report, openValue. rewrite Hopen.
  change (omap (fun r : nat => store s' !! r) (trades s')) with (ledger s').
  change (omap (fun r : nat => store s !! r) (trades s)) with (ledger s).
  rewrite Hledger.
  unfold s', construct, resume, orDefault.
  cbn [startingBalance balance enabled stats sessionHistory lifetimeStats
       startedAt cfg save sv_startingBalance sv_balance sv_enabled sv_stats
       sv_sessionHistory sv_lifetimeStats sv_startedAt orEmpty].
  rewrite Hstart. reflexivity.
Qed.

(** The engine that holds [heldTrade], saved and constructed again. *)
Lemma save_then_resume_keeps_the_books_witness :
  let s' := construct (Some (save heldTrader)) false Scenarios.noOptions 5000 in
  ledger s' = ledger heldTrader
  /\ openPositions s' = openPositions heldTrader
  /\ report s' = report heldTrader.
Proof.
  apply (save_then_resume_keeps_the_books heldTrader Scenarios.noOptions 5000).
  - cbn. apply NoDup_singleton.
  - vm_compute. reflexivity.
  - vm_compute. reflexivity.
Defined.

(** *** The ledger after a restart *)

Lemma map_set_refs (id : Z) (ref n : nat) (m : list (Z * nat)) :
  (n <= ref)%nat ->
  Forall (fun e => (n <= snd e)%nat) m ->
  Forall (fun e => (n <= snd e)%nat) (map_set id ref m).
Proof.
  intros Hn Hm. induction Hm as [|[k v] m Hk Hm IH]; cbn [map_set].
  - repeat constructor. exact Hn.
  - destruct (k =? id)%Z; constructor; cbn; assumption.
Qed.

Lemma loadEntries_refs (es : list (Z * Trade)) (ref n : nat) (m : list (Z * nat)) :
  (n <= ref)%nat ->
  Forall (fun e => (n <= snd e)%nat) m ->
  Forall (fun e => (n <= snd e)%nat) (loadEntries ref es m).
Proof.
  revert ref m. induction es as [|e es IH]; intros ref m Hn Hm; [exact Hm|].
  cbn [loadEntries]. apply IH; [lia|]. apply map_set_refs; assumption.
Qed.

Lemma frozen_closeAll mark tally outcome (n : nat) (l : list (Z * nat))
    (s : PaperTrader) :
  Forall (fun e => (n <= snd e)%nat) l ->
  frozen n s ->
  frozen n (fold_left (closeEntry mark tally outcome) l s)
  /\ forall r, (r < n)%nat ->
       store (fold_left (closeEntry mark tally outcome) l s) !! r = store s !! r.
Proof.
  intros Hl. revert s. induction Hl as [|e l He _ IH]; intros s Hs; [auto|].
  cbn [fold_left].
  assert (H1 : frozen n (closeEntry mark tally outcome s e)).
  { destruct Hs as [Hlen Hpos]. split.
    - rewrite closeEntry_length. exact Hlen.
    - eapply Forall_sublist; [apply closeEntry_positions | exact Hpos]. }
  destruct (IH _ H1) as [Hf Hstore]. split; [exact Hf|].
  intros r Hr. rewrite (Hstore r Hr). apply closeEntry_other. lia.
Qed.

Lemma frozen_settlePositions (n : nat) (finalData : option Snapshot) (now : Z)
    (s : PaperTrader) :
  frozen n s ->
  frozen n (settlePositions finalData now s)
  /\ forall r, (r < n)%nat ->
       store (settlePositions finalData now s) !! r = store s !! r.
Proof.
  intros Hs.
  destruct (settlePositions_cases finalData now s) as [-> | (o & c & ->)];
    [auto|]. apply frozen_closeAll; [apply Hs | exact Hs].
Qed.

Lemma frozen_reset (n : nat) (newBalance : number) (record : bool) (now : Z)
    (s : PaperTrader) :
  frozen n s -> frozen n (reset newBalance record now s).
Proof. intros [Hlen _]. split; [exact Hlen | constructor]. Qed.

Lemma frozen_getStatus (n : nat) (now : Z) (s : PaperTrader) :
  frozen n s ->
  frozen n (fst (getStatus now s))
  /\ forall r, (r < n)%nat -> store (fst (getStatus now s)) !! r = store s !! r.
Proof.
  intros Hs. destruct (getStatus_state now s) as [-> | ->];
    [auto | split; [apply frozen_reset, Hs | reflexivity]].
Qed.

Lemma frozen_call (n : nat) (c : Books.Call) (s : PaperTrader) :
  frozen n s ->
  frozen n (Books.call s c)
  /\ forall r, (r < n)%nat -> store (Books.call s c) !! r = store s !! r.
Proof.
  intros Hs.
  destruct c as [[data now|fd now|o now|now| |]|sb now later|o now later];
    cbn [Books.call step].
  - assert (H1 : frozen n (observe data now s)
                 /\ forall r, (r < n)%nat ->
                      store (observe data now s) !! r = store s !! r).
    { unfold observe. cbn [store track].
      destruct (marketChanged data s); [|auto].
      apply (frozen_settlePositions n (pendingSettlement s) now s Hs). }
    destruct H1 as [Hf1 Hst1].
    destruct (evaluateAndTrade_state data now s)
      as [-> | [-> | (t & -> & _)]].
    + auto.
    + split; [apply frozen_reset, Hf1 | exact Hst1].
    + destruct Hf1 as [Hlen Hpos].
      set (s1 := observe data now s) in *. unfold frozen.
      change (store (execute t now s1)) with (store s1 ++ [t]).
      change (positions (execute t now s1))
        with (map_set (tr_id t) (length (store s1)) (positions s1)).
      split; [split|].
      * rewrite length_app. lia.
      * apply map_set_refs; assumption.
      * intros r Hr. rewrite lookup_app_l by lia. apply Hst1, Hr.
  - apply frozen_settlePositions, Hs.
  - apply frozen_closeAll; [apply Hs | exact Hs].
  - apply frozen_getStatus, Hs.
  - auto.
  - auto.
  - unfold Books.apiReset.
    destruct (frozen_getStatus n later
                (reset (orDefault sb 500) true now s)
                (frozen_reset n _ true now s Hs)) as [Hf Hst].
    split; [exact Hf|]. intros r Hr. rewrite (Hst r Hr). reflexivity.
  - unfold Books.apiSettle. destruct o as [o|]; [|apply frozen_getStatus, Hs].
    destruct (frozen_closeAll (forceSettleTrade o now) forceSettleStats o
                n (positions s) s (proj2 Hs) Hs) as [Hf Hst].
    destruct (frozen_getStatus n later (forceSettle o now s) Hf) as [Hf' Hst'].
    split; [exact Hf'|]. intros r Hr. rewrite (Hst' r Hr). apply Hst, Hr.
Qed.

(** X11: the trades an engine loads from its file are never written again.
    The constructor parses the ledger and the position map into separate
    objects, so whatever calls follow, the objects of the loaded ledger keep
    the values of the file: a position that is settled after a restart is
    settled in the map's copy only. *)
Theorem loaded_ledger_is_never_settled :
  forall (saved : Saved) (options : Options) (cs : list Books.Call) (r : nat),
    (r < length (orEmpty (sv_trades saved)))%nat ->
    store (Books.calls cs (resume saved options)) !! r
    = orEmpty (sv_trades saved) !! r.
Proof.
  intros saved options cs r Hr.
  set (n := length (orEmpty (sv_trades saved))) in *.
  assert (H0 : frozen n (resume saved options)).
  { split.
    - unfold resume. cbn. rewrite length_app. lia.
    - unfold resume. cbn. apply loadEntries_refs; [lia | constructor]. }
  assert (Hrun : forall s, frozen n s ->
                   store (Books.calls cs s) !! r = store s !! r).
  { induction cs as [|c cs IH]; intros s Hs; [reflexivity|].
    change (Books.calls (c :: cs) s) with (Books.calls cs (Books.call s c)).
    destruct (frozen_call n c s Hs) as [Hf Hst].
    rewrite (IH _ Hf). apply Hst, Hr. }
  rewrite (Hrun _ H0). unfold resume. cbn. apply lookup_app_l. exact Hr.
Qed.

(** The loaded ledger entry of [heldTrade] after the forced settlement of
    [restartCalls]. *)
Lemma loaded_ledger_is_never_settled_witness :
  store (Books.calls Scenarios.restartCalls
           (resume Scenarios.savedBooks Scenarios.noOptions)) !! 0%nat
  = orEmpty (sv_trades Scenarios.savedBooks) !! 0%nat.
Proof.
  apply (loaded_ledger_is_never_settled Scenarios.savedBooks
           Scenarios.noOptions Scenarios.restartCalls 0).
  vm_compute. lia.
Defined.

End PersistFacts.
(** ** The live risk controller *)

Section AutoFacts.
Import Auto.
Local Open Scope num_scope.

Lemma holding_hold_eq (tokenId : string) (h : Holding)
    (m : list (string * Holding)) :
  holding tokenId (hold tokenId h m) = Some h.
Proof.
  induction m as [|[k v] m IH]; cbn.
  - rewrite bool_decide_eq_true_2 by reflexivity. reflexivity.
  - destruct (bool_decide (k = tokenId)) eqn:Hk; cbn; rewrite Hk;
      [reflexivity | exact IH].
Qed.

Lemma holding_hold_ne (tokenId other : string) (h : Holding)
    (m : list (string * Holding)) :
  other <> tokenId ->
  holding other (hold tokenId h m) = holding other m.
Proof.
  intros Hne. induction m as [|[k v] m IH]; cbn.
  - rewrite bool_decide_eq_false_2 by congruence. reflexivity.
  - destruct (bool_decide (k = tokenId)) eqn:Hk; cbn.
    + apply bool_decide_eq_true_1 in Hk as ->.
      rewrite bool_decide_eq_false_2 by congruence. reflexivity.
    + destruct (bool_decide (k = other)); [reflexivity | exact IH].
Qed.

Lemma auto_canTrade_allowed (ready : bool) (now : Z) (a : AutoTrader) :
  canTrade ready now a = None ->
  enabled a = true /\ ready = true
  /\ ~ dailyPnL a <= - maxDailyLoss a
  /\ cooldownLeft now a = None.
Proof.
  unfold canTrade.
  destruct (enabled a); [|discriminate].
  destruct ready; [|discriminate]. cbn [negb].
  destruct (Num.leb (dailyPnL a) (- maxDailyLoss a)) eqn:Hloss; [discriminate|].
  destruct (cooldownLeft now a); [discriminate|].
  intros _. repeat split; try reflexivity.
  unfold Num.le. rewrite Hloss. discriminate.
Qed.

(** Whatever ends a call without a fill ends it without a write. *)
Lemma auto_evaluateAndTrade_cases (data : Snapshot) (tokens : option Tokens)
    (ready : bool) (now : Z) (order : OrderResult) (later : Z)
    (a : AutoTrader) :
  (fst (evaluateAndTrade data tokens ready now order later a) = a
   /\ forall side shares price orderId,
        snd (evaluateAndTrade data tokens ready now order later a)
        <> Traded side shares price orderId)
  \/ exists side tokenId price orderId,
       canTrade ready now a = None
       /\ sig_side (signal data) = Some side
       /\ sig_action (signal data) <> HOLD
       /\ ~ edgeValue (signal data) < minEdge a
       /\ sig_strength (signal data) = Some STRONG
       /\ tokenFor side tokens = Some tokenId
       /\ Paper.priceFor side data = Some price /\ 0 < price
       /\ ~ sharesFor a (signal data) < 1
       /\ order = Placed orderId
       /\ evaluateAndTrade data tokens ready now order later a
          = (record tokenId
               {| ho_side := side; ho_shares := sharesFor a (signal data);
                  ho_entryPrice := price; ho_timestamp := later |} later a,
             Traded side (sharesFor a (signal data)) price orderId).
Proof.
  unfold evaluateAndTrade.
  destruct (canTrade ready now a) as [reason|] eqn:Hcan;
    [left; split; [reflexivity | discriminate]|].
  destruct (sig_side (signal data)) as [side|] eqn:Hside;
    [|left; split; [reflexivity | discriminate]].
  destruct (bool_decide (sig_action (signal data) = HOLD)) eqn:Hact;
    [left; split; [reflexivity | discriminate]|].
  apply bool_decide_eq_false_1 in Hact.
  case_ltb (edgeValue (signal data)) (minEdge a).
  { left. destruct (sig_edge (signal data));
      (split; [reflexivity | discriminate]). }
  destruct (bool_decide (sig_strength (signal data) = Some STRONG)) eqn:Hstr;
    [|left; split; [reflexivity | discriminate]].
  apply bool_decide_eq_true_1 in Hstr. cbn [negb].
  destruct (tokenFor side tokens) as [tokenId|] eqn:Htok;
    [|left; split; [reflexivity | discriminate]].
  destruct (Paper.priceFor side data) as [price|] eqn:Hquote;
    [|left; split; [reflexivity | discriminate]].
  destruct (Num.falsy price || Num.leb price 0) eqn:Hprice;
    [left; split; [reflexivity | discriminate]|].
  apply orb_false_iff in Hprice as [Hfalsy Hprice].
  case_ltb (sharesFor a (signal data)) 1;
    [left; split; [reflexivity | discriminate]|].
  destruct order as [orderId|error];
    [|left; split; [reflexivity | discriminate]].
  right. exists side, tokenId, price, orderId.
  repeat split; try assumption; try reflexivity.
  - apply ltb_not_lt. assumption.
  - apply lt_when_not_leb;
      [apply falsy_nan, Hfalsy | discriminate | exact Hprice].
  - apply ltb_not_lt. assumption.
Qed.

(** X12: an order of the live controller is filled only when the controller
    is enabled and the trader ready, the cooldown is over, the signal is a
    STRONG one to buy the side with an edge that is not below [minEdge], and
    the quoted price of that side is positive.  The size is
    [Math.min(Math.floor(maxPositionSize x kellyFraction x 10),
    maxPositionSize)]: it is not below 1 and not above [maxPositionSize], in
    the code's own comparisons on doubles.  Neither the price nor any
    balance enters the size. *)
Theorem auto_fill_respects_limits :
  forall data tokens ready now order later a a' side shares price orderId,
    evaluateAndTrade data tokens ready now order later a
    = (a', Traded side shares price orderId) ->
    enabled a = true /\ ready = true /\ cooldownLeft now a = None
    /\ sig_side (signal data) = Some side
    /\ sig_strength (signal data) = Some STRONG
    /\ ~ edgeValue (signal data) < minEdge a
    /\ Paper.priceFor side data = Some price /\ 0 < price
    /\ shares
       = Num.min (Num.floor (maxPositionSize a * kellyFraction (signal data)
                             * 10))
           (maxPositionSize a)
    /\ ~ shares < 1 /\ ~ maxPositionSize a < shares.
Proof.
  intros data tokens ready now order later a a' side shares price orderId Hev.
  destruct (auto_evaluateAndTrade_cases data tokens ready now order later a)
    as [[_ Hno] | (side' & tokenId & price' & orderId' & Hcan & Hside & _
                   & Hedge & Hstr & _ & Hprice & Hpos & Hone & _ & Heq)].
  { exfalso. apply (Hno side shares price orderId). rewrite Hev. reflexivity. }
  rewrite Hev in Heq. injection Heq as _ -> -> -> ->.
  apply auto_canTrade_allowed in Hcan as (Hen & Hready & _ & Hcool).
  repeat split; try assumption.
  apply ltb_not_lt. unfold sharesFor. apply min_not_above.
Qed.

(** The default controller on [entrySnapshot]: ten shares at 0.40. *)
Lemma auto_fill_respects_limits_witness :
  enabled Scenarios.liveTrader = true /\ true = true
  /\ cooldownLeft 1000 Scenarios.liveTrader = None
  /\ sig_side (signal entrySnapshot) = Some UP
  /\ sig_strength (signal entrySnapshot) = Some STRONG
  /\ ~ edgeValue (signal entrySnapshot) < minEdge Scenarios.liveTrader
  /\ Paper.priceFor UP entrySnapshot = Some 0.40 /\ 0 < 0.40
  /\ 10
     = Num.min (Num.floor (maxPositionSize Scenarios.liveTrader
                           * kellyFraction (signal entrySnapshot) * 10))
         (maxPositionSize Scenarios.liveTrader)
  /\ ~ 10 < 1 /\ ~ maxPositionSize Scenarios.liveTrader < 10.
Proof.
  apply (auto_fill_respects_limits entrySnapshot (Some Scenarios.liveTokens)
           true 1000 (Placed "order-1") 1200 Scenarios.liveTrader
           (fst (evaluateAndTrade entrySnapshot (Some Scenarios.liveTokens)
                   true 1000 (Placed "order-1") 1200 Scenarios.liveTrader))
           UP 10 0.40 "order-1").
  vm_compute. reflexivity.
Defined.

(** X13: [evaluateAndTrade] of the live controller writes only when an order
    is filled.  A rejection, a failed order and the exception on a [null]
    edge leave every field as it was.  A fill stamps [lastTradeTime] with
    the clock read after the order resolved and puts the holding under its
    token id, where it replaces what was held for that token and leaves the
    holdings of the other tokens alone. *)
Theorem auto_writes_only_on_fill :
  forall data tokens ready now order later a,
    let a' := fst (evaluateAndTrade data tokens ready now order later a) in
    match snd (evaluateAndTrade data tokens ready now order later a) with
    | Traded side shares price orderId =>
        exists tokenId,
          tokenFor side tokens = Some tokenId
          /\ holding tokenId (positions a')
             = Some {| ho_side := side; ho_shares := shares;
                       ho_entryPrice := price; ho_timestamp := later |}
          /\ (forall other, other <> tokenId ->
              holding other (positions a') = holding other (positions a))
          /\ lastTradeTime a' = Some later
          /\ enabled a' = enabled a /\ dailyPnL a' = dailyPnL a
          /\ maxPositionSize a' = maxPositionSize a /\ minEdge a' = minEdge a
          /\ maxDailyLoss a' = maxDailyLoss a /\ cooldownMs a' = cooldownMs a
    | _ => a' = a
    end.
Proof.
  intros data tokens ready now order later a a'. subst a'.
  destruct (auto_evaluateAndTrade_cases data tokens ready now order later a)
    as [[Hsame Hno] | (side & tokenId & price & orderId & _ & _ & _ & _ & _
                       & Htok & _ & _ & _ & _ & Heq)].
  - destruct (snd (evaluateAndTrade data tokens ready now order later a))
      as [reason|side shares price orderId|]; try exact Hsame.
    exfalso. apply (Hno side shares price orderId). reflexivity.
  - rewrite Heq. cbn [fst snd]. exists tokenId.
    split; [exact Htok|]. cbn [positions record].
    split; [apply holding_hold_eq|].
    split; [intros other Hne; apply holding_hold_ne; exact Hne|].
    repeat split.
Qed.

Lemma dailyPnL_step (a : AutoTrader) (op : Op) :
  dailyPnL (step a op) = dailyPnL a.
Proof.
  destruct op as [| |c|data tokens ready now order later]; try reflexivity.
  cbn [step].
  pose proof (auto_step_pnl := auto_evaluateAndTrade_cases data tokens ready now
                                 order later a).
  destruct auto_step_pnl as [[-> _] | (side & tokenId & price & orderId & _ & _
                                        & _ & _ & _ & _ & _ & _ & _ & _ & ->)];
    reflexivity.
Qed.

Lemma maxDailyLoss_step (a : AutoTrader) (op : Op) :
  keepsLossLimit op -> 0 < maxDailyLoss a -> 0 < maxDailyLoss (step a op).
Proof.
  destruct op as [| |c|data tokens ready now order later]; cbn [keepsLossLimit step];
    try (intros _ H; exact H).
  - intros Hc H. cbn [configure maxDailyLoss]. unfold orKeep.
    destruct (cp_maxDailyLoss c); assumption.
  - intros _ H.
    destruct (auto_evaluateAndTrade_cases data tokens ready now order later a)
      as [[-> _] | (side & tokenId & price & orderId & _ & _
                    & _ & _ & _ & _ & _ & _ & _ & _ & ->)];
      exact H.
Qed.

(** X14: nothing ever writes [dailyPnL].  Over every sequence of enable,
    disable, configuration and evaluation calls it keeps its value, so on a
    controller that starts at a daily pnl of 0 with a positive
    [maxDailyLoss], and is only configured with positive limits, the
    daily-loss gate of [canTrade] never fires. *)
Theorem daily_loss_limit_never_fires :
  forall (ops : list Op) (a : AutoTrader) (ready : bool) (now : Z),
    dailyPnL a = 0 -> 0 < maxDailyLoss a -> Forall keepsLossLimit ops ->
    dailyPnL (run ops a) = dailyPnL a
    /\ canTrade ready now (run ops a) <> Some DailyLossLimit.
Proof.
  intros ops a ready now Hzero Hlimit Hops.
  assert (H : dailyPnL (run ops a) = dailyPnL a /\ 0 < maxDailyLoss (run ops a)).
  { revert a Hzero Hlimit.
    induction Hops as [|op ops Hop _ IH]; intros a Hzero Hlimit;
      [split; [reflexivity | exact Hlimit]|].
    change (run (op :: ops) a) with (run ops (step a op)).
    destruct (IH (step a op)) as [Hpnl Hmax].
    - rewrite dailyPnL_step. exact Hzero.
    - apply maxDailyLoss_step; assumption.
    - split; [rewrite Hpnl; apply dailyPnL_step | exact Hmax]. }
  destruct H as [Hpnl Hmax]. split; [exact Hpnl|].
  unfold canTrade.
  destruct (negb (enabled (run ops a))); [discriminate|].
  destruct (negb ready); [discriminate|].
  destruct (Num.leb (dailyPnL (run ops a)) (- maxDailyLoss (run ops a)))
    eqn:Hloss.
  - rewrite Hpnl, Hzero, (zero_above_opp _ Hmax) in Hloss. discriminate.
  - destruct (cooldownLeft now (run ops a)); discriminate.
Qed.

(** The default controller after [liveOps]. *)
Lemma daily_loss_limit_never_fires_witness :
  dailyPnL (run Scenarios.liveOps autoTrader) = dailyPnL autoTrader
  /\ canTrade true 200000 (run Scenarios.liveOps autoTrader)
     <> Some DailyLossLimit.
Proof.
  apply (daily_loss_limit_never_fires Scenarios.liveOps autoTrader true 200000).
  - reflexivity.
  - reflexivity.
  - unfold Scenarios.liveOps. repeat constructor.
Defined.

Lemma toggles_keep_cooldown (ops : list Op) (a : AutoTrader) :
  Forall toggles ops ->
  lastTradeTime (run ops a) = lastTradeTime a
  /\ cooldownMs (run ops a) = cooldownMs a.
Proof.
  intros Hops. revert a.
  induction Hops as [|op ops Hop _ IH]; intros a; [split; reflexivity|].
  change (run (op :: ops) a) with (run ops (step a op)).
  destruct (IH (step a op)) as [-> ->].
  destruct op; cbn in Hop; try contradiction; split; reflexivity.
Qed.

(** X15: the cooldown of the live controller runs from the clock read after
    the order resolved.  Once an order is filled at a non-zero reading, no
    evaluation whose clock is less than [cooldownMs] past that reading sends
    an order, whatever the snapshot and however often the controller is
    switched off and on in between: the call is rejected by [canTrade] and
    writes nothing. *)
Theorem auto_cooldown_counts_from_fill :
  forall data tokens ready now order later a a' side shares price orderId
         ops data2 tokens2 ready2 now2 order2 later2,
    evaluateAndTrade data tokens ready now order later a
    = (a', Traded side shares price orderId) ->
    later <> 0%Z ->
    Forall toggles ops ->
    (now2 - later < cooldownMs a)%Z ->
    exists reason,
      evaluateAndTrade data2 tokens2 ready2 now2 order2 later2 (run ops a')
      = (run ops a', NotTraded reason)
      /\ canTrade ready2 now2 (run ops a') = Some reason.
Proof.
  intros data tokens ready now order later a a' side shares price orderId
         ops data2 tokens2 ready2 now2 order2 later2 Hev Hlater Hops Hsoon.
  destruct (auto_evaluateAndTrade_cases data tokens ready now order later a)
    as [[_ Hno] | (side' & tokenId & price' & orderId' & _ & _ & _ & _ & _ & _
                   & _ & _ & _ & _ & Heq)].
  { exfalso. apply (Hno side shares price orderId). rewrite Hev. reflexivity. }
  rewrite Hev in Heq. injection Heq as -> _ _ _ _.
  destruct (toggles_keep_cooldown ops
              (record tokenId
                 {| ho_side := side'; ho_shares := sharesFor a (signal data);
                    ho_entryPrice := price'; ho_timestamp := later |} later a)
              Hops) as [Hlast Hcool].
  cbn [lastTradeTime cooldownMs record] in Hlast, Hcool.
  set (b := run ops _) in *.
  assert (Hleft : exists seconds, cooldownLeft now2 b = Some seconds).
  { unfold cooldownLeft. rewrite Hlast, Hcool.
    destruct (Z.eqb_spec later 0); [contradiction|].
    destruct (Z.ltb_spec (now2 - later) (cooldownMs a)); [|lia].
    eexists. reflexivity. }
  destruct Hleft as [seconds Hleft].
  assert (Hcan : exists reason, canTrade ready2 now2 b = Some reason).
  { unfold canTrade. rewrite Hleft.
    destruct (negb (enabled b)); [eexists; reflexivity|].
    destruct (negb ready2); [eexists; reflexivity|].
    destruct (Num.leb _ _); eexists; reflexivity. }
  destruct Hcan as [reason Hcan]. exists reason.
  split; [|exact Hcan]. unfold evaluateAndTrade. rewrite Hcan. reflexivity.
Qed.

(** An order filled at clock 1200, and the next market fifty seconds
    later. *)
Lemma auto_cooldown_counts_from_fill_witness :
  exists reason,
    evaluateAndTrade Scenarios.nextSnapshot (Some Scenarios.liveTokens) true
      51000 (Placed "order-2") 51200
      (run [OpDisable; OpEnable]
         (fst (evaluateAndTrade entrySnapshot (Some Scenarios.liveTokens)
                 true 1000 (Placed "order-1") 1200 Scenarios.liveTrader)))
    = (run [OpDisable; OpEnable]
         (fst (evaluateAndTrade entrySnapshot (Some Scenarios.liveTokens)
                 true 1000 (Placed "order-1") 1200 Scenarios.liveTrader)),
       NotTraded reason)
    /\ canTrade true 51000
         (run [OpDisable; OpEnable]
            (fst (evaluateAndTrade entrySnapshot (Some Scenarios.liveTokens)
                    true 1000 (Placed "order-1") 1200 Scenarios.liveTrader)))
       = Some reason.
Proof.
  apply (auto_cooldown_counts_from_fill entrySnapshot
           (Some Scenarios.liveTokens) true 1000 (Placed "order-1") 1200
           Scenarios.liveTrader
           (fst (evaluateAndTrade entrySnapshot (Some Scenarios.liveTokens)
                   true 1000 (Placed "order-1") 1200 Scenarios.liveTrader))
           UP 10 0.40 "order-1" [OpDisable; OpEnable]
           Scenarios.nextSnapshot (Some Scenarios.liveTokens) true 51000
           (Placed "order-2") 51200).
  - vm_compute. reflexivity.
  - discriminate.
  - repeat constructor.
  - cbn. lia.
Defined.

End AutoFacts.
(** ** The data loop *)

Section LoopFacts.
Import Server Loop.
Local Open Scope num_scope.

(** What an entry of the paper trader has read from the snapshot. *)
Lemma enter_traded_signal (data : Snapshot) (now : Z)
    (s s' : Paper.PaperTrader) (t : Paper.Trade) (b : number) :
  Paper.enter data now s = (s', Paper.Traded t b) ->
  sig_action (signal data) <> HOLD
  /\ sig_side (signal data) = Some (Paper.tr_side t)
  /\ (sig_strength (signal data) = Some STRONG
      \/ sig_strength (signal data) = Some GOOD)
  /\ timing_phase data <> LATE
  /\ Paper.priceFor (Paper.tr_side t) data = Some (Paper.tr_entryPrice t)
  /\ Paper.tr_marketSlug t = market_slug data.
Proof.
  unfold Paper.enter.
  destruct (sig_side (signal data)) as [side|]; [|discriminate].
  destruct (bool_decide (sig_action (signal data) = HOLD)) eqn:Hact;
    [discriminate|].
  apply bool_decide_eq_false_1 in Hact.
  destruct (Num.ltb _ _); [discriminate|].
  assert (Hstrength : negb (bool_decide (sig_strength (signal data) = Some STRONG))
                      && negb (bool_decide (sig_strength (signal data) = Some GOOD))
                      = false ->
                      sig_strength (signal data) = Some STRONG
                      \/ sig_strength (signal data) = Some GOOD).
  { destruct (bool_decide (sig_strength (signal data) = Some STRONG)) eqn:Hs.
    - intros _. left. apply bool_decide_eq_true_1 in Hs. exact Hs.
    - destruct (bool_decide (sig_strength (signal data) = Some GOOD)) eqn:Hg;
        [|discriminate].
      intros _. right. apply bool_decide_eq_true_1 in Hg. exact Hg. }
  destruct (negb _ && negb _); [discriminate|].
  specialize (Hstrength eq_refl).
  destruct (bool_decide (timing_phase data = LATE)) eqn:Hlate; [discriminate|].
  apply bool_decide_eq_false_1 in Hlate.
  destruct (Paper.priceFor side data) as [price|] eqn:Hprice; [|discriminate].
  destruct (Paper.invalidPrice (Some price)); [discriminate|].
  destruct (_ || _); [discriminate|].
  destruct (Num.ltb _ _); [discriminate|].
  intros [= <- <- <-].
  cbn [Paper.tr_side Paper.tr_entryPrice Paper.tr_marketSlug Paper.mkTrade].
  repeat split; assumption.
Qed.

(** A snapshot that carries a signal to act was built on a recommendation to
    enter. *)
Lemma buildSnapshot_actionable (c : CycleData) (p : PriceToBeatState) :
  sig_action (signal (buildSnapshot c p)) <> HOLD ->
  rec_enter (cy_rec c) = true
  /\ sig_side (signal (buildSnapshot c p)) = rec_side (cy_rec c)
  /\ sig_strength (signal (buildSnapshot c p)) = rec_strength (cy_rec c).
Proof.
  cbn [signal buildSnapshot]. unfold buildSignal.
  destruct (rec_enter (cy_rec c)); cbn; [auto | congruence].
Qed.

Lemma run_snoc (ticks : list Tick) (tk : Tick) (st : State) :
  Loop.run (ticks ++ [tk]) st = fst (iterate tk (Loop.run ticks st)).
Proof. unfold Loop.run. rewrite fold_left_app. reflexivity. Qed.

(** The snapshot the loop holds is the one of the latest turn whose pass
    completed, and the token ids beside it are those of that turn. *)
Lemma latest_completed_turn (ticks : list Tick) (st0 : State) (d : Snapshot) :
  latestData (server st0) = None ->
  latestData (server (Loop.run ticks st0)) = Some d ->
  exists before tc c after,
    ticks = before ++ tc :: after
    /\ tk_cycle tc = Completes c
    /\ Forall (fun x => completes (tk_cycle x) = false) after
    /\ d = buildSnapshot c
             (updateLatch c (priceToBeatState (server (Loop.run before st0))))
    /\ tokens (Loop.run ticks st0) = tk_tokens tc.
Proof.
  intros Hnone. induction ticks as [|tk ticks IH] using rev_ind.
  - cbn. rewrite Hnone. discriminate.
  - rewrite run_snoc. cbn [iterate fst server tokens].
    destruct (tk_cycle tk) as [| c | c] eqn:Hcy; cbn [updateData completes latestData].
    + intros Hd. destruct (IH Hd) as (before & tc & c & after & -> & Htc & Hafter & -> & Htok).
      exists before, tc, c, (after ++ [tk]).
      rewrite <- app_assoc. cbn [app].
      repeat split; try assumption.
      apply Forall_app. split; [exact Hafter|]. constructor; [|constructor].
      rewrite Hcy. reflexivity.
    + intros Hd. destruct (IH Hd) as (before & tc & c' & after & -> & Htc & Hafter & -> & Htok).
      exists before, tc, c', (after ++ [tk]).
      rewrite <- app_assoc. cbn [app].
      repeat split; try assumption.
      apply Forall_app. split; [exact Hafter|]. constructor; [|constructor].
      rewrite Hcy. reflexivity.
    + intros [= <-]. exists ticks, tk, c, [].
      repeat split; try assumption. constructor.
Qed.

(** X16: every entry of the paper trader in the loop is made on the latest
    pass of [updateData] that completed, however many failed passes lie
    between that pass and the entry: the pass recommended to ENTER the side
    of the trade with strength STRONG or GOOD outside the LATE phase, the
    entry price is the market price of that side in that pass, and the trade
    carries the slug of that pass.  Before a first pass completes the trader
    is not called at all. *)
Theorem loop_enters_on_latest_completed_pass :
  forall (ticks : list Tick) (tk : Tick) (st0 : State)
         (t : Paper.Trade) (b : number),
    latestData (server st0) = None ->
    out_paper (snd (iterate tk (Loop.run ticks st0)))
    = Some (Paper.Traded t b) ->
    exists before tc c after,
      ticks ++ [tk] = before ++ tc :: after
      /\ tk_cycle tc = Completes c
      /\ Forall (fun x => completes (tk_cycle x) = false) after
      /\ rec_enter (cy_rec c) = true
      /\ rec_side (cy_rec c) = Some (Paper.tr_side t)
      /\ (rec_strength (cy_rec c) = Some STRONG
          \/ rec_strength (cy_rec c) = Some GOOD)
      /\ rec_phase (cy_rec c) <> LATE
      /\ marketPrice (Paper.tr_side t) c = Some (Paper.tr_entryPrice t)
      /\ Paper.tr_marketSlug t = cy_marketSlug c.
Proof.
  intros ticks tk st0 t b Hnone Hout.
  pose proof (latest_completed_turn (ticks ++ [tk]) st0) as Hlatest.
  rewrite run_snoc in Hlatest. cbn [iterate fst snd server out_paper] in *.
  set (st := Loop.run ticks st0) in *.
  destruct (latestData (updateData (tk_cycle tk) (server st))) as [d|] eqn:Hd;
    [|discriminate].
  destruct (Paper.isEnabled (paper st)); [|discriminate].
  cbn [option_map] in Hout. injection Hout as Hout.
  destruct (Hlatest d Hnone eq_refl)
    as (before & tc & c & after & Hsplit & Htc & Hafter & Hbuilt & _).
  destruct (Paper.evaluateAndTrade d (tk_paperNow tk) (paper st))
    as [s' r] eqn:Hev.
  cbn [snd] in Hout. subst r.
  apply evaluateAndTrade_traded in Hev as [Hev _].
  apply enter_traded_signal in Hev
    as (Hact & Hside & Hstrength & Hphase & Hprice & Hslug).
  rewrite Hbuilt in Hact.
  destruct (buildSnapshot_actionable _ _ Hact) as (Henter & Hs & Hg).
  rewrite <- Hbuilt in Hs, Hg.
  exists before, tc, c, after.
  split; [exact Hsplit|]. split; [exact Htc|]. split; [exact Hafter|].
  split; [exact Henter|].
  split; [rewrite <- Hs; exact Hside|].
  split; [rewrite <- Hg; exact Hstrength|].
  split; [rewrite Hbuilt in Hphase; exact Hphase|].
  split; [|rewrite Hslug, Hbuilt; reflexivity].
  rewrite Hbuilt in Hprice. unfold marketPrice.
  destruct (Paper.tr_side t); exact Hprice.
Qed.

(** The paper engine leaves its cooldown during a failed pass and enters on
    the snapshot of the pass before. *)
Lemma loop_enters_on_latest_completed_pass_witness :
  exists before tc c after,
    [Scenarios.completedTurn] ++ [Scenarios.failedTurn] = before ++ tc :: after
    /\ tk_cycle tc = Completes c
    /\ Forall (fun x => completes (tk_cycle x) = false) after
    /\ rec_enter (cy_rec c) = true
    /\ rec_side (cy_rec c) = Some (Paper.tr_side Scenarios.staleTrade)
    /\ (rec_strength (cy_rec c) = Some STRONG
        \/ rec_strength (cy_rec c) = Some GOOD)
    /\ rec_phase (cy_rec c) <> LATE
    /\ marketPrice (Paper.tr_side Scenarios.staleTrade) c
       = Some (Paper.tr_entryPrice Scenarios.staleTrade)
    /\ Paper.tr_marketSlug Scenarios.staleTrade = cy_marketSlug c.
Proof.
  apply (loop_enters_on_latest_completed_pass [Scenarios.completedTurn]
           Scenarios.failedTurn Scenarios.loopStart Scenarios.staleTrade
           (Paper.balance
              (paper (fst (iterate Scenarios.failedTurn
                             (Loop.run [Scenarios.completedTurn]
                                Scenarios.loopStart)))))).
  - reflexivity.
  - vm_compute. reflexivity.
Defined.

(** X17: every order the live controller fills in the loop is made on the
    latest pass that completed, however stale: the pass recommended to ENTER
    that side with strength STRONG, the order is priced at the market price
    of the side in that pass, and the holding is filed under the token id
    that pass reported for the side. *)
Theorem loop_orders_on_latest_completed_pass :
  forall (ticks : list Tick) (tk : Tick) (st0 : State)
         (side : Side) (shares price : number) (orderId : string),
    latestData (server st0) = None ->
    out_auto (snd (iterate tk (Loop.run ticks st0)))
    = Some (Auto.Traded side shares price orderId) ->
    exists before tc c after tokenId,
      ticks ++ [tk] = before ++ tc :: after
      /\ tk_cycle tc = Completes c
      /\ Forall (fun x => completes (tk_cycle x) = false) after
      /\ rec_enter (cy_rec c) = true
      /\ rec_side (cy_rec c) = Some side
      /\ rec_strength (cy_rec c) = Some STRONG
      /\ marketPrice side c = Some price
      /\ Auto.tokenFor side (tk_tokens tc) = Some tokenId
      /\ Auto.holding tokenId
           (Auto.positions (auto (fst (iterate tk (Loop.run ticks st0)))))
         = Some {| Auto.ho_side := side; Auto.ho_shares := shares;
                   Auto.ho_entryPrice := price;
                   Auto.ho_timestamp := tk_autoLater tk |}.
Proof.
  intros ticks tk st0 side shares price orderId Hnone Hout.
  pose proof (latest_completed_turn (ticks ++ [tk]) st0) as Hlatest.
  rewrite run_snoc in Hlatest.
  cbn [iterate fst snd server tokens auto out_auto] in *.
  set (st := Loop.run ticks st0) in *.
  destruct (latestData (updateData (tk_cycle tk) (server st))) as [d|] eqn:Hd;
    [|discriminate].
  destruct (Auto.enabled (auto st)); [|discriminate].
  cbn [option_map] in Hout. injection Hout as Hout.
  destruct (Hlatest d Hnone eq_refl)
    as (before & tc & c & after & Hsplit & Htc & Hafter & Hbuilt & Htok).
  set (toks := if completes (tk_cycle tk) then tk_tokens tk else tokens st) in *.
  destruct (auto_evaluateAndTrade_cases d toks (tk_ready tk) (tk_autoNow tk)
              (tk_order tk) (tk_autoLater tk) (auto st))
    as [[_ Hno] | (side' & tokenId & price' & orderId' & _ & Hside & Hact & _
                   & Hstr & Htoken & Hprice & _ & _ & _ & Heq)].
  { exfalso. apply (Hno side shares price orderId). exact Hout. }
  rewrite Heq in Hout. cbn [snd] in Hout.
  injection Hout as -> Hshares -> _.
  rewrite Hbuilt in Hact.
  destruct (buildSnapshot_actionable _ _ Hact) as (Henter & Hs & Hg).
  rewrite <- Hbuilt in Hs, Hg.
  exists before, tc, c, after, tokenId.
  split; [exact Hsplit|]. split; [exact Htc|]. split; [exact Hafter|].
  split; [exact Henter|].
  split; [rewrite <- Hs; exact Hside|].
  split; [rewrite <- Hg; exact Hstr|].
  split; [rewrite Hbuilt in Hprice; unfold marketPrice;
          destruct side; exact Hprice|].
  split; [rewrite <- Htok; exact Htoken|].
  rewrite Heq. cbn [fst Auto.positions Auto.record].
  rewrite Hshares. apply holding_hold_eq.
Qed.

(** The trader becomes ready during a failed pass and the controller orders
    on the snapshot of the pass before. *)
Lemma loop_orders_on_latest_completed_pass_witness :
  exists before tc c after tokenId,
    [Scenarios.completedTurn] ++ [Scenarios.failedTurn] = before ++ tc :: after
    /\ tk_cycle tc = Completes c
    /\ Forall (fun x => completes (tk_cycle x) = false) after
    /\ rec_enter (cy_rec c) = true
    /\ rec_side (cy_rec c) = Some UP
    /\ rec_strength (cy_rec c) = Some STRONG
    /\ marketPrice UP c = Some 0.40
    /\ Auto.tokenFor UP (tk_tokens tc) = Some tokenId
    /\ Auto.holding tokenId
         (Auto.positions
            (auto (fst (iterate Scenarios.failedTurn
                          (Loop.run [Scenarios.completedTurn]
                             Scenarios.loopStart)))))
       = Some {| Auto.ho_side := UP; Auto.ho_shares := 10;
                 Auto.ho_entryPrice := 0.40;
                 Auto.ho_timestamp := tk_autoLater Scenarios.failedTurn |}.
Proof.
  apply (loop_orders_on_latest_completed_pass [Scenarios.completedTurn]
           Scenarios.failedTurn Scenarios.loopStart UP 10 0.40
           "order-7").
  - reflexivity.
  - vm_compute. reflexivity.
Defined.

End LoopFacts.
